(** * Options flow dashboard: a shallow embedding of [Dashboard.py]

    The development embeds the data access, market data lookup and
    aggregation routines of [Dashboard.py] and proves properties of
    them.  Conventions of the embedding:

    - a [float] is a rational ([Q]), compared with [==] ([Qeq]).  The
      aggregation routines are embedded with exact sums; the sums of
      lines 164-176 and 221-229 are embedded a second time as the
      program computes them, in binary64, where a property depends on
      rounding;
    - a data date is its day number; an expiration timestamp counts the
      nanoseconds since the epoch, time of day included; [NaT], [NaN]
      and [None] in a frame column are the missing cell;
    - strings are byte strings, [upper] and [strip] act on ASCII;
    - what Python does through object identity is done through a heap
      of frames addressed by references;
    - the market data provider, the wall clock and the database are
      part of an explicit program state; [print] output and the
      memoising decorators of the source are not modelled. *)

From Stdlib Require Import List String Ascii Bool Arith ZArith QArith Lia.
From Stdlib Require Import Qround Qabs Permutation Sorted.
Import ListNotations.

Local Open Scope string_scope.
Local Open Scope Z_scope.

(* ================================================================= *)
(** ** Strings *)

Module Str.

(** [str.upper] on ASCII letters. *)
Definition upper_ascii (c : ascii) : ascii :=
  if (Ascii.leb "a" c && Ascii.leb c "z")%bool
  then ascii_of_N (N_of_ascii c - 32)
  else c.

Fixpoint upper (s : string) : string :=
  match s with
  | EmptyString => EmptyString
  | String c t => String (upper_ascii c) (upper t)
  end.

(** [str.isspace] on one ASCII character: tab, line feed, vertical
    tab, form feed, carriage return, the four separators 28..31 and
    the space. *)
Definition isspace (c : ascii) : bool :=
  let n := N_of_ascii c in
  ((9 <=? n) && (n <=? 13) || (28 <=? n) && (n <=? 32))%N.

Fixpoint lstrip (s : string) : string :=
  match s with
  | EmptyString => EmptyString
  | String c t => if isspace c then lstrip t else s
  end.

Fixpoint rstrip (s : string) : string :=
  match s with
  | EmptyString => EmptyString
  | String c t =>
      let t' := rstrip t in
      if (isspace c && String.eqb t' EmptyString)%bool
      then EmptyString else String c t'
  end.

(** [str.strip] with no argument. *)
Definition strip (s : string) : string := rstrip (lstrip s).

(** [bool(s)] for a string. *)
Definition truthy (s : string) : bool := negb (String.eqb s EmptyString).

End Str.

(* ================================================================= *)
(** ** Python values *)

(** A Python float: a number or [nan]. *)
Inductive pyfloat : Type :=
| Fin (q : Q)
| NaN.

(** [bool(x)] for [x] a float or [None]: [None] and zero are false,
    [nan] is true. *)
Definition truthy (x : option pyfloat) : bool :=
  match x with
  | None => false
  | Some NaN => true
  | Some (Fin q) => negb (Qeq_bool q 0)
  end.

(** Exceptions the modelled code can meet. *)
Inductive exn : Type :=
| TypeError                    (* ordering [None] against a string *)
| KeyError (column : string)   (* a column the frame does not carry *)
| ProviderError (msg : string) (* any exception of the market data library *)
| DatabaseError (msg : string) (* any exception of the connection *)
| IndexError                   (* [iloc] past the end *)
| InvalidReference.            (* a reference outside the heap *)

Inductive outcome (A : Type) : Type :=
| Ok (a : A)
| Raise (e : exn).
Arguments Ok {A} a.
Arguments Raise {A} e.

(* ================================================================= *)
(** ** Frames *)

(** A cell of the expiration column: missing ([NaT], [None]), text not
    yet parsed, or a timestamp, in nanoseconds since the epoch
    ([datetime64[ns]]). *)
Inductive date_cell : Type :=
| NaT
| RawDate (s : string)
| Timestamp (t : Z).

Definition nanoseconds_per_day : Z := 86400000000000.

(** One row of a frame: a slot for every column the program reads or
    writes.  The first seven are the columns of the [options_activity]
    table; the last five are the columns [create_expiration_summary_table]
    adds to its working copy.  A slot of a column that the frame does
    not list in [columns] is never read. *)
Record Row : Type := mkRow {
  data_date : option Z;
  underlying_ticker : option string;
  expiration_date : date_cell;
  option_type : option string;
  sentiment : option string;
  premium_usd : option Q;
  market_cap_ingested : option Q;
  time_to_expiry_days : option Z;
  call_premium_exp : option Q;
  put_premium_exp : option Q;
  bullish_premium_exp : option Q;
  bearish_premium_exp : option Q
}.

Record DataFrame : Type := mkDataFrame {
  columns : list string;
  rows : list Row
}.

(** [pd.DataFrame()] *)
Definition empty_frame : DataFrame := mkDataFrame [] [].

(** [df.empty]: an axis of length zero. *)
Definition df_empty (df : DataFrame) : bool :=
  match columns df, rows df with
  | [], _ => true
  | _, [] => true
  | _, _ => false
  end.

(** [col in df.columns] *)
Definition has_column (df : DataFrame) (col : string) : bool :=
  existsb (String.eqb col) (columns df).

(** [Series.sum()]: missing cells are skipped, the empty sum is zero. *)
Fixpoint series_sum (s : list (option Q)) : Q :=
  match s with
  | [] => 0%Q
  | Some q :: t => (q + series_sum t)%Q
  | None :: t => series_sum t
  end.

(** [df[mask]] with a row-wise mask. *)
Definition df_filter (mask : Row -> bool) (df : DataFrame) : DataFrame :=
  mkDataFrame (columns df) (filter mask (rows df)).

(** [df[col] = values] with row-wise values: the slot is written in
    every row and the column is listed if it was not. *)
Definition df_assign (col : string) (write : Row -> Row) (df : DataFrame)
  : DataFrame :=
  mkDataFrame
    (if has_column df col then columns df else columns df ++ [col])
    (map write (rows df)).

(* ================================================================= *)
(** ** Sorting

    [sorted], [sort_values], the key order of [groupby] and SQL's
    [ORDER BY] are taken through an interface: any procedure that
    returns a sorted permutation.  Nothing proved below depends on how
    ties are ordered. *)

Definition total_leb {A} (leb : A -> A -> bool) : Prop :=
  forall x y, leb x y = true \/ leb y x = true.

Definition transitive_leb {A} (leb : A -> A -> bool) : Prop :=
  forall x y z, leb x y = true -> leb y z = true -> leb x z = true.

Class Sorter : Type := {
  sort : forall A : Type, (A -> A -> bool) -> list A -> list A;
  sort_permutation :
    forall A (leb : A -> A -> bool) (l : list A),
      Permutation l (sort A leb l);
  sort_sorted :
    forall A (leb : A -> A -> bool),
      total_leb leb -> transitive_leb leb ->
      forall l, StronglySorted (fun x y => leb x y = true) (sort A leb l)
}.
Arguments sort {_} {A} leb l.

(** Insertion sort, the instance used to run the model. *)
Fixpoint insert_sorted {A} (leb : A -> A -> bool) (x : A) (l : list A)
  : list A :=
  match l with
  | [] => [x]
  | y :: t => if leb x y then x :: l else y :: insert_sorted leb x t
  end.

Fixpoint insertion_sort {A} (leb : A -> A -> bool) (l : list A) : list A :=
  match l with
  | [] => []
  | x :: t => insert_sorted leb x (insertion_sort leb t)
  end.

Definition is_none {A} (x : option A) : bool :=
  match x with None => true | Some _ => false end.

(** [Series.unique()]: the distinct values in order of first
    appearance; [seen] holds the values met so far. *)
Fixpoint unique_from {A} (eqb : A -> A -> bool) (seen l : list A) : list A :=
  match l with
  | [] => []
  | x :: t =>
      if existsb (eqb x) seen then unique_from eqb seen t
      else x :: unique_from eqb (x :: seen) t
  end.

Definition unique {A} (eqb : A -> A -> bool) (l : list A) : list A :=
  unique_from eqb [] l.

Definition option_eqb {A} (eqb : A -> A -> bool) (x y : option A) : bool :=
  match x, y with
  | Some a, Some b => eqb a b
  | None, None => true
  | _, _ => false
  end.

(** [0 < q] on rationals, as a boolean. *)
Definition Qpositive (q : Q) : bool := negb (Qle_bool q 0).

(* ================================================================= *)
(** ** The world outside the program, and the program state *)

(** What the program has asked of the outside so far. *)
Inductive event : Type :=
| FastInfo (ticker : string)               (* [yf.Ticker(t).fast_info.get('last_price')] *)
| HistoryPeriod (ticker : string)          (* [yf.Ticker(t).history(period='2d')] *)
| HistoryRange (ticker : string) (start stop : Z)
                                           (* [yf.Ticker(t).history(start=.., end=..)] *)
| Sleep (seconds : Z)                      (* [time.sleep] *)
| Query (start_date end_date : Z).         (* the range query on [options_activity] *)

(** The services and library functions the program calls but does not
    define.  What a service answers may depend on everything asked
    before; an answer is a value or an exception.  A price history is
    given by its [Close] column.  The text reader of [pd.to_datetime]
    works on a column: pandas infers one format from the column and
    reads every text of the column in it, so what a text denotes
    depends on the cells around it. *)
Record World : Type := mkWorld {
  fast_info_last_price : list event -> string -> outcome (option pyfloat);
  history_period_2d : list event -> string -> outcome (list pyfloat);
  history_start_end : list event -> string -> Z -> Z -> outcome (list pyfloat);
  options_activity : list event -> outcome DataFrame;
  parse_date : list date_cell -> string -> option Z
    (* [parse_date column text]: the timestamp [pd.to_datetime] reads in
       [text] as a cell of [column], if it reads one *)
}.

Definition ref : Type := nat.

Record State : Type := mkState {
  heap : list DataFrame;   (* the frames, by reference *)
  clock : Z;               (* seconds since the epoch *)
  log : list event;        (* chronological *)
  world : World
}.

(** Computations: state passing with exceptions. *)
Definition M (A : Type) : Type := State -> outcome A * State.

Definition ret {A} (a : A) : M A := fun s => (Ok a, s).

Definition bind {A B} (m : M A) (k : A -> M B) : M B :=
  fun s =>
    match m s with
    | (Ok a, s') => k a s'
    | (Raise e, s') => (Raise e, s')
    end.

Definition raise {A} (e : exn) : M A := fun s => (Raise e, s).

(** [try: body except Exception as e: handler]: what the body did to
    the state before it raised stays done. *)
Definition try_except {A} (body : M A) (handler : exn -> M A) : M A :=
  fun s =>
    match body s with
    | (Ok a, s') => (Ok a, s')
    | (Raise e, s') => handler e s'
    end.

Declare Scope monad_scope.
Delimit Scope monad_scope with monad.
Notation "x <- m ;; k" := (bind m (fun x => k))
  (at level 100, m at next level, right associativity) : monad_scope.
Notation "m ;; k" := (bind m (fun _ => k))
  (at level 100, right associativity) : monad_scope.
Local Open Scope monad_scope.

Definition get_state : M State := fun s => (Ok s, s).

Definition lift_outcome {A} (o : outcome A) : M A :=
  match o with
  | Ok a => ret a
  | Raise e => raise e
  end.

Definition emit (e : event) : M unit :=
  fun s => (Ok tt, mkState (heap s) (clock s) (log s ++ [e]) (world s)).

(** [time.sleep(seconds)] *)
Definition sleep (seconds : Z) : M unit :=
  fun s =>
    (Ok tt, mkState (heap s) (clock s + seconds) (log s ++ [Sleep seconds]) (world s)).

(** [datetime.now().date()], as a day number. *)
Definition today : M Z := fun s => (Ok (clock s / 86400), s).

(** Reading the frame a reference points to. *)
Definition deref (r : ref) : M DataFrame :=
  fun s =>
    match nth_error (heap s) r with
    | Some df => (Ok df, s)
    | None => (Raise InvalidReference, s)
    end.

(** A new frame object. *)
Definition alloc (df : DataFrame) : M ref :=
  fun s =>
    (Ok (List.length (heap s)), mkState (heap s ++ [df]) (clock s) (log s) (world s)).

Fixpoint replace_nth {A} (n : nat) (x : A) (l : list A) : list A :=
  match l, n with
  | [], _ => []
  | _ :: t, O => x :: t
  | y :: t, S n' => y :: replace_nth n' x t
  end.

(** An operation that changes the frame behind [r] in place
    ([inplace=True], [df[col] = ...]). *)
Definition update (r : ref) (f : DataFrame -> DataFrame) : M unit :=
  df <- deref r ;;
  fun s =>
    (Ok tt, mkState (replace_nth r (f df) (heap s)) (clock s) (log s) (world s)).

(** [df.copy()]: a new object with the same content. *)
Definition copy (r : ref) : M ref :=
  df <- deref r ;;
  alloc df.

(* ================================================================= *)
(** ** Market data lookup: [get_current_price] *)

Definition fast_info_get (ticker : string) : M (option pyfloat) :=
  s <- get_state ;;
  emit (FastInfo ticker) ;;
  lift_outcome (fast_info_last_price (world s) (log s) ticker).

Definition history_2d (ticker : string) : M (list pyfloat) :=
  s <- get_state ;;
  emit (HistoryPeriod ticker) ;;
  lift_outcome (history_period_2d (world s) (log s) ticker).

Definition history_range (ticker : string) (start stop : Z) : M (list pyfloat) :=
  s <- get_state ;;
  emit (HistoryRange ticker start stop) ;;
  lift_outcome (history_start_end (world s) (log s) ticker start stop).

(** What one turn of a [for] body does: leave the function with a
    value, or fall through to the next turn. *)
Inductive flow (A : Type) : Type :=
| Return (a : A)
| Next.
Arguments Return {A} a.
Arguments Next {A}.

(** The body of [for attempt in range(2)]. *)
Definition price_attempt (ticker_symbol : string) (attempt : nat)
  : M (flow (option pyfloat)) :=
  try_except
    (price <- fast_info_get ticker_symbol ;;
     if truthy price then ret (Return price)
     else
       tod <- history_2d ticker_symbol ;;
       match tod with
       | _ :: _ => ret (Return (Some (last tod NaN)))
       | [] =>
           (if Nat.eqb attempt 0 then sleep 5 else ret tt) ;;
           ret Next
       end)
    (fun e =>
       (if Nat.eqb attempt 0 then sleep 15 else ret tt) ;;
       ret Next).

Fixpoint price_attempts (ticker_symbol : string) (attempts : list nat)
  : M (option pyfloat) :=
  match attempts with
  | [] => ret None
  | attempt :: rest =>
      f <- price_attempt ticker_symbol attempt ;;
      match f with
      | Return price => ret price
      | Next => price_attempts ticker_symbol rest
      end
  end.

Definition get_current_price (ticker_symbol : string) : M (option pyfloat) :=
  price_attempts ticker_symbol (seq 0 2).

(* ================================================================= *)
(** ** Column operations on frames *)

Definition set_expiration_date (v : date_cell) (r : Row) : Row :=
  mkRow (data_date r) (underlying_ticker r) v (option_type r) (sentiment r)
        (premium_usd r) (market_cap_ingested r) (time_to_expiry_days r)
        (call_premium_exp r) (put_premium_exp r)
        (bullish_premium_exp r) (bearish_premium_exp r).

Definition set_premium_usd (v : option Q) (r : Row) : Row :=
  mkRow (data_date r) (underlying_ticker r) (expiration_date r) (option_type r)
        (sentiment r) v (market_cap_ingested r) (time_to_expiry_days r)
        (call_premium_exp r) (put_premium_exp r)
        (bullish_premium_exp r) (bearish_premium_exp r).

Definition set_time_to_expiry_days (v : option Z) (r : Row) : Row :=
  mkRow (data_date r) (underlying_ticker r) (expiration_date r) (option_type r)
        (sentiment r) (premium_usd r) (market_cap_ingested r) v
        (call_premium_exp r) (put_premium_exp r)
        (bullish_premium_exp r) (bearish_premium_exp r).

Definition set_call_premium_exp (v : option Q) (r : Row) : Row :=
  mkRow (data_date r) (underlying_ticker r) (expiration_date r) (option_type r)
        (sentiment r) (premium_usd r) (market_cap_ingested r)
        (time_to_expiry_days r) v (put_premium_exp r)
        (bullish_premium_exp r) (bearish_premium_exp r).

Definition set_put_premium_exp (v : option Q) (r : Row) : Row :=
  mkRow (data_date r) (underlying_ticker r) (expiration_date r) (option_type r)
        (sentiment r) (premium_usd r) (market_cap_ingested r)
        (time_to_expiry_days r) (call_premium_exp r) v
        (bullish_premium_exp r) (bearish_premium_exp r).

Definition set_bullish_premium_exp (v : option Q) (r : Row) : Row :=
  mkRow (data_date r) (underlying_ticker r) (expiration_date r) (option_type r)
        (sentiment r) (premium_usd r) (market_cap_ingested r)
        (time_to_expiry_days r) (call_premium_exp r) (put_premium_exp r)
        v (bearish_premium_exp r).

Definition set_bearish_premium_exp (v : option Q) (r : Row) : Row :=
  mkRow (data_date r) (underlying_ticker r) (expiration_date r) (option_type r)
        (sentiment r) (premium_usd r) (market_cap_ingested r)
        (time_to_expiry_days r) (call_premium_exp r) (put_premium_exp r)
        (bullish_premium_exp r) v.

(** One cell under [pd.to_datetime(column, errors='coerce')], [read]
    being the text reader of the column: a timestamp stays, text is
    read or becomes [NaT], a missing cell is [NaT]. *)
Definition to_datetime (read : string -> option Z) (c : date_cell) : date_cell :=
  match c with
  | Timestamp t => Timestamp t
  | RawDate s =>
      match read s with
      | Some t => Timestamp t
      | None => NaT
      end
  | NaT => NaT
  end.

Definition coerce_expiration_date (read : string -> option Z) (r : Row) : Row :=
  set_expiration_date (to_datetime read (expiration_date r)) r.

(** The text reader of the expiration column of a frame. *)
Definition expiration_reader (w : World) (df : DataFrame) : string -> option Z :=
  parse_date w (map expiration_date (rows df)).

(** [df['expiration_date'] = pd.to_datetime(df['expiration_date'],
    errors='coerce')] (lines 123 and 216). *)
Definition to_datetime_expiration_date (w : World) (df : DataFrame) : DataFrame :=
  df_assign "expiration_date" (coerce_expiration_date (expiration_reader w df)) df.

(** [pd.isna] of the cell of column [col] in a row. *)
Definition isna (col : string) (r : Row) : bool :=
  if String.eqb col "data_date" then is_none (data_date r)
  else if String.eqb col "underlying_ticker" then is_none (underlying_ticker r)
  else if String.eqb col "expiration_date" then
    match expiration_date r with NaT => true | _ => false end
  else if String.eqb col "option_type" then is_none (option_type r)
  else if String.eqb col "sentiment" then is_none (sentiment r)
  else if String.eqb col "premium_usd" then is_none (premium_usd r)
  else if String.eqb col "market_cap_ingested" then is_none (market_cap_ingested r)
  else if String.eqb col "time_to_expiry_days" then is_none (time_to_expiry_days r)
  else if String.eqb col "call_premium_exp" then is_none (call_premium_exp r)
  else if String.eqb col "put_premium_exp" then is_none (put_premium_exp r)
  else if String.eqb col "bullish_premium_exp" then is_none (bullish_premium_exp r)
  else if String.eqb col "bearish_premium_exp" then is_none (bearish_premium_exp r)
  else false.

(** [df.dropna(subset=cols)]: the rows with no missing cell in [cols]. *)
Definition dropna (subset : list string) (df : DataFrame) : DataFrame :=
  df_filter (fun r => negb (existsb (fun col => isna col r) subset)) df.

(** [df[col]] raises [KeyError] on a column the frame does not carry. *)
Definition require_column (df : DataFrame) (col : string) : M unit :=
  if has_column df col then ret tt else raise (KeyError col).

(* ================================================================= *)
(** ** Data access: [fetch_options_activity_for_range] *)

(** [a <= b] on nullable values, missing last (ascending order). *)
Definition nulls_last_leb {A} (leb : A -> A -> bool) (x y : option A) : bool :=
  match x, y with
  | _, None => true
  | None, Some _ => false
  | Some a, Some b => leb a b
  end.

(** [ORDER BY data_date, underlying_ticker] *)
Definition order_by_date_ticker (r1 r2 : Row) : bool :=
  if option_eqb Z.eqb (data_date r1) (data_date r2)
  then nulls_last_leb String.leb (underlying_ticker r1) (underlying_ticker r2)
  else nulls_last_leb Z.leb (data_date r1) (data_date r2).

(** [WHERE data_date >= :start_date AND data_date <= :end_date]; a
    comparison with NULL does not hold. *)
Definition where_in_range (start_date end_date : Z) (r : Row) : bool :=
  match data_date r with
  | Some d => (d >=? start_date) && (d <=? end_date)
  | None => false
  end.

(** [conn.query(query, params=...)]: [SELECT *] keeps the columns of the
    table; the result is a new frame. *)
Definition conn_query `{Sorter} (start_date end_date : Z) : M ref :=
  s <- get_state ;;
  emit (Query start_date end_date) ;;
  table <- lift_outcome (options_activity (world s) (log s)) ;;
  alloc (mkDataFrame (columns table)
           (sort order_by_date_ticker
              (filter (where_in_range start_date end_date) (rows table)))).

(** [pd.to_numeric(cell, errors='coerce')] followed by [fillna(0)]. *)
Definition to_numeric_fillna0 (c : option Q) : option Q :=
  match c with
  | Some q => Some q
  | None => Some 0%Q
  end.

(** Line 125, row by row. *)
Definition coerce_premium_usd (r : Row) : Row :=
  set_premium_usd (to_numeric_fillna0 (premium_usd r)) r.

(** Line 124, row by row: a data date is a date or missing already. *)
Definition coerce_data_date (r : Row) : Row := r.

Definition fetch_options_activity_for_range `{Sorter} (start_date end_date : Z)
  : M ref :=
  try_except
    (df <- conn_query start_date end_date ;;
     frame <- deref df ;;
     (if negb (df_empty frame) then
        s <- get_state ;;
        require_column frame "expiration_date" ;;
        update df (to_datetime_expiration_date (world s)) ;;
        require_column frame "data_date" ;;
        update df (df_assign "data_date" coerce_data_date) ;;
        require_column frame "premium_usd" ;;
        update df (df_assign "premium_usd" coerce_premium_usd)
      else ret tt) ;;
     ret df)
    (fun e => alloc empty_frame).

(* ================================================================= *)
(** ** Aggregation per ticker: [analyze_ticker_dashboard] *)

(** One dictionary appended to [analysis_results]. *)
Record TickerSummary : Type := mkTickerSummary {
  Ticker : string;
  Market_Cap : option Q;             (* [None] is [np.nan] *)
  Current_Price : option pyfloat;
  Price_at_Period_Start : pyfloat;
  Price_Change_pct : pyfloat;
  Total_Activity_Prem : Q;
  Total_Call_Vol_Prem : Q;
  Total_Put_Vol_Prem : Q;
  Bullish_Prem : Q;
  Bearish_Prem : Q;
  Bullish_MCap_Score : Q;
  Bearish_MCap_Score : Q
}.

(** [sorted(values)] on the distinct values of a ticker column: Python
    cannot order [None] against a string (nor against anything), so a
    missing value among two or more values is a [TypeError]. *)
Definition sorted_tickers `{Sorter} (values : list (option string))
  : M (list (option string)) :=
  if (existsb is_none values && (2 <=? List.length values)%nat)%bool
  then raise TypeError
  else ret (sort (nulls_last_leb String.leb) values).

(** The test of line 139 that makes the loop [continue], on a ticker
    that is a string:
    [not ticker or pd.isna(ticker) or str(ticker).strip().upper() == 'NAN'
     or not str(ticker).strip()]. *)
Definition ticker_skipped (ticker : string) : bool :=
  negb (Str.truthy ticker)
  || String.eqb (Str.upper (Str.strip ticker)) "NAN"
  || negb (Str.truthy (Str.strip ticker)).

(** [sort_values(by='data_date', ascending=False)]: latest first,
    missing dates last. *)
Definition data_date_descending (r1 r2 : Row) : bool :=
  nulls_last_leb Z.geb (data_date r1) (data_date r2).

(** [market_cap_to_use_for_calc if pd.notnull(..) and .. > 0 else 0] *)
Definition mcap_val_for_calc (market_cap_to_use_for_calc : option Q) : Q :=
  match market_cap_to_use_for_calc with
  | Some m => if Qpositive m then m else 0%Q
  | None => 0%Q
  end.

(** [(premium / mcap_val_for_calc) * 100000 if mcap_val_for_calc > 0 else 0] *)
Definition mcap_score (premium mcap : Q) : Q :=
  if Qpositive mcap then ((premium / mcap) * 100000)%Q else 0%Q.

(** [sentiment.fillna('UNKNOWN').astype(str).str.strip().str.upper()] *)
Definition sentiment_series (r : Row) : string :=
  Str.upper (Str.strip (match sentiment r with
                        | Some s => s
                        | None => "UNKNOWN"
                        end)).

(** [option_type.str.upper() == label]; a missing cell stays missing
    and compares unequal. *)
Definition option_type_upper_is (label : string) (r : Row) : bool :=
  match option_type r with
  | Some s => String.eqb (Str.upper s) label
  | None => false
  end.

(** [df.loc[mask, 'premium_usd'].sum()] *)
Definition premium_where (mask : Row -> bool) (df : DataFrame) : Q :=
  series_sum (map premium_usd (filter mask (rows df))).

(** The five premium sums of lines 165-176, in the order total, call,
    put, bullish, bearish.  A premium cell is a number or missing, so
    [is_numeric_dtype] holds of the column whenever it is there. *)
Definition premium_sums (ticker_df : DataFrame) : Q * Q * Q * Q * Q :=
  if has_column ticker_df "premium_usd" then
    let ticker_df_cleaned_premium := dropna ["premium_usd"] ticker_df in
    let total := series_sum (map premium_usd (rows ticker_df_cleaned_premium)) in
    let '(bullish, bearish) :=
      if has_column ticker_df_cleaned_premium "sentiment" then
        (premium_where (fun r => String.eqb (sentiment_series r) "BULLISH")
           ticker_df_cleaned_premium,
         premium_where (fun r => String.eqb (sentiment_series r) "BEARISH")
           ticker_df_cleaned_premium)
      else (0%Q, 0%Q) in
    let '(call, put) :=
      if has_column ticker_df_cleaned_premium "option_type" then
        (premium_where (option_type_upper_is "CALL") ticker_df_cleaned_premium,
         premium_where (option_type_upper_is "PUT") ticker_df_cleaned_premium)
      else (0%Q, 0%Q) in
    (total, call, put, bullish, bearish)
  else (0%Q, 0%Q, 0%Q, 0%Q, 0%Q).

(** Lines 148-155: the ingested capitalisation of the latest record of
    the ticker, [np.nan] when there is none. *)
Definition market_cap_to_use `{Sorter} (ticker_df_for_mcap : DataFrame)
  : M (option Q) :=
  if (negb (df_empty ticker_df_for_mcap)
      && has_column ticker_df_for_mcap "market_cap_ingested")%bool
  then
    require_column ticker_df_for_mcap "data_date" ;;
    match sort data_date_descending (rows ticker_df_for_mcap) with
    | latest_record_for_ticker :: _ =>
        let mcap_val := market_cap_ingested latest_record_for_ticker in
        match mcap_val with
        | Some m => ret (Some m)
        | None => ret None
        end
    | [] => raise IndexError
    end
  else ret None.

(** Line 190-191: the change of the live price against the price at
    the start of the period, computed when both are numbers
    ([pd.notnull]) and the latter is not zero; [nan] otherwise. *)
Definition price_change (current_price : option pyfloat)
    (price_at_period_start : pyfloat) : pyfloat :=
  match current_price, price_at_period_start with
  | Some (Fin cur), Fin p0 =>
      if negb (Qeq_bool p0 0) then Fin (((cur - p0) / p0) * 100)%Q else NaN
  | _, _ => NaN
  end.

(** Lines 181-194: the close at the start of the period and the change
    of the live price against it; both stay [nan] when the lookup
    raises or returns nothing. *)
Definition period_start_prices (ticker : string)
    (selected_range_start_date_dt : Z) (current_price : option pyfloat)
  : M (pyfloat * pyfloat) :=
  try_except
    (history <- history_range ticker selected_range_start_date_dt
                  (selected_range_start_date_dt + 4) ;;
     match history with
     | price_at_period_start :: _ =>
         ret (price_at_period_start,
              price_change current_price price_at_period_start)
     | [] => ret (NaN, NaN)
     end)
    (fun e => ret (NaN, NaN)).

(** The body of [for ticker in unique_tickers] past the [continue]. *)
Definition ticker_row `{Sorter} (options_df_for_period : ref)
    (selected_range_start_date_dt : Z) (ticker : string) : M TickerSummary :=
  current_price <- get_current_price ticker ;;
  df <- deref options_df_for_period ;;
  require_column df "underlying_ticker" ;;
  let ticker_df_for_mcap :=
    df_filter (fun r => option_eqb String.eqb (underlying_ticker r) (Some ticker))
      df in
  market_cap_to_use_for_calc <- market_cap_to_use ticker_df_for_mcap ;;
  let mcap := mcap_val_for_calc market_cap_to_use_for_calc in
  let ticker_df := ticker_df_for_mcap in
  let '(total_premium_for_ticker, total_call_premium, total_put_premium,
        bullish_premium, bearish_premium) := premium_sums ticker_df in
  let bullish_mcap_Score := mcap_score bullish_premium mcap in
  let bearish_mcap_Score := mcap_score bearish_premium mcap in
  prices <- period_start_prices ticker selected_range_start_date_dt
              current_price ;;
  ret (mkTickerSummary ticker market_cap_to_use_for_calc current_price
         (fst prices) (snd prices)
         total_premium_for_ticker total_call_premium total_put_premium
         bullish_premium bearish_premium
         bullish_mcap_Score bearish_mcap_Score).

Fixpoint for_tickers `{Sorter} (options_df_for_period : ref)
    (selected_range_start_date_dt : Z) (unique_tickers : list (option string))
    (analysis_results : list TickerSummary) : M (list TickerSummary) :=
  match unique_tickers with
  | [] => ret analysis_results
  | None :: rest =>
      (* [not ticker], [pd.isna(ticker)]: continue *)
      for_tickers options_df_for_period selected_range_start_date_dt
        rest analysis_results
  | Some ticker :: rest =>
      if ticker_skipped ticker
      then for_tickers options_df_for_period selected_range_start_date_dt
             rest analysis_results
      else
        row <- ticker_row options_df_for_period
                 selected_range_start_date_dt ticker ;;
        for_tickers options_df_for_period selected_range_start_date_dt
          rest (analysis_results ++ [row])
  end.

(** The result is the list of rows of the returned frame; the frame
    without rows is [pd.DataFrame()]. *)
Definition analyze_ticker_dashboard `{Sorter} (options_df_for_period : ref)
    (selected_range_start_date_dt : Z) : M (list TickerSummary) :=
  df <- deref options_df_for_period ;;
  if df_empty df then ret []
  else
    require_column df "underlying_ticker" ;;
    unique_tickers <-
      sorted_tickers (unique (option_eqb String.eqb)
                        (map underlying_ticker (rows df))) ;;
    for_tickers options_df_for_period selected_range_start_date_dt
      unique_tickers [].

(* ================================================================= *)
(** ** Aggregation per expiration: [create_expiration_summary_table] *)

(** One row of the returned frame, under the names of the final
    [rename]. *)
Record ExpirationSummary : Type := mkExpirationSummary {
  Expiration_Date : Z;
  Days_to_Expiry : Z;
  Total_Premium : Q;
  Unique_Tickers : nat;
  Call_Premium : Q;
  Put_Premium : Q;
  Bullish_Premium : Q;
  Bearish_Premium : Q;
  Options_Count : nat
}.

(** The whole days from midnight of day [today_date] to the timestamp
    [t], rounded down: [(t - today_date).days]. *)
Definition days_from (today_date t : Z) : Z :=
  (t - today_date * nanoseconds_per_day) / nanoseconds_per_day.

(** [(expiration_date - today_date).dt.days] *)
Definition days_until (today_date : Z) (c : date_cell) : option Z :=
  match c with
  | Timestamp t => Some (days_from today_date t)
  | _ => None
  end.

(** [np.where(cell == label, premium_usd, 0)] *)
Definition premium_if (cell : option string) (label : string) (r : Row)
  : option Q :=
  if option_eqb String.eqb cell (Some label) then premium_usd r else Some 0%Q.

(** The key of a row under [groupby(['expiration_date',
    'time_to_expiry_days'])]; a row with a missing key cell belongs to
    no group. *)
Definition group_key (r : Row) : option (Z * Z) :=
  match expiration_date r, time_to_expiry_days r with
  | Timestamp t, Some n => Some (t, n)
  | _, _ => None
  end.

Definition key_eqb (k1 k2 : Z * Z) : bool :=
  (fst k1 =? fst k2) && (snd k1 =? snd k2).

(** Group keys come out in ascending order, first key first. *)
Definition key_leb (k1 k2 : Z * Z) : bool :=
  if fst k1 =? fst k2 then snd k1 <=? snd k2 else fst k1 <=? fst k2.

Fixpoint present {A} (l : list (option A)) : list A :=
  match l with
  | [] => []
  | Some a :: t => a :: present t
  | None :: t => present t
  end.

(** [('underlying_ticker', 'nunique')]: distinct values, missing ones
    not counted. *)
Definition nunique (s : list (option string)) : nat :=
  List.length (unique String.eqb (present s)).

(** [('underlying_ticker', 'count')]: the cells that are not missing. *)
Definition count (s : list (option string)) : nat :=
  List.length (present s).

(** The [agg] of one group. *)
Definition aggregate (key : Z * Z) (group : list Row) : ExpirationSummary :=
  mkExpirationSummary
    (fst key) (snd key)
    (series_sum (map premium_usd group))
    (nunique (map underlying_ticker group))
    (series_sum (map call_premium_exp group))
    (series_sum (map put_premium_exp group))
    (series_sum (map bullish_premium_exp group))
    (series_sum (map bearish_premium_exp group))
    (count (map underlying_ticker group)).

Definition in_group (key : Z * Z) (r : Row) : bool :=
  option_eqb key_eqb (group_key r) (Some key).

(** [groupby([...]).agg(...).reset_index()] *)
Definition groupby_agg `{Sorter} (summary_df : DataFrame)
  : list ExpirationSummary :=
  let keys := sort key_leb (unique key_eqb (present (map group_key (rows summary_df)))) in
  map (fun key => aggregate key (filter (in_group key) (rows summary_df))) keys.

(** [sort_values(by='time_to_expiry_days', ascending=True)] *)
Definition days_ascending (a b : ExpirationSummary) : bool :=
  Days_to_Expiry a <=? Days_to_Expiry b.

Definition expiration_columns : list string :=
  ["expiration_date"; "premium_usd"; "underlying_ticker"; "option_type";
   "sentiment"].

(** Lines 220-224: the five columns added to the working copy. *)
Definition write_time_to_expiry_days (today_date : Z) (r : Row) : Row :=
  set_time_to_expiry_days (days_until today_date (expiration_date r)) r.

Definition write_call_premium_exp (r : Row) : Row :=
  set_call_premium_exp (premium_if (option_type r) "CALL" r) r.

Definition write_put_premium_exp (r : Row) : Row :=
  set_put_premium_exp (premium_if (option_type r) "PUT" r) r.

Definition write_bullish_premium_exp (r : Row) : Row :=
  set_bullish_premium_exp (premium_if (sentiment r) "Bullish" r) r.

Definition write_bearish_premium_exp (r : Row) : Row :=
  set_bearish_premium_exp (premium_if (sentiment r) "Bearish" r) r.

(** The result is the list of rows of the returned frame; the frame
    without rows is [pd.DataFrame()]. *)
Definition create_expiration_summary_table `{Sorter} (options_df_for_period : ref)
  : M (list ExpirationSummary) :=
  df <- deref options_df_for_period ;;
  if (df_empty df || negb (forallb (has_column df) expiration_columns))%bool
  then ret []
  else
    summary_df <- copy options_df_for_period ;;
    s <- get_state ;;
    update summary_df (to_datetime_expiration_date (world s)) ;;
    update summary_df (dropna ["expiration_date"; "premium_usd"]) ;;
    frame <- deref summary_df ;;
    if df_empty frame then ret []
    else
      today_date <- today ;;
      update summary_df
        (df_assign "time_to_expiry_days" (write_time_to_expiry_days today_date)) ;;
      update summary_df (df_assign "call_premium_exp" write_call_premium_exp) ;;
      update summary_df (df_assign "put_premium_exp" write_put_premium_exp) ;;
      update summary_df
        (df_assign "bullish_premium_exp" write_bullish_premium_exp) ;;
      update summary_df
        (df_assign "bearish_premium_exp" write_bearish_premium_exp) ;;
      frame <- deref summary_df ;;
      let expiration_analysis := groupby_agg frame in
      let expiration_analysis := sort days_ascending expiration_analysis in
      ret expiration_analysis.

(* ================================================================= *)
(** ** The premium sums in binary64

    The two aggregations above add premiums exactly.  The program adds
    binary64 numbers: an addition returns the number of the format
    nearest to the exact sum, a tie going to the even significand.  A
    binary64 number is kept here as the rational it is; overflow to
    infinity is not modelled. *)

(** [2^k], for every integer [k]. *)
Definition pow2 (k : Z) : Q :=
  if 0 <=? k then inject_Z (2 ^ k) else / inject_Z (2 ^ (- k)).

(** The [e] with [2^e <= q < 2^(e+1)], for a positive [q]. *)
Definition binade (q : Q) : Z :=
  if Qle_bool 1 q then Z.log2 (Qfloor q) else - Z.log2_up (Qceiling (/ q)).

(** The nearest integer, a tie going to the even one. *)
Definition round_half_even (q : Q) : Z :=
  let f := Qfloor q in
  match (q - inject_Z f ?= 1 # 2)%Q with
  | Lt => f
  | Gt => f + 1
  | Eq => if Z.even f then f else f + 1
  end.

(** The binary64 number nearest to [q]: a significand of 53 bits, and a
    spacing that stays [2^-1074] below [2^-1022]. *)
Definition binary64 (q : Q) : Q :=
  if Qeq_bool q 0 then 0%Q
  else
    let ulp := pow2 (Z.max (binade (Qabs q)) (-1022) - 52) in
    (inject_Z (round_half_even (q / ulp)) * ulp)%Q.

(** [x + y] on floats. *)
Definition float_add (x y : Q) : Q := binary64 (x + y).

(** [mcap_score] (lines 178-179) on floats: the division rounds, and
    so does the multiplication. *)
Definition mcap_score_binary64 (premium mcap : Q) : Q :=
  if Qpositive mcap then binary64 (binary64 (premium / mcap) * 100000)%Q
  else 0%Q.

(** A whole number. *)
Definition whole (q : Q) : Prop := (q == inject_Z (Qfloor q))%Q.

(** A column over which no binary64 addition can round, in whatever
    order the numbers are added: whole numbers whose magnitudes add up
    to less than [2^53]. *)
Definition exactly_summable (s : list (option Q)) : Prop :=
  (forall q, In (Some q) s -> whole q)
  /\ (series_sum (map (option_map Qabs) s) < inject_Z (2 ^ 53))%Q.

(** [Series.sum()] and the ['sum'] of [groupby(...).agg] on a float
    column are procedures of the library, which adds in an order of its
    own.  They are taken through an interface: any procedure that
    returns the exact sum of a column over which no addition can
    round. *)
Class Summation : Type := {
  float_sum : list (option Q) -> Q;
  float_sum_exact :
    forall s, exactly_summable s -> (float_sum s == series_sum s)%Q
}.

(** Adding from [0.0], left to right, missing cells skipped: the
    instance used to run the model. *)
Definition left_to_right (s : list (option Q)) : Q :=
  fold_left float_add (present s) 0%Q.

(** [premium_where] and [premium_sums] (lines 165-176), with [.sum()]
    taken as [sum]. *)
Definition premium_where_with (sum : list (option Q) -> Q)
    (mask : Row -> bool) (df : DataFrame) : Q :=
  sum (map premium_usd (filter mask (rows df))).

Definition premium_sums_with (sum : list (option Q) -> Q)
    (ticker_df : DataFrame) : Q * Q * Q * Q * Q :=
  if has_column ticker_df "premium_usd" then
    let ticker_df_cleaned_premium := dropna ["premium_usd"] ticker_df in
    let total := sum (map premium_usd (rows ticker_df_cleaned_premium)) in
    let '(bullish, bearish) :=
      if has_column ticker_df_cleaned_premium "sentiment" then
        (premium_where_with sum
           (fun r => String.eqb (sentiment_series r) "BULLISH")
           ticker_df_cleaned_premium,
         premium_where_with sum
           (fun r => String.eqb (sentiment_series r) "BEARISH")
           ticker_df_cleaned_premium)
      else (0%Q, 0%Q) in
    let '(call, put) :=
      if has_column ticker_df_cleaned_premium "option_type" then
        (premium_where_with sum (option_type_upper_is "CALL")
           ticker_df_cleaned_premium,
         premium_where_with sum (option_type_upper_is "PUT")
           ticker_df_cleaned_premium)
      else (0%Q, 0%Q) in
    (total, call, put, bullish, bearish)
  else (0%Q, 0%Q, 0%Q, 0%Q, 0%Q).

(** [aggregate] (lines 225-229), with ['sum'] taken as [sum]. *)
Definition aggregate_with (sum : list (option Q) -> Q) (key : Z * Z)
    (group : list Row) : ExpirationSummary :=
  mkExpirationSummary
    (fst key) (snd key)
    (sum (map premium_usd group))
    (nunique (map underlying_ticker group))
    (sum (map call_premium_exp group))
    (sum (map put_premium_exp group))
    (sum (map bullish_premium_exp group))
    (sum (map bearish_premium_exp group))
    (count (map underlying_ticker group)).

(* ================================================================= *)
(** ** Market data lookup: [get_market_cap_st]

    The function keeps its own dictionary, [market_cap_cache], and asks
    the provider for the [.info] of a symbol.  Both are kept in a small
    state of their own; the provider's answer may depend on the symbols
    asked so far. *)

(** A Python dictionary with string keys: every key is bound once. *)
Definition dict (V : Type) : Type := list (string * V).

Fixpoint dict_get {V} (key : string) (d : dict V) : option V :=
  match d with
  | [] => None
  | (k, v) :: rest => if String.eqb key k then Some v else dict_get key rest
  end.

(** [d[key] = v] *)
Definition dict_set {V} (key : string) (v : V) (d : dict V) : dict V :=
  (key, v) :: filter (fun kv => negb (String.eqb key (fst kv))) d.

(** [ticker_obj.info]: [None] or a dictionary whose numeric entries are
    numbers or [None]; the access may raise. *)
Definition info_provider : Type :=
  list string -> string -> outcome (option (dict (option Q))).

Record CapState : Type := mkCapState {
  market_cap_cache : dict (option Q);
  info_asked : list string     (* the symbols asked of the provider, in order *)
}.

(** [market_cap_cache[ticker_symbol_upper] = value; return value], after
    the provider was asked. *)
Definition cache_and_return (ticker_symbol_upper : string) (value : option Q)
    (st : CapState) : option Q * CapState :=
  (value,
   mkCapState (dict_set ticker_symbol_upper value (market_cap_cache st))
              (info_asked st ++ [ticker_symbol_upper])).

Definition get_market_cap_st (yf_info : info_provider)
    (ticker_symbol : option string) (st : CapState) : option Q * CapState :=
  match ticker_symbol with
  | None => (None, st)                       (* [pd.isna(ticker_symbol)] *)
  | Some text =>
      if negb (Str.truthy text) then (None, st)   (* [not ticker_symbol] *)
      else
        let ticker_symbol_upper := Str.upper text in
        match dict_get ticker_symbol_upper (market_cap_cache st) with
        | Some cached => (cached, st)
        | None =>
            match yf_info (info_asked st) ticker_symbol_upper with
            | Raise e => cache_and_return ticker_symbol_upper None st
            | Ok None => cache_and_return ticker_symbol_upper None st
            | Ok (Some []) => cache_and_return ticker_symbol_upper None st
            | Ok (Some info) =>
                let market_cap :=
                  match dict_get "marketCap" info with
                  | Some value => value
                  | None => None
                  end in
                match market_cap with
                | Some m =>
                    if Qpositive m
                    then cache_and_return ticker_symbol_upper (Some m) st
                    else cache_and_return ticker_symbol_upper None st
                | None => cache_and_return ticker_symbol_upper None st
                end
            end
        end
  end.

(* ================================================================= *)
(** ** Data access: [get_db_date_range] *)

Fixpoint list_min (l : list Z) : option Z :=
  match l with
  | [] => None
  | x :: t => match list_min t with
              | Some m => Some (Z.min x m)
              | None => Some x
              end
  end.

Fixpoint list_max (l : list Z) : option Z :=
  match l with
  | [] => None
  | x :: t => match list_max t with
              | Some m => Some (Z.max x m)
              | None => Some x
              end
  end.

(** [SELECT MIN(data_date), MAX(data_date) FROM options_activity]: the
    aggregates skip NULL and are NULL over no value; asking for a column
    the table does not have is an error of the database.  The query is
    answered by the table as the connection sees it now; it is not
    entered in the log, which records range queries and provider
    requests. *)
Definition query_min_max : M (option Z * option Z) :=
  s <- get_state ;;
  table <- lift_outcome (options_activity (world s) (log s)) ;;
  if has_column table "data_date" then
    let dates := present (map data_date (rows table)) in
    ret (list_min dates, list_max dates)
  else raise (DatabaseError "column data_date does not exist").

Definition get_db_date_range : M (option Z * option Z) :=
  try_except
    (min_max <- query_min_max ;;
     let min_db_date := fst min_max in   (* [pd.notna(min_val)] keeps a date *)
     let max_db_date := snd min_max in
     ret (min_db_date, max_db_date))
    (fun e => ret (None, None)).

(* ================================================================= *)
(** ** The page: date pickers, ticker search, chart *)

(** Lines 264-269: the bounds of both date pickers. *)
Definition calendar_max_boundary (today : Z) : Z := today.

Definition calendar_min_boundary (min_overall_db_date : option Z) (today : Z)
  : Z :=
  let calendar_min_boundary :=
    match min_overall_db_date with
    | Some d => d
    | None => today - 365
    end in
  if calendar_min_boundary >? calendar_max_boundary today
  then calendar_max_boundary today - 1
  else calendar_min_boundary.

(** Lines 272-282: the date both pickers start from. *)
Definition initial_default_date (max_overall_db_date : option Z)
    (calendar_min_boundary calendar_max_boundary : Z) : Z :=
  match max_overall_db_date with
  | Some d =>
      let initial_default_date := d in
      let initial_default_date :=
        if initial_default_date <? calendar_min_boundary
        then calendar_min_boundary else initial_default_date in
      if initial_default_date >? calendar_max_boundary
      then calendar_max_boundary else initial_default_date
  | None => calendar_max_boundary
  end.

(** Lines 305-309: the value of the end picker once a start is chosen. *)
Definition final_default_end_val (default_end_val selected_start_date
    calendar_max_boundary : Z) : Z :=
  let final_default_end_val := default_end_val in
  let final_default_end_val :=
    if final_default_end_val <? selected_start_date
    then selected_start_date else final_default_end_val in
  if final_default_end_val >? calendar_max_boundary
  then calendar_max_boundary else final_default_end_val.

(** Line 325: the search box, trimmed and upper-cased. *)
Definition searched_ticker (text_input : string) : string :=
  Str.upper (Str.strip text_input).

(** [view_data['underlying_ticker'].str.upper() == searched_ticker] *)
Definition ticker_upper_is (searched_ticker : string) (r : Row) : bool :=
  match underlying_ticker r with
  | Some t => String.eqb (Str.upper t) searched_ticker
  | None => false
  end.

(** Lines 351-360: the view is a copy of the fetched frame, narrowed to
    the searched symbol when there is one and the frame has a ticker
    column.  Narrowing makes a new frame; messages to the page are not
    modelled. *)
Definition select_view (options_data : ref) (searched_ticker : string) : M ref :=
  view_data <- copy options_data ;;
  if Str.truthy searched_ticker then
    view <- deref view_data ;;
    if has_column view "underlying_ticker"
    then alloc (df_filter (ticker_upper_is searched_ticker) view)
    else ret view_data
  else ret view_data.

(** [sort_values(by="Bullish MCap Score", ascending=False)] *)
Definition score_descending (a b : TickerSummary) : bool :=
  Qle_bool (Bullish_MCap_Score b) (Bullish_MCap_Score a).

(** Lines 509-511: the rows of the bar chart.  A score is a number, so
    [pd.to_numeric] changes nothing and [dropna] drops nothing. *)
Definition top_tickers_chart `{Sorter} (top_n_Score : nat)
    (ticker_analysis_df : list TickerSummary) : list TickerSummary :=
  firstn top_n_Score (sort score_descending ticker_analysis_df).

(* ================================================================= *)
(** ** Derived descriptions used in the statements *)

(** A computation is [stable] when it leaves every frame of the heap,
    and the world, as they were. *)
Definition stable {A} (m : M A) : Prop :=
  forall s, heap (snd (m s)) = heap s /\ world (snd (m s)) = world s.

(** The content of the working copy of
    [create_expiration_summary_table] after lines 216-217. *)
Definition parsed_and_cleaned (w : World) (df : DataFrame) : DataFrame :=
  dropna ["expiration_date"; "premium_usd"] (to_datetime_expiration_date w df).

(** The content of the working copy after lines 220-224. *)
Definition with_derived_columns (today_date : Z) (frame : DataFrame)
  : DataFrame :=
  df_assign "bearish_premium_exp" write_bearish_premium_exp
    (df_assign "bullish_premium_exp" write_bullish_premium_exp
       (df_assign "put_premium_exp" write_put_premium_exp
          (df_assign "call_premium_exp" write_call_premium_exp
             (df_assign "time_to_expiry_days"
                (write_time_to_expiry_days today_date) frame)))).

(** The guard of line 213. *)
Definition expiration_guard (df : DataFrame) : bool :=
  (df_empty df || negb (forallb (has_column df) expiration_columns))%bool.

(** The expiration timestamp read in a record by the reader of its
    column, if one is read. *)
Definition expiration_of (read : string -> option Z) (rec : Row) : option Z :=
  match to_datetime read (expiration_date rec) with
  | Timestamp t => Some t
  | _ => None
  end.

(** A record is usable when its expiration timestamp can be read and
    its premium is present. *)
Definition usable (read : string -> option Z) (rec : Row) : bool :=
  match expiration_of read rec, premium_usd rec with
  | Some _, Some _ => true
  | _, _ => false
  end.

(** The usable records of a frame, as [create_expiration_summary_table]
    finds them when it is given the frame. *)
Definition usable_in (w : World) (df : DataFrame) : Row -> bool :=
  usable (expiration_reader w df).

(** The usable records of a frame that expire at the timestamp [t]. *)
Definition expiring (w : World) (df : DataFrame) (t : Z) : list Row :=
  filter (fun rec => usable_in w df rec
                     && option_eqb Z.eqb
                          (expiration_of (expiration_reader w df) rec) (Some t))
    (rows df).

(** Exact comparison of a text cell with a label. *)
Definition cell_is (label : string) (cell : option string) : bool :=
  option_eqb String.eqb cell (Some label).

(** A row of the working copy once the five columns are written. *)
Definition derived_columns (today_date : Z) (r : Row) : Row :=
  write_bearish_premium_exp
    (write_bullish_premium_exp
       (write_put_premium_exp
          (write_call_premium_exp
             (write_time_to_expiry_days today_date r)))).

(** What a row [e] of the expiration summary says about the frame it
    was computed from: it stands for the usable records expiring at
    its timestamp, counts them and sums their premium, and splits the
    premium by exact comparison of option type and sentiment. *)
Definition describes_expiration (w : World) (today_date : Z) (df : DataFrame)
    (e : ExpirationSummary) : Prop :=
  let g := expiring w df (Expiration_Date e) in
  g <> []
  /\ Days_to_Expiry e = days_from today_date (Expiration_Date e)
  /\ Total_Premium e = series_sum (map premium_usd g)
  /\ Unique_Tickers e = nunique (map underlying_ticker g)
  /\ Options_Count e = count (map underlying_ticker g)
  /\ (Call_Premium e
      == series_sum (map premium_usd
                       (filter (fun rec => cell_is "CALL" (option_type rec)) g)))%Q
  /\ (Put_Premium e
      == series_sum (map premium_usd
                       (filter (fun rec => cell_is "PUT" (option_type rec)) g)))%Q
  /\ (Bullish_Premium e
      == series_sum (map premium_usd
                       (filter (fun rec => cell_is "Bullish" (sentiment rec)) g)))%Q
  /\ (Bearish_Premium e
      == series_sum (map premium_usd
                       (filter (fun rec => cell_is "Bearish" (sentiment rec)) g)))%Q.

(** The records of a frame that carry exactly the symbol [ticker]
    (line 148). *)
Definition ticker_records (df : DataFrame) (ticker : string) : DataFrame :=
  df_filter (fun r => option_eqb String.eqb (underlying_ticker r) (Some ticker))
    df.

(** The ingested capitalisation of the first record in the order
    "latest data date first", absent when the frame has no such column
    or no record. *)
Definition latest_market_cap `{Sorter} (ticker_df : DataFrame) : option Q :=
  if has_column ticker_df "market_cap_ingested" then
    match sort data_date_descending (rows ticker_df) with
    | latest :: _ => market_cap_ingested latest
    | [] => None
    end
  else None.

(** What a row of the ticker analysis says about the frame it was
    computed from: capitalisation, premium sums and scores are those of
    the records that carry exactly its symbol. *)
Definition describes_ticker `{Sorter} (df : DataFrame) (row : TickerSummary)
  : Prop :=
  let ticker_df := ticker_records df (Ticker row) in
  Market_Cap row = latest_market_cap ticker_df
  /\ (Total_Activity_Prem row, Total_Call_Vol_Prem row, Total_Put_Vol_Prem row,
      Bullish_Prem row, Bearish_Prem row) = premium_sums ticker_df
  /\ Bullish_MCap_Score row
     = mcap_score (Bullish_Prem row) (mcap_val_for_calc (Market_Cap row))
  /\ Bearish_MCap_Score row
     = mcap_score (Bearish_Prem row) (mcap_val_for_calc (Market_Cap row)).

(** The symbols that get a row: the distinct symbols of the column
    that are present and pass the test of line 139. *)
Definition analysed_tickers (tickers : list (option string)) : list string :=
  filter (fun t => negb (ticker_skipped t)) (present tickers).

(** The ingested capitalisation of a record as the frame gives it. *)
Definition ingested_capitalization (df : DataFrame) (rec : Row) : option Q :=
  if has_column df "market_cap_ingested" then market_cap_ingested rec else None.

(** [rec] is not dated later than [latest]; a missing date is the
    earliest. *)
Definition not_later (rec latest : Row) : Prop :=
  match data_date rec, data_date latest with
  | Some a, Some b => a <= b
  | None, _ => True
  | Some _, None => False
  end.

(** The record carries the symbol [t] up to letter case. *)
Definition same_symbol_up_to_case (t : string) (rec : Row) : bool :=
  option_eqb String.eqb (option_map Str.upper (underlying_ticker rec))
    (Some (Str.upper t)).

(** The reading of "tickers are enumerated case-normalized": records
    whose symbols differ only in letter case are attributed to one row,
    whose total includes all of them. *)
Definition case_normalized_attribution (df : DataFrame)
    (analysis : list TickerSummary) : Prop :=
  forall rec1 rec2 t1 t2,
    In rec1 (rows df) -> In rec2 (rows df) ->
    underlying_ticker rec1 = Some t1 -> underlying_ticker rec2 = Some t2 ->
    Str.upper t1 = Str.upper t2 ->
    exists row,
      In row analysis
      /\ Str.upper (Ticker row) = Str.upper t1
      /\ (Total_Activity_Prem row
          == series_sum (map premium_usd
                           (filter (same_symbol_up_to_case t1) (rows df))))%Q.

(** Neither of two tests holds. *)
Definition neither (p q : Row -> bool) (r : Row) : bool :=
  negb (p r) && negb (q r).

(** The premium of the records of [ticker] that
    [analyze_ticker_dashboard] counts neither as call nor as put. *)
Definition unrecognized_ticker_premium (df : DataFrame) (ticker : string) : Q :=
  premium_where
    (neither (option_type_upper_is "CALL") (option_type_upper_is "PUT"))
    (dropna ["premium_usd"] (ticker_records df ticker)).

(** The premium of the usable records expiring at [t] that
    [create_expiration_summary_table] counts neither as call nor as
    put. *)
Definition unrecognized_expiring_premium (w : World) (df : DataFrame) (t : Z)
  : Q :=
  series_sum
    (map premium_usd
       (filter (neither (fun rec => cell_is "CALL" (option_type rec))
                        (fun rec => cell_is "PUT" (option_type rec)))
          (expiring w df t))).

(** The record is a call or a put for [analyze_ticker_dashboard]: its
    option type is 'CALL' or 'PUT' once upper-cased. *)
Definition recognized_by_upper (rec : Row) : Prop :=
  option_type_upper_is "CALL" rec = true \/ option_type_upper_is "PUT" rec = true.

(** The record is a call or a put for [create_expiration_summary_table]:
    its option type is 'CALL' or 'PUT' as written. *)
Definition recognized_exactly (rec : Row) : Prop :=
  option_type rec = Some "CALL" \/ option_type rec = Some "PUT".

(** The value of an outcome, if it is one. *)
Definition ok_value {A} (o : outcome A) : option A :=
  match o with
  | Ok a => Some a
  | Raise _ => None
  end.

(** Total, call and put premium among the five sums of a ticker. *)
Definition total_of (sums : Q * Q * Q * Q * Q) : Q :=
  let '(total, _, _, _, _) := sums in total.

Definition call_of (sums : Q * Q * Q * Q * Q) : Q :=
  let '(_, call, _, _, _) := sums in call.

Definition put_of (sums : Q * Q * Q * Q * Q) : Q :=
  let '(_, _, put, _, _) := sums in put.

(** The rows of the working copy that make the group of the timestamp
    [t]: the usable records expiring at [t], with the expiration read
    and the five columns written. *)
Definition working_rows (w : World) (today_date : Z) (df : DataFrame) (t : Z)
  : list Row :=
  map (fun r => derived_columns today_date
                  (coerce_expiration_date (expiration_reader w df) r))
    (expiring w df t).

(** Comparison of the option type with a label after trimming and
    upper-casing. *)
Definition option_type_trimmed_upper_is (label : string) (r : Row) : bool :=
  match option_type r with
  | Some s => String.eqb (Str.upper (Str.strip s)) label
  | None => false
  end.

(** The reading of "[analyze_ticker_dashboard] matches sentiment and
    option type case-insensitively after trimming": the four splits of
    a row sum the records of its ticker whose trimmed, upper-cased cell
    is the label. *)
Definition splits_trimmed_caseless (df : DataFrame)
    (analysis : list TickerSummary) : Prop :=
  forall row, In row analysis ->
    let records := dropna ["premium_usd"] (ticker_records df (Ticker row)) in
    (Bullish_Prem row
     == premium_where (fun r => String.eqb (sentiment_series r) "BULLISH") records)%Q
    /\ (Bearish_Prem row
        == premium_where (fun r => String.eqb (sentiment_series r) "BEARISH") records)%Q
    /\ (Total_Call_Vol_Prem row
        == premium_where (option_type_trimmed_upper_is "CALL") records)%Q
    /\ (Total_Put_Vol_Prem row
        == premium_where (option_type_trimmed_upper_is "PUT") records)%Q.

(** What one lookup attempt of [get_current_price] meets, given what
    the provider answers after the requests made so far: a price, an
    empty result, or an exception. *)
Inductive attempt_result : Type :=
| Priced (price : option pyfloat)
| Empty
| Failed (e : exn).

Definition attempt_meets (w : World) (asked : list event) (ticker : string)
  : attempt_result :=
  match fast_info_last_price w asked ticker with
  | Raise e => Failed e
  | Ok price =>
      if truthy price then Priced price
      else
        match history_period_2d w (asked ++ [FastInfo ticker]) ticker with
        | Raise e => Failed e
        | Ok [] => Empty
        | Ok (close :: tod) => Priced (Some (last (close :: tod) NaN))
        end
  end.

(** The requests one attempt makes: the quote, and the two-day history
    when the quote has no usable price. *)
Definition attempt_events (w : World) (asked : list event) (ticker : string)
  : list event :=
  match fast_info_last_price w asked ticker with
  | Raise _ => [FastInfo ticker]
  | Ok price =>
      if truthy price then [FastInfo ticker]
      else [FastInfo ticker; HistoryPeriod ticker]
  end.

(** The seconds slept before the retry. *)
Definition retry_delay (first : attempt_result) : Z :=
  match first with
  | Priced _ => 0
  | Empty => 5
  | Failed _ => 15
  end.

(** The value of an attempt, [None] when it has none. *)
Definition price_of (r : attempt_result) : option pyfloat :=
  match r with
  | Priced price => price
  | _ => None
  end.

(** The frame the range query returns for a table. *)
Definition queried `{Sorter} (start_date end_date : Z) (table : DataFrame)
  : DataFrame :=
  mkDataFrame (columns table)
    (sort order_by_date_ticker
       (filter (where_in_range start_date end_date) (rows table))).

(** A stored record as [fetch_options_activity_for_range] hands it
    on, [read] being the reader of the expiration column of the queried
    frame: expiration timestamp read, missing premium made zero. *)
Definition normalized (read : string -> option Z) (rec : Row) : Row :=
  coerce_premium_usd (coerce_data_date (coerce_expiration_date read rec)).

(** A row of the ticker analysis without what comes from the market
    data provider. *)
Definition without_prices (row : TickerSummary) : TickerSummary :=
  mkTickerSummary (Ticker row) (Market_Cap row) None NaN NaN
    (Total_Activity_Prem row) (Total_Call_Vol_Prem row)
    (Total_Put_Vol_Prem row) (Bullish_Prem row) (Bearish_Prem row)
    (Bullish_MCap_Score row) (Bearish_MCap_Score row).

(* ================================================================= *)
(** ** Sample inputs *)

Definition table_columns : list string :=
  ["data_date"; "underlying_ticker"; "expiration_date"; "option_type";
   "sentiment"; "premium_usd"; "market_cap_ingested"].

(** A stored trade record with every cell present but, possibly, the
    capitalisation; it expires at midnight of day [expiry]. *)
Definition midnight (day : Z) : Z := day * nanoseconds_per_day.

Definition trade (date : Z) (ticker : string) (expiry : Z)
    (type sentiment_ : string) (premium : Q) (cap : option Q) : Row :=
  mkRow (Some date) (Some ticker) (Timestamp (midnight expiry)) (Some type)
        (Some sentiment_) (Some premium) cap None None None None None.

(** A provider that has no price for anything, an unreachable
    database, a date reader that reads nothing. *)
Definition silent_world : World :=
  mkWorld (fun _ _ => Ok None) (fun _ _ => Ok []) (fun _ _ _ _ => Ok [])
          (fun _ => Raise (DatabaseError "unreachable")) (fun _ _ => None).

(** The text reader of every column in the sample worlds. *)
Definition reads_nothing : string -> option Z := fun _ => None.

(** A state whose heap holds [df] at reference 0. *)
Definition state_with (df : DataFrame) : State :=
  mkState [df] 0 [] silent_world.

(** The scenario of the specification: no capitalisation, bullish
    premium 500. *)
Definition frame_without_cap : DataFrame :=
  mkDataFrame table_columns [trade 1 "AAPL" 30 "CALL" "Bullish" 500 None].

(** Two records of one ticker on two data dates, the later with
    capitalisation 1000. *)
Definition frame_two_dates : DataFrame :=
  mkDataFrame table_columns
    [trade 1 "NVDA" 30 "CALL" "Bullish" 100 (Some 900%Q);
     trade 2 "NVDA" 30 "PUT" "Bearish" 50 (Some 1000%Q)].

(** Two records whose symbols differ only in letter case. *)
Definition frame_case_variants : DataFrame :=
  mkDataFrame table_columns
    [trade 1 "NVDA" 30 "CALL" "Bullish" 1000 None;
     trade 1 "nvda" 30 "CALL" "Bullish" 500 None].

(** Four records: two usable ones expiring on days 40 and 20, one
    whose expiration date cannot be read, one without premium. *)
Definition frame_with_gaps : DataFrame :=
  mkDataFrame table_columns
    [trade 1 "NVDA" 40 "CALL" "Bullish" 10 None;
     mkRow (Some 1) (Some "NVDA") (RawDate "soon") (Some "CALL")
           (Some "Bullish") (Some 7%Q) None None None None None None;
     mkRow (Some 1) (Some "AAPL") (Timestamp (midnight 20)) (Some "PUT")
           (Some "Bearish") None None None None None None None;
     trade 1 "AAPL" 20 "PUT" "Bearish" 5 None].

(** A heap with [frame_with_gaps] at reference 0 and, at reference 1,
    the same frame rid of its unusable records. *)
Definition state_with_gaps : State :=
  mkState [frame_with_gaps;
           df_filter (usable_in silent_world frame_with_gaps) frame_with_gaps]
          0 [] silent_world.

(** Three records that expire on day 30: two at midnight, one at
    16:00. *)
Definition frame_same_day : DataFrame :=
  mkDataFrame table_columns
    [trade 1 "NVDA" 30 "CALL" "Bullish" 10 None;
     mkRow (Some 1) (Some "NVDA")
           (Timestamp (midnight 30 + 16 * 3600 * 1000000000))
           (Some "PUT") (Some "Bearish") (Some 7%Q) None
           None None None None None;
     trade 1 "AAPL" 30 "CALL" "Bullish" 5 None].

(** A reader in the manner of pandas 2.  The format of a column is
    that of its first cell that is not missing, when this cell is text
    in a format the reader knows, and every text of the column is read
    in that format; without such a format every text is read on its
    own.  The reader knows one text in each of two formats: 3 December
    2026, day 20790, written year first, and 4 December 2026, written
    month first. *)
Definition first_cell (column : list date_cell) : date_cell :=
  match filter (fun c => match c with NaT => false | _ => true end) column with
  | c :: _ => c
  | [] => NaT
  end.

Definition year_first (text : string) : option Z :=
  if String.eqb text "2026-12-03" then Some (midnight 20790) else None.

Definition month_first (text : string) : option Z :=
  if String.eqb text "12/04/2026" then Some (midnight 20791) else None.

Definition any_format (text : string) : option Z :=
  match year_first text with
  | Some t => Some t
  | None => month_first text
  end.

Definition format_reader (column : list date_cell) (text : string) : option Z :=
  match first_cell column with
  | RawDate first =>
      if negb (is_none (year_first first)) then year_first text
      else if negb (is_none (month_first first)) then month_first text
      else any_format text
  | _ => any_format text
  end.

Definition format_world : World :=
  mkWorld (fun _ _ => Ok None) (fun _ _ => Ok []) (fun _ _ _ _ => Ok [])
          (fun _ => Raise (DatabaseError "unreachable")) format_reader.

(** Three records with the expiration written as text: "soon", then
    one date in each format. *)
Definition dated (expiry : string) (premium : Q) : Row :=
  mkRow (Some 1) (Some "NVDA") (RawDate expiry) (Some "CALL") (Some "Bullish")
        (Some premium) None None None None None None.

Definition frame_mixed_formats : DataFrame :=
  mkDataFrame table_columns
    [dated "soon" 7; dated "2026-12-03" 10; dated "12/04/2026" 5].

(** A heap with [frame_mixed_formats] at reference 0 and, at reference
    1, the same frame rid of its unusable record. *)
Definition state_mixed_formats : State :=
  mkState [frame_mixed_formats;
           df_filter (usable_in format_world frame_mixed_formats)
             frame_mixed_formats]
          0 [] format_world.

(** A record of premium 1000 without symbol. *)
Definition frame_missing_symbol : DataFrame :=
  mkDataFrame table_columns
    [mkRow (Some 1) None (Timestamp (midnight 30)) (Some "CALL")
           (Some "Bullish") (Some 1000%Q) None None None None None None].

(** One record whose sentiment is written in capitals. *)
Definition frame_capital_sentiment : DataFrame :=
  mkDataFrame table_columns [trade 1 "NVDA" 30 "CALL" "BULLISH" 1000 None].

(** One call whose option type carries a trailing blank. *)
Definition frame_padded_type : DataFrame :=
  mkDataFrame table_columns [trade 1 "NVDA" 30 "CALL " "Bullish" 1000 None].

(** The rows the sample frames give. *)
Definition row_without_cap : TickerSummary :=
  mkTickerSummary "AAPL" None None NaN NaN 500 500 0 500 0 0 0.

Definition row_two_dates : TickerSummary :=
  mkTickerSummary "NVDA" (Some 1000%Q) None NaN NaN 150 100 50 100 50
                  (10000000 # 1000) (5000000 # 1000).

Definition expiry_two_dates : ExpirationSummary :=
  mkExpirationSummary (midnight 30) 30 150 1 100 50 100 50 2.

Definition row_upper_case : TickerSummary :=
  mkTickerSummary "NVDA" None None NaN NaN 1000 1000 0 1000 0 0 0.

Definition row_lower_case : TickerSummary :=
  mkTickerSummary "nvda" None None NaN NaN 500 500 0 500 0 0 0.

Definition expiry_day_20 : ExpirationSummary :=
  mkExpirationSummary (midnight 20) 20 5 1 0 5 0 5 1.

Definition expiry_day_40 : ExpirationSummary :=
  mkExpirationSummary (midnight 40) 40 10 1 10 0 10 0 1.

Definition expiry_midnight : ExpirationSummary :=
  mkExpirationSummary (midnight 30) 30 15 2 15 0 15 0 2.

Definition expiry_afternoon : ExpirationSummary :=
  mkExpirationSummary (midnight 30 + 16 * 3600 * 1000000000) 30 7 1 0 7 0 7 1.

Definition expiry_capital_sentiment : ExpirationSummary :=
  mkExpirationSummary (midnight 30) 30 1000 1 1000 0 0 0 1.

Definition row_capital_sentiment : TickerSummary :=
  mkTickerSummary "NVDA" None None NaN NaN 1000 1000 0 1000 0 0 0.

Definition row_padded_type : TickerSummary :=
  mkTickerSummary "NVDA" None None NaN NaN 1000 0 0 1000 0 0 0.

(** Three records of one ticker with the premiums written 0.1, 0.2 and
    0.3, a call and two puts, and the five sums the plain loop gives. *)
Definition frame_tenths : DataFrame :=
  mkDataFrame table_columns
    [trade 1 "NVDA" 30 "CALL" "Bullish" (binary64 (1 # 10)) None;
     trade 1 "NVDA" 30 "PUT" "Bearish" (binary64 (2 # 10)) None;
     trade 1 "NVDA" 30 "PUT" "Bearish" (binary64 (3 # 10)) None].

Definition sums_of_tenths : Q * Q * Q * Q * Q :=
  premium_sums_with left_to_right (ticker_records frame_tenths "NVDA").

(** One call whose option type is written in small letters. *)
Definition frame_lower_call : DataFrame :=
  mkDataFrame table_columns [trade 1 "NVDA" 30 "call" "Bullish" 100 None].

Definition expiry_lower_call : ExpirationSummary :=
  mkExpirationSummary (midnight 30) 30 100 1 0 0 100 0 1.

Definition row_lower_call : TickerSummary :=
  mkTickerSummary "NVDA" None None NaN NaN 100 100 0 100 0 0 0.

(** The binary64 sums of [frame_two_dates], per ticker and per
    expiration, by the plain loop. *)
Definition sums_of_two_dates : Q * Q * Q * Q * Q :=
  premium_sums_with left_to_right (ticker_records frame_two_dates "NVDA").

Definition binary64_expiry_two_dates : ExpirationSummary :=
  aggregate_with left_to_right (midnight 30, 30)
    (working_rows silent_world 0 frame_two_dates (midnight 30)).

(** A provider whose quote is empty and whose history raises, always. *)
Definition failing_world : World :=
  mkWorld (fun _ _ => Ok None) (fun _ _ => Raise (ProviderError "timeout"))
          (fun _ _ _ _ => Ok [])
          (fun _ => Raise (DatabaseError "unreachable")) (fun _ _ => None).

(** A table of three records dated 5, 7 and 9, and a world whose
    database holds it. *)
Definition stored_table : DataFrame :=
  mkDataFrame table_columns
    [trade 5 "NVDA" 30 "CALL" "Bullish" 100 None;
     trade 7 "AAPL" 30 "PUT" "Bearish" 50 None;
     trade 9 "MSFT" 30 "CALL" "Bullish" 25 None].

Definition world_with_table : World :=
  mkWorld (fun _ _ => Ok None) (fun _ _ => Ok []) (fun _ _ _ _ => Ok [])
          (fun _ => Ok stored_table) (fun _ _ => None).

(** Every capitalisation the cache holds is positive. *)
Definition cache_sound (cache : dict (option Q)) : Prop :=
  forall key m, dict_get key cache = Some (Some m) -> (0 < m)%Q.

(** A provider that raises on its first request and then reports a
    capitalisation of 500. *)
Definition flaky_info : info_provider :=
  fun asked _ =>
    match asked with
    | [] => Raise (ProviderError "timeout")
    | _ => Ok (Some [("marketCap", Some 500%Q)])
    end.

(** A provider that reports a capitalisation of 500, with other keys. *)
Definition steady_info : info_provider :=
  fun _ _ => Ok (Some [("quoteType", None); ("marketCap", Some 500%Q)]).

(* ================================================================= *)
(** * Properties *)

(* ================================================================= *)
(** ** Insertion sort is a sorter *)

Lemma insert_sorted_permutation {A} (leb : A -> A -> bool) x l :
  Permutation (x :: l) (insert_sorted leb x l).
Proof.
  induction l as [|y t IH]; simpl.
  - apply Permutation_refl.
  - destruct (leb x y).
    + apply Permutation_refl.
    + eapply perm_trans; [apply perm_swap|].
      apply perm_skip, IH.
Qed.

Lemma insertion_sort_permutation {A} (leb : A -> A -> bool) l :
  Permutation l (insertion_sort leb l).
Proof.
  induction l as [|x t IH]; simpl.
  - apply perm_nil.
  - eapply perm_trans; [apply perm_skip, IH|].
    apply insert_sorted_permutation.
Qed.

Lemma insert_sorted_strongly {A} (leb : A -> A -> bool) :
  total_leb leb -> transitive_leb leb ->
  forall x l,
    StronglySorted (fun a b => leb a b = true) l ->
    StronglySorted (fun a b => leb a b = true) (insert_sorted leb x l).
Proof.
  intros Htot Htr x l Hs.
  induction Hs as [|y t Hs IH Hall]; simpl.
  - constructor; constructor.
  - destruct (leb x y) eqn:Hxy.
    + constructor.
      * constructor; assumption.
      * constructor; [assumption|].
        eapply Forall_impl; [|exact Hall].
        intros z Hyz. eapply Htr; eassumption.
    + constructor; [exact IH|].
      assert (Hyx : leb y x = true).
      { destruct (Htot x y) as [H|H]; [congruence|exact H]. }
      eapply Permutation_Forall; [apply insert_sorted_permutation|].
      constructor; assumption.
Qed.

Lemma insertion_sort_strongly {A} (leb : A -> A -> bool) :
  total_leb leb -> transitive_leb leb ->
  forall l, StronglySorted (fun a b => leb a b = true) (insertion_sort leb l).
Proof.
  intros Htot Htr l.
  induction l as [|x t IH]; simpl.
  - constructor.
  - apply insert_sorted_strongly; assumption.
Qed.

#[export] Instance insertion_sorter : Sorter := {
  sort := @insertion_sort;
  sort_permutation := @insertion_sort_permutation;
  sort_sorted := @insertion_sort_strongly
}.

(** The two aggregations run on a sample frame, with insertion sort. *)
Definition run_analysis (df : DataFrame) : outcome (list TickerSummary) * State :=
  analyze_ticker_dashboard (H := insertion_sorter) 0%nat 1 (state_with df).

Definition run_expiration (df : DataFrame)
  : outcome (list ExpirationSummary) * State :=
  create_expiration_summary_table (H := insertion_sorter) 0%nat (state_with df).

(* ================================================================= *)
(** ** Reasoning about computations *)

Lemma bind_ok_inv {A B} (m : M A) (k : A -> M B) s b s' :
  bind m k s = (Ok b, s') ->
  exists a s1, m s = (Ok a, s1) /\ k a s1 = (Ok b, s').
Proof.
  unfold bind. destruct (m s) as [[a|e] s1]; intros H.
  - exists a, s1. split; [reflexivity|exact H].
  - discriminate.
Qed.

Lemma bind_run {A B} (m : M A) (k : A -> M B) s a s1 :
  m s = (Ok a, s1) -> bind m k s = k a s1.
Proof. unfold bind. intros ->. reflexivity. Qed.

Lemma bind_raise {A B} (m : M A) (k : A -> M B) s e s1 :
  m s = (Raise e, s1) -> bind m k s = (Raise e, s1).
Proof. unfold bind. intros ->. reflexivity. Qed.

Lemma run_fst {A} (m : M A) s a :
  fst (m s) = Ok a -> m s = (Ok a, snd (m s)).
Proof. destruct (m s) as [o s1]. simpl. intros ->. reflexivity. Qed.

Lemma stable_ret {A} (a : A) : stable (ret a).
Proof. intros s. split; reflexivity. Qed.

Lemma stable_raise {A} (e : exn) : stable (@raise A e).
Proof. intros s. split; reflexivity. Qed.

Lemma stable_bind {A B} (m : M A) (k : A -> M B) :
  stable m -> (forall a, stable (k a)) -> stable (bind m k).
Proof.
  intros Hm Hk s. unfold bind.
  destruct (Hm s) as [H1 H2].
  destruct (m s) as [[a|e] s1]; simpl in *.
  - destruct (Hk a s1) as [H3 H4]. split; congruence.
  - split; assumption.
Qed.

Lemma stable_try_except {A} (body : M A) (handler : exn -> M A) :
  stable body -> (forall e, stable (handler e)) ->
  stable (try_except body handler).
Proof.
  intros Hm Hk s. unfold try_except.
  destruct (Hm s) as [H1 H2].
  destruct (body s) as [[a|e] s1]; simpl in *.
  - split; assumption.
  - destruct (Hk e s1) as [H3 H4]. split; congruence.
Qed.

Lemma stable_get_state : stable get_state.
Proof. intros s. split; reflexivity. Qed.

Lemma stable_lift_outcome {A} (o : outcome A) : stable (lift_outcome o).
Proof. destruct o; [apply stable_ret|apply stable_raise]. Qed.

Lemma stable_emit e : stable (emit e).
Proof. intros s. split; reflexivity. Qed.

Lemma stable_sleep n : stable (sleep n).
Proof. intros s. split; reflexivity. Qed.

Lemma stable_today : stable today.
Proof. intros s. split; reflexivity. Qed.

Lemma stable_deref r : stable (deref r).
Proof.
  intros s. unfold deref.
  destruct (nth_error (heap s) r); split; reflexivity.
Qed.

Lemma stable_require_column df col : stable (require_column df col).
Proof.
  unfold require_column.
  destruct (has_column df col); [apply stable_ret|apply stable_raise].
Qed.

Create HintDb stable.
#[export] Hint Resolve stable_ret stable_raise stable_get_state
  stable_lift_outcome stable_emit stable_sleep stable_today stable_deref
  stable_require_column : stable.

Ltac stable_step :=
  first
    [ apply stable_bind; [|intro]
    | apply stable_try_except; [|intro]
    | solve [auto with stable]
    | match goal with
      | |- stable (if ?b then _ else _) => destruct b
      | |- stable (match ?x with _ => _ end) => destruct x
      end ].

Ltac prove_stable := repeat stable_step.

Lemma stable_fast_info_get t : stable (fast_info_get t).
Proof. unfold fast_info_get. prove_stable. Qed.

Lemma stable_history_2d t : stable (history_2d t).
Proof. unfold history_2d. prove_stable. Qed.

Lemma stable_history_range t a b : stable (history_range t a b).
Proof. unfold history_range. prove_stable. Qed.

#[export] Hint Resolve stable_fast_info_get stable_history_2d
  stable_history_range : stable.

Lemma stable_price_attempt t n : stable (price_attempt t n).
Proof. unfold price_attempt. prove_stable. Qed.

#[export] Hint Resolve stable_price_attempt : stable.

Lemma stable_price_attempts t l : stable (price_attempts t l).
Proof. induction l as [|n l IH]; simpl; prove_stable. Qed.

Lemma stable_get_current_price t : stable (get_current_price t).
Proof. apply stable_price_attempts. Qed.

Lemma stable_period_start_prices t d p : stable (period_start_prices t d p).
Proof. unfold period_start_prices. prove_stable. Qed.

#[export] Hint Resolve stable_get_current_price stable_period_start_prices
  : stable.

Lemma stable_market_cap_to_use `{Sorter} df : stable (market_cap_to_use df).
Proof. unfold market_cap_to_use. prove_stable. Qed.

#[export] Hint Resolve stable_market_cap_to_use : stable.

Lemma stable_ticker_row `{Sorter} r d t : stable (ticker_row r d t).
Proof.
  unfold ticker_row. prove_stable.
Qed.

#[export] Hint Resolve stable_ticker_row : stable.

Lemma stable_for_tickers `{Sorter} r d l :
  forall acc, stable (for_tickers r d l acc).
Proof.
  induction l as [|t l IH]; intros acc; simpl.
  - prove_stable.
  - destruct t as [t|]; [|apply IH].
    destruct (ticker_skipped t); [apply IH|].
    apply stable_bind; [auto with stable|]. intros row. apply IH.
Qed.

Lemma stable_sorted_tickers `{Sorter} l : stable (sorted_tickers l).
Proof. unfold sorted_tickers. prove_stable. Qed.

Lemma stable_analyze_ticker_dashboard `{Sorter} r d :
  stable (analyze_ticker_dashboard r d).
Proof.
  unfold analyze_ticker_dashboard.
  apply stable_bind; [auto with stable|]. intros df.
  destruct (df_empty df); [auto with stable|].
  apply stable_bind; [auto with stable|]. intros _.
  apply stable_bind; [apply stable_sorted_tickers|]. intros l.
  apply stable_for_tickers.
Qed.

(* ================================================================= *)
(** ** The heap under [create_expiration_summary_table] *)

Lemma deref_run s r df :
  nth_error (heap s) r = Some df -> deref r s = (Ok df, s).
Proof. unfold deref. intros ->. reflexivity. Qed.

Lemma deref_invalid s r :
  nth_error (heap s) r = None -> deref r s = (Raise InvalidReference, s).
Proof. unfold deref. intros ->. reflexivity. Qed.

Lemma nth_error_last {A} (h : list A) x :
  nth_error (h ++ [x]) (List.length h) = Some x.
Proof. induction h as [|y h IH]; simpl; [reflexivity|exact IH]. Qed.

Lemma nth_error_extend {A} (h : list A) x r :
  (r < List.length h)%nat -> nth_error (h ++ [x]) r = nth_error h r.
Proof. intros Hr. apply nth_error_app1. exact Hr. Qed.

Lemma replace_nth_last {A} (h : list A) x y :
  replace_nth (List.length h) y (h ++ [x]) = (h ++ [y])%list.
Proof.
  induction h as [|z h IH]; simpl; [reflexivity|].
  rewrite IH. reflexivity.
Qed.

Lemma deref_last h c l w x :
  deref (List.length h) (mkState (h ++ [x]) c l w)
  = (Ok x, mkState (h ++ [x]) c l w).
Proof. apply deref_run. simpl. apply nth_error_last. Qed.

Lemma update_last h c l w x f :
  update (List.length h) f (mkState (h ++ [x]) c l w)
  = (Ok tt, mkState (h ++ [f x]) c l w).
Proof.
  unfold update. rewrite (bind_run _ _ _ _ _ (deref_last h c l w x)).
  simpl. rewrite replace_nth_last. reflexivity.
Qed.

Lemma copy_run h c l w r df :
  nth_error h r = Some df ->
  copy r (mkState h c l w) = (Ok (List.length h), mkState (h ++ [df]) c l w).
Proof.
  intros Hr. unfold copy.
  rewrite (bind_run _ _ (mkState h c l w) df (mkState h c l w));
    [reflexivity|apply deref_run; exact Hr].
Qed.

(** What a call does, step by step: the guard, the copy, the cleaning
    of the copy, the columns added to it, the grouping. *)
Lemma create_expiration_summary_table_run `{Sorter} r h c l w df :
  nth_error h r = Some df ->
  create_expiration_summary_table r (mkState h c l w) =
    if expiration_guard df then (Ok [], mkState h c l w)
    else
      let frame := parsed_and_cleaned w df in
      if df_empty frame then (Ok [], mkState (h ++ [frame]) c l w)
      else
        let final := with_derived_columns (c / 86400) frame in
        (Ok (sort days_ascending (groupby_agg final)),
         mkState (h ++ [final]) c l w).
Proof.
  intros Hr. unfold create_expiration_summary_table.
  rewrite (bind_run _ _ _ df (mkState h c l w)) by (apply deref_run; exact Hr).
  fold (expiration_guard df).
  destruct (expiration_guard df); [reflexivity|].
  rewrite (bind_run _ _ _ _ _ (copy_run h c l w r df Hr)).
  unfold get_state at 1. unfold bind at 1. cbv beta iota. simpl world.
  rewrite (bind_run _ _ _ _ _ (update_last h c l w df _)).
  rewrite (bind_run _ _ _ _ _ (update_last h c l w _ _)).
  rewrite (bind_run _ _ _ _ _ (deref_last h c l w _)).
  fold (parsed_and_cleaned w df).
  destruct (df_empty (parsed_and_cleaned w df)); [reflexivity|].
  unfold today at 1. unfold bind at 1. cbv beta iota. simpl clock.
  rewrite (bind_run _ _ _ _ _ (update_last h c l w _ _)).
  rewrite (bind_run _ _ _ _ _ (update_last h c l w _ _)).
  rewrite (bind_run _ _ _ _ _ (update_last h c l w _ _)).
  rewrite (bind_run _ _ _ _ _ (update_last h c l w _ _)).
  rewrite (bind_run _ _ _ _ _ (update_last h c l w _ _)).
  rewrite (bind_run _ _ _ _ _ (deref_last h c l w _)).
  reflexivity.
Qed.

Lemma create_expiration_summary_table_invalid `{Sorter} r s :
  nth_error (heap s) r = None ->
  create_expiration_summary_table r s = (Raise InvalidReference, s).
Proof.
  intros Hr. unfold create_expiration_summary_table.
  apply bind_raise. apply deref_invalid. exact Hr.
Qed.

Lemma nth_error_some_extend {A} (h : list A) x r a :
  nth_error h r = Some a -> nth_error (h ++ [x]) r = Some a.
Proof.
  intros Hr. rewrite nth_error_extend; [exact Hr|].
  apply nth_error_Some. congruence.
Qed.

(** After a call the heap is the old heap, possibly with the working
    copy added at its end; clock, log and world are untouched. *)
Lemma create_expiration_summary_table_state `{Sorter} r s :
  let s' := snd (create_expiration_summary_table r s) in
  (heap s' = heap s \/ exists copy_, heap s' = (heap s ++ [copy_])%list)
  /\ clock s' = clock s /\ log s' = log s /\ world s' = world s.
Proof.
  destruct s as [h c l w]. simpl.
  destruct (nth_error h r) as [df|] eqn:Hr.
  - rewrite (create_expiration_summary_table_run r h c l w df Hr).
    destruct (expiration_guard df); simpl; [tauto|].
    destruct (df_empty (parsed_and_cleaned w df)); simpl;
      (split; [right; eexists; reflexivity|tauto]).
  - rewrite create_expiration_summary_table_invalid by exact Hr.
    simpl. tauto.
Qed.

(** C10.  Neither aggregation routine changes the frame it is given:
    after [analyze_ticker_dashboard] (which only reads and filters) and
    after [create_expiration_summary_table] (which changes a copy), the
    reference the caller passed still holds the same frame, whatever
    the call returned or raised. *)
Theorem aggregation_leaves_input_unchanged `{Sorter}
    (options_df_for_period : ref) (start_date : Z) (s : State) :
  nth_error
    (heap (snd (analyze_ticker_dashboard options_df_for_period start_date s)))
    options_df_for_period
  = nth_error (heap s) options_df_for_period
  /\
  nth_error
    (heap (snd (create_expiration_summary_table options_df_for_period s)))
    options_df_for_period
  = nth_error (heap s) options_df_for_period.
Proof.
  split.
  - destruct (stable_analyze_ticker_dashboard options_df_for_period start_date s)
      as [Hh _].
    rewrite Hh. reflexivity.
  - destruct (create_expiration_summary_table_state options_df_for_period s)
      as [[Hh|[x Hh]] _]; rewrite Hh; [reflexivity|].
    destruct (nth_error (heap s) options_df_for_period) as [df|] eqn:Hr.
    + apply nth_error_some_extend. exact Hr.
    + destruct s as [h c l w]. simpl in *.
      rewrite create_expiration_summary_table_invalid in Hh by exact Hr.
      simpl in Hh.
      exfalso. apply (f_equal (@List.length _)) in Hh.
      rewrite length_app in Hh. simpl in Hh. lia.
Qed.

Lemma parsed_and_cleaned_same_reader w1 w2 df :
  parse_date w1 = parse_date w2 ->
  parsed_and_cleaned w1 df = parsed_and_cleaned w2 df.
Proof.
  intros Hw. unfold parsed_and_cleaned, to_datetime_expiration_date,
    expiration_reader.
  rewrite Hw. reflexivity.
Qed.

(** C6.  Expiration grouping is idempotent: a second call of
    [create_expiration_summary_table] on the same frame, made right
    after the first, returns the same rows (or raises the same
    exception), and no call asks anything of the market data provider.
    More generally the rows depend on the frame, the current date and
    the date reader only: in any state where the reference holds the
    same frame on the same day, whatever the provider answers there,
    the call returns the same rows. *)
Theorem expiration_grouping_idempotent `{Sorter}
    (options_df_for_period : ref) (s : State) :
  let first := create_expiration_summary_table options_df_for_period s in
  let second := create_expiration_summary_table options_df_for_period (snd first) in
  fst second = fst first
  /\ log (snd second) = log s
  /\ (forall (other : State) (df : DataFrame),
        nth_error (heap s) options_df_for_period = Some df ->
        nth_error (heap other) options_df_for_period = Some df ->
        clock other / 86400 = clock s / 86400 ->
        parse_date (world other) = parse_date (world s) ->
        fst (create_expiration_summary_table options_df_for_period other)
        = fst first).
Proof.
  destruct s as [h c l w]. cbv zeta.
  destruct (nth_error h options_df_for_period) as [df|] eqn:Hr.
  - split; [|split].
    + rewrite (create_expiration_summary_table_run _ h c l w df Hr).
      destruct (expiration_guard df) eqn:Hg.
      * simpl. rewrite (create_expiration_summary_table_run _ h c l w df Hr).
        rewrite Hg. reflexivity.
      * cbv zeta.
        destruct (df_empty (parsed_and_cleaned w df)) eqn:He; simpl;
          rewrite (create_expiration_summary_table_run _ _ c l w df
                     (nth_error_some_extend h _ _ df Hr));
          rewrite Hg; cbv zeta; rewrite He; reflexivity.
    + destruct (create_expiration_summary_table_state options_df_for_period
                  (mkState h c l w)) as [_ [_ [Hlog _]]].
      destruct (create_expiration_summary_table_state options_df_for_period
                  (snd (create_expiration_summary_table options_df_for_period
                          (mkState h c l w)))) as [_ [_ [Hlog' _]]].
      cbv zeta in Hlog, Hlog'. rewrite Hlog', Hlog. reflexivity.
    + intros [h' c' l' w'] df' Hdf Hr' Hday Hreader. simpl in *.
      rewrite Hr in Hdf. injection Hdf as <-.
      rewrite (create_expiration_summary_table_run _ h c l w df Hr).
      rewrite (create_expiration_summary_table_run _ h' c' l' w' df Hr').
      rewrite (parsed_and_cleaned_same_reader w' w df Hreader), Hday.
      destruct (expiration_guard df); [reflexivity|]. cbv zeta.
      destruct (df_empty (parsed_and_cleaned w df)); reflexivity.
  - rewrite (create_expiration_summary_table_invalid _ (mkState h c l w) Hr).
    simpl.
    rewrite ?(create_expiration_summary_table_invalid _ (mkState h c l w) Hr).
    split; [reflexivity|]. split; [reflexivity|].
    intros other df Hdf. simpl in Hdf. congruence.
Qed.

(* ================================================================= *)
(** ** Lists, sums and groups *)

Lemma filter_map_commute {A B} (p : B -> bool) (f : A -> B) l :
  filter p (map f l) = map f (filter (fun x => p (f x)) l).
Proof.
  induction l as [|x l IH]; simpl; [reflexivity|].
  destruct (p (f x)); simpl; rewrite IH; reflexivity.
Qed.

Lemma filter_filter {A} (p q : A -> bool) l :
  filter p (filter q l) = filter (fun x => q x && p x) l.
Proof.
  induction l as [|x l IH]; simpl; [reflexivity|].
  destruct (q x); simpl; [destruct (p x)|]; rewrite IH; reflexivity.
Qed.

Lemma in_present {A} (x : A) l : In x (present l) <-> In (Some x) l.
Proof.
  induction l as [|[y|] l IH]; simpl.
  - tauto.
  - rewrite IH. split; intros [H|H]; auto; left; congruence.
  - rewrite IH. split; [auto|intros [H|H]; [discriminate|exact H]].
Qed.

Lemma in_unique_from {A} (eqb : A -> A -> bool) x l :
  forall seen, In x (unique_from eqb seen l) -> In x l.
Proof.
  induction l as [|y l IH]; intros seen; simpl; [tauto|].
  destruct (existsb (eqb y) seen).
  - intros H. right. eapply IH; exact H.
  - intros [H|H]; [left; exact H|right; eapply IH; exact H].
Qed.

Lemma in_unique {A} (eqb : A -> A -> bool) x l :
  In x (unique eqb l) -> In x l.
Proof. apply in_unique_from. Qed.

Lemma in_sort `{Sorter} {A} (leb : A -> A -> bool) x l :
  In x (sort leb l) <-> In x l.
Proof.
  split; intros Hx.
  - eapply Permutation_in; [apply Permutation_sym, sort_permutation|exact Hx].
  - eapply Permutation_in; [apply sort_permutation|exact Hx].
Qed.

(** Summing a column that holds the premium where a test holds and
    zero elsewhere is summing the premium of the records that pass. *)
Lemma series_sum_where (p : Row -> bool) (l : list Row) :
  (series_sum (map (fun r => if p r then premium_usd r else Some 0%Q) l)
   == series_sum (map premium_usd (filter p l)))%Q.
Proof.
  induction l as [|r l IH]; simpl; [reflexivity|].
  destruct (p r); simpl.
  - destruct (premium_usd r); [rewrite IH; reflexivity|exact IH].
  - rewrite IH. ring.
Qed.

(** A sum splits along any test. *)
Lemma series_sum_split (p : Row -> bool) (l : list Row) :
  (series_sum (map premium_usd l)
   == series_sum (map premium_usd (filter p l))
      + series_sum (map premium_usd (filter (fun r => negb (p r)) l)))%Q.
Proof.
  induction l as [|r l IH]; simpl; [ring|].
  destruct (p r); simpl; destruct (premium_usd r); rewrite ?IH;
    solve [ring|reflexivity].
Qed.

Lemma StronglySorted_impl {A} (R1 R2 : A -> A -> Prop) l :
  (forall x y, R1 x y -> R2 x y) ->
  StronglySorted R1 l -> StronglySorted R2 l.
Proof.
  intros HR Hs. induction Hs as [|x l Hs IH Hall]; constructor.
  - exact IH.
  - eapply Forall_impl; [|exact Hall]. intros y. apply HR.
Qed.

(* ================================================================= *)
(** ** The rows of the expiration summary *)

Lemma dropna_keeps_usable read (r : Row) :
  negb (existsb (fun col => isna col (coerce_expiration_date read r))
          ["expiration_date"; "premium_usd"])
  = usable read r.
Proof.
  unfold usable, expiration_of, coerce_expiration_date, to_datetime, isna.
  simpl.
  destruct (expiration_date r) as [|text|t]; simpl;
    [|destruct (read text); simpl|];
    destruct (premium_usd r); reflexivity.
Qed.

Lemma rows_of_working_copy w today_date df :
  rows (with_derived_columns today_date (parsed_and_cleaned w df))
  = map (fun r => derived_columns today_date
                    (coerce_expiration_date (expiration_reader w df) r))
      (filter (usable_in w df) (rows df)).
Proof.
  unfold with_derived_columns, parsed_and_cleaned, to_datetime_expiration_date,
    dropna, df_assign, df_filter.
  simpl rows. rewrite !map_map.
  rewrite filter_map_commute, map_map.
  rewrite (filter_ext _ (usable_in w df))
    by (intros r; apply dropna_keeps_usable).
  reflexivity.
Qed.

Lemma group_key_of_working_row read today_date r :
  group_key (derived_columns today_date (coerce_expiration_date read r))
  = match expiration_of read r with
    | Some t => Some (t, days_from today_date t)
    | None => None
    end.
Proof.
  unfold group_key, expiration_of, derived_columns, coerce_expiration_date.
  simpl. destruct (to_datetime read (expiration_date r)); reflexivity.
Qed.

Lemma in_group_of_working_row read today_date t r :
  usable read r = true ->
  in_group (t, days_from today_date t)
    (derived_columns today_date (coerce_expiration_date read r))
  = option_eqb Z.eqb (expiration_of read r) (Some t).
Proof.
  unfold in_group. rewrite group_key_of_working_row. unfold usable.
  destruct (expiration_of read r) as [t'|]; [intros _|discriminate].
  simpl. unfold key_eqb. simpl.
  destruct (Z.eqb_spec t' t) as [->|Hne].
  - rewrite Z.eqb_refl. reflexivity.
  - reflexivity.
Qed.

Lemma group_of_working_copy w today_date df t :
  filter (in_group (t, days_from today_date t))
    (rows (with_derived_columns today_date (parsed_and_cleaned w df)))
  = map (fun r => derived_columns today_date
                    (coerce_expiration_date (expiration_reader w df) r))
      (expiring w df t).
Proof.
  rewrite rows_of_working_copy, filter_map_commute, filter_filter.
  unfold expiring. f_equal. apply filter_ext_in. intros r _.
  destruct (usable_in w df r) eqn:Hu; [|reflexivity].
  simpl. apply in_group_of_working_row. exact Hu.
Qed.

Lemma aggregate_describes w today_date df t :
  expiring w df t <> [] ->
  describes_expiration w today_date df
    (aggregate (t, days_from today_date t)
       (map (fun r => derived_columns today_date
                        (coerce_expiration_date (expiration_reader w df) r))
          (expiring w df t))).
Proof.
  intros Hne. unfold describes_expiration, aggregate. simpl.
  rewrite !map_map. simpl.
  repeat split; try reflexivity; try exact Hne;
    apply (series_sum_where _ (expiring w df t)).
Qed.

Lemma groupby_agg_describes `{Sorter} w today_date df e :
  In e (groupby_agg (with_derived_columns today_date (parsed_and_cleaned w df))) ->
  describes_expiration w today_date df e.
Proof.
  unfold groupby_agg. intros He.
  apply in_map_iff in He. destruct He as [key [<- Hkey]].
  apply in_sort in Hkey. apply in_unique in Hkey.
  apply in_present in Hkey. apply in_map_iff in Hkey.
  destruct Hkey as [x [Hx Hin]].
  rewrite rows_of_working_copy in Hin. apply in_map_iff in Hin.
  destruct Hin as [r [<- Hr]].
  rewrite group_key_of_working_row in Hx.
  apply filter_In in Hr. destruct Hr as [Hr Hu].
  destruct (expiration_of (expiration_reader w df) r) as [t|] eqn:Ht;
    [|discriminate].
  injection Hx as <-.
  rewrite group_of_working_copy.
  apply aggregate_describes.
  intros Hnil.
  assert (Hg : In r (expiring w df t)).
  { unfold expiring. apply filter_In. split; [exact Hr|].
    rewrite Hu, Ht. simpl. apply Z.eqb_refl. }
  rewrite Hnil in Hg. destruct Hg.
Qed.

(** Every row returned by [create_expiration_summary_table] describes
    the frame the reference points to, at the date of the call. *)
Lemma expiration_rows_describe `{Sorter} r s df table s' :
  nth_error (heap s) r = Some df ->
  create_expiration_summary_table r s = (Ok table, s') ->
  forall e, In e table ->
    describes_expiration (world s) (clock s / 86400) df e.
Proof.
  destruct s as [h c l w]. simpl. intros Hr Hrun e He.
  rewrite (create_expiration_summary_table_run r h c l w df Hr) in Hrun.
  destruct (expiration_guard df).
  { injection Hrun as <- _. destruct He. }
  cbv zeta in Hrun.
  destruct (df_empty (parsed_and_cleaned w df)).
  { injection Hrun as <- _. destruct He. }
  injection Hrun as <- _.
  apply in_sort in He.
  eapply groupby_agg_describes. exact He.
Qed.

(* ================================================================= *)
(** ** The rows of the ticker analysis *)

Lemma sort_nil `{Sorter} {A} (leb : A -> A -> bool) : sort leb [] = [].
Proof.
  apply Permutation_nil. apply sort_permutation.
Qed.

Lemma market_cap_to_use_run `{Sorter} ticker_df s cap s' :
  market_cap_to_use ticker_df s = (Ok cap, s') ->
  s' = s /\ cap = latest_market_cap ticker_df.
Proof.
  unfold market_cap_to_use, latest_market_cap.
  destruct (df_empty ticker_df) eqn:He; simpl.
  - intros Hrun. injection Hrun as <- <-. split; [reflexivity|].
    destruct (has_column ticker_df "market_cap_ingested") eqn:Hc;
      [|reflexivity].
    unfold df_empty in He. unfold has_column in Hc.
    destruct (columns ticker_df); [discriminate|].
    destruct (rows ticker_df); [|discriminate].
    rewrite sort_nil. reflexivity.
  - destruct (has_column ticker_df "market_cap_ingested").
    + intros Hrun. apply bind_ok_inv in Hrun.
      destruct Hrun as [[] [s1 [Hreq Hrun]]].
      unfold require_column in Hreq.
      destruct (has_column ticker_df "data_date"); [|discriminate].
      injection Hreq as <-.
      destruct (sort data_date_descending (rows ticker_df)) as [|latest rest];
        [discriminate|].
      destruct (market_cap_ingested latest);
        injection Hrun as <- <-; split; reflexivity.
    + intros Hrun. injection Hrun as <- <-. split; reflexivity.
Qed.

Lemma ticker_row_describes `{Sorter} r d t s df row s' :
  nth_error (heap s) r = Some df ->
  ticker_row r d t s = (Ok row, s') ->
  Ticker row = t /\ describes_ticker df row.
Proof.
  intros Hr Hrun. unfold ticker_row in Hrun.
  apply bind_ok_inv in Hrun. destruct Hrun as [price [s1 [Hprice Hrun]]].
  assert (Hh : heap s1 = heap s).
  { destruct (stable_get_current_price t s) as [Hh _].
    rewrite Hprice in Hh. exact Hh. }
  apply bind_ok_inv in Hrun. destruct Hrun as [df' [s2 [Hderef Hrun]]].
  rewrite (deref_run s1 r df) in Hderef by (rewrite Hh; exact Hr).
  injection Hderef as <- <-.
  apply bind_ok_inv in Hrun. destruct Hrun as [[] [s3 [_ Hrun]]].
  apply bind_ok_inv in Hrun. destruct Hrun as [cap [s4 [Hcap Hrun]]].
  apply market_cap_to_use_run in Hcap. destruct Hcap as [-> ->].
  fold (ticker_records df t) in Hrun |- *.
  destruct (premium_sums (ticker_records df t))
    as [[[[total call] put] bullish] bearish] eqn:Hsums.
  apply bind_ok_inv in Hrun. destruct Hrun as [prices [s5 [_ Hrun]]].
  injection Hrun as <- _.
  unfold describes_ticker. simpl.
  rewrite Hsums. repeat split; reflexivity.
Qed.

Lemma for_tickers_describes `{Sorter} r d df tickers :
  forall acc s rows_ s',
    nth_error (heap s) r = Some df ->
    for_tickers r d tickers acc s = (Ok rows_, s') ->
    map Ticker rows_ = (map Ticker acc ++ analysed_tickers tickers)%list
    /\ forall row, In row rows_ -> In row acc \/ describes_ticker df row.
Proof.
  induction tickers as [|t tickers IH]; intros acc s rows_ s' Hr Hrun;
    simpl in Hrun.
  - injection Hrun as <- _. unfold analysed_tickers. simpl.
    rewrite app_nil_r. split; [reflexivity|]. intros row Hrow. left. exact Hrow.
  - destruct t as [t|].
    + unfold analysed_tickers. simpl.
      destruct (ticker_skipped t) eqn:Hskip; simpl.
      * apply (IH _ _ _ _ Hr Hrun).
      * apply bind_ok_inv in Hrun. destruct Hrun as [row [s1 [Hrow Hrun]]].
        assert (Hr1 : nth_error (heap s1) r = Some df).
        { destruct (stable_ticker_row r d t s) as [Hh _].
          rewrite Hrow in Hh. simpl in Hh. rewrite Hh. exact Hr. }
        destruct (ticker_row_describes r d t s df row s1 Hr Hrow) as [Ht Hd].
        destruct (IH _ _ _ _ Hr1 Hrun) as [Hmap Hall].
        split.
        -- rewrite Hmap, map_app. simpl. rewrite Ht, <- app_assoc.
           reflexivity.
        -- intros row' Hin. destruct (Hall row' Hin) as [Hacc|Hdesc].
           ++ apply in_app_or in Hacc. destruct Hacc as [Hacc|[<-|[]]].
              ** left. exact Hacc.
              ** right. exact Hd.
           ++ right. exact Hdesc.
    + apply (IH _ _ _ _ Hr Hrun).
Qed.

(** Every row returned by [analyze_ticker_dashboard] describes the
    frame the reference points to, and the symbols of the rows are the
    analysed symbols of the frame, in sorted order. *)
Lemma analysis_rows_describe `{Sorter} r d s df rows_ s' :
  nth_error (heap s) r = Some df ->
  analyze_ticker_dashboard r d s = (Ok rows_, s') ->
  (forall row, In row rows_ -> describes_ticker df row)
  /\ (df_empty df = false ->
      map Ticker rows_
      = analysed_tickers
          (sort (nulls_last_leb String.leb)
             (unique (option_eqb String.eqb) (map underlying_ticker (rows df))))).
Proof.
  intros Hr Hrun. unfold analyze_ticker_dashboard in Hrun.
  rewrite (bind_run _ _ _ _ _ (deref_run s r df Hr)) in Hrun.
  destruct (df_empty df).
  { injection Hrun as <- _. split; [intros row []|discriminate]. }
  apply bind_ok_inv in Hrun. destruct Hrun as [[] [s1 [Hreq Hrun]]].
  assert (Hs1 : s1 = s).
  { unfold require_column in Hreq.
    destruct (has_column df "underlying_ticker"); [|discriminate].
    injection Hreq as <-. reflexivity. }
  subst s1.
  apply bind_ok_inv in Hrun. destruct Hrun as [tickers [s1 [Hsorted Hrun]]].
  unfold sorted_tickers in Hsorted.
  destruct (existsb is_none _ && _)%bool; [discriminate|].
  injection Hsorted as <- <-.
  destruct (for_tickers_describes r d df _ _ _ _ _ Hr Hrun) as [Hmap Hall].
  split.
  - intros row Hrow. destruct (Hall row Hrow) as [[]|Hd]. exact Hd.
  - intros _. exact Hmap.
Qed.

Lemma analysis_reads_a_frame `{Sorter} r d s rows_ s' :
  analyze_ticker_dashboard r d s = (Ok rows_, s') ->
  exists df, nth_error (heap s) r = Some df.
Proof.
  intros Hrun. destruct (nth_error (heap s) r) as [df|] eqn:Hr.
  - exists df. reflexivity.
  - unfold analyze_ticker_dashboard in Hrun.
    rewrite (bind_raise _ _ _ _ _ (deref_invalid s r Hr)) in Hrun.
    discriminate.
Qed.

Lemma mcap_score_without_cap premium cap :
  cap = None \/ (exists m, cap = Some m /\ (m <= 0)%Q) ->
  mcap_score premium (mcap_val_for_calc cap) = 0%Q.
Proof.
  intros Hcap.
  assert (Hzero : mcap_val_for_calc cap = 0%Q).
  { destruct Hcap as [->|[m [-> Hm]]]; [reflexivity|].
    unfold mcap_val_for_calc, Qpositive.
    apply Qle_bool_iff in Hm. rewrite Hm. reflexivity. }
  rewrite Hzero. reflexivity.
Qed.

(** C1.  In every row produced by [analyze_ticker_dashboard], when the
    market capitalisation of the row is absent or not positive, the
    bullish and the bearish score are both the number 0. *)
Theorem scores_zero_without_capitalization `{Sorter}
    (options_df_for_period : ref) (start_date : Z) (s s' : State)
    (analysis : list TickerSummary) (row : TickerSummary) :
  analyze_ticker_dashboard options_df_for_period start_date s
  = (Ok analysis, s') ->
  In row analysis ->
  Market_Cap row = None \/ (exists m, Market_Cap row = Some m /\ (m <= 0)%Q) ->
  Bullish_MCap_Score row = 0%Q /\ Bearish_MCap_Score row = 0%Q.
Proof.
  intros Hrun Hrow Hcap.
  destruct (analysis_reads_a_frame _ _ _ _ _ Hrun) as [df Hr].
  destruct (analysis_rows_describe _ _ _ _ _ _ Hr Hrun) as [Hall _].
  destruct (Hall row Hrow) as [_ [_ [Hbull Hbear]]].
  rewrite Hbull, Hbear.
  split; apply mcap_score_without_cap; exact Hcap.
Qed.

(** The scenario of the specification: a ticker without capitalisation
    and with bullish premium 500 gets bullish score 0. *)
Lemma scores_zero_without_capitalization_witness :
  fst (run_analysis frame_without_cap) = Ok [row_without_cap]
  /\ Bullish_Prem row_without_cap = 500%Q
  /\ Bullish_MCap_Score row_without_cap = 0%Q
  /\ Bearish_MCap_Score row_without_cap = 0%Q.
Proof.
  split; [vm_compute; reflexivity|]. split; [reflexivity|].
  apply (scores_zero_without_capitalization (H := insertion_sorter)
           0%nat 1 (state_with frame_without_cap)
           (snd (run_analysis frame_without_cap)) [row_without_cap]).
  - apply (run_fst (analyze_ticker_dashboard 0%nat 1)).
    vm_compute. reflexivity.
  - left. reflexivity.
  - left. reflexivity.
Defined.

(* ================================================================= *)
(** ** The capitalisation of a ticker *)

Lemma data_date_descending_total : total_leb data_date_descending.
Proof.
  intros x y. unfold data_date_descending, nulls_last_leb.
  destruct (data_date x) as [a|], (data_date y) as [b|]; auto.
  destruct (Z.geb_spec a b); [left; reflexivity|right].
  apply Z.geb_le. lia.
Qed.

Lemma data_date_descending_transitive : transitive_leb data_date_descending.
Proof.
  intros x y z. unfold data_date_descending, nulls_last_leb.
  destruct (data_date x) as [a|], (data_date y) as [b|],
    (data_date z) as [c|]; auto; try discriminate.
  rewrite !Z.geb_le. lia.
Qed.

Lemma data_date_descending_not_later latest rec :
  data_date_descending latest rec = true -> not_later rec latest.
Proof.
  unfold data_date_descending, nulls_last_leb, not_later.
  destruct (data_date latest) as [a|], (data_date rec) as [b|];
    auto; try discriminate.
  rewrite Z.geb_le. auto.
Qed.

(** The head of a list sorted latest-first is not earlier than any
    record of the list. *)
Lemma sorted_head_is_latest `{Sorter} (l : list Row) latest rest :
  sort data_date_descending l = latest :: rest ->
  In latest l /\ forall rec, In rec l -> not_later rec latest.
Proof.
  intros Hs.
  assert (Hsorted := sort_sorted _ data_date_descending
                       data_date_descending_total
                       data_date_descending_transitive l).
  rewrite Hs in Hsorted. apply StronglySorted_inv in Hsorted.
  destruct Hsorted as [_ Hall].
  split.
  - apply (in_sort data_date_descending). rewrite Hs. left. reflexivity.
  - intros rec Hrec. apply (in_sort data_date_descending) in Hrec.
    rewrite Hs in Hrec. apply data_date_descending_not_later.
    destruct Hrec as [<-|Hrec].
    + destruct (data_date_descending_total latest latest); assumption.
    + rewrite Forall_forall in Hall. apply Hall. exact Hrec.
Qed.

Lemma in_analysed_tickers t tickers :
  In t (analysed_tickers tickers)
  <-> In (Some t) tickers /\ ticker_skipped t = false.
Proof.
  unfold analysed_tickers. rewrite filter_In, in_present.
  rewrite negb_true_iff. reflexivity.
Qed.

Lemma string_option_eqb_eq (x y : option string) :
  option_eqb String.eqb x y = true <-> x = y.
Proof.
  destruct x as [a|], y as [b|]; simpl.
  - rewrite String.eqb_eq. split; congruence.
  - split; discriminate.
  - split; discriminate.
  - tauto.
Qed.

Lemma in_ticker_records df t rec :
  In rec (rows (ticker_records df t))
  <-> In rec (rows df) /\ underlying_ticker rec = Some t.
Proof.
  unfold ticker_records, df_filter. simpl.
  rewrite filter_In, string_option_eqb_eq. reflexivity.
Qed.

(** A row of the analysis stands for a symbol some record carries. *)
Lemma analysed_ticker_has_record `{Sorter} r d s df rows_ s' row :
  nth_error (heap s) r = Some df ->
  analyze_ticker_dashboard r d s = (Ok rows_, s') ->
  In row rows_ ->
  df_empty df = false
  /\ ticker_skipped (Ticker row) = false
  /\ exists rec, In rec (rows df) /\ underlying_ticker rec = Some (Ticker row).
Proof.
  intros Hr Hrun Hrow.
  destruct (analysis_rows_describe _ _ _ _ _ _ Hr Hrun) as [_ Hmap].
  destruct (df_empty df) eqn:He.
  { unfold analyze_ticker_dashboard in Hrun.
    rewrite (bind_run _ _ _ _ _ (deref_run s r df Hr)), He in Hrun.
    injection Hrun as <- _. destruct Hrow. }
  specialize (Hmap eq_refl).
  assert (Hin : In (Ticker row) (map Ticker rows_)) by (apply in_map; exact Hrow).
  rewrite Hmap in Hin. apply in_analysed_tickers in Hin.
  destruct Hin as [Hin Hskip].
  apply in_sort in Hin. apply in_unique in Hin. apply in_map_iff in Hin.
  destruct Hin as [rec [Ht Hrec]].
  split; [reflexivity|]. split; [exact Hskip|].
  exists rec. split; assumption.
Qed.

Lemma describes_ticker_determines `{Sorter} df row1 row2 :
  describes_ticker df row1 -> describes_ticker df row2 ->
  Ticker row1 = Ticker row2 ->
  without_prices row1 = without_prices row2.
Proof.
  unfold describes_ticker, without_prices.
  intros [Hc1 [Hs1 [Hb1 Hr1]]] [Hc2 [Hs2 [Hb2 Hr2]]] Ht.
  rewrite Ht in *. rewrite <- Hs2 in Hs1. rewrite <- Hc2 in Hc1.
  injection Hs1 as Ha Hb Hc Hd He.
  rewrite Hb1, Hr1, Hb2, Hr2. congruence.
Qed.

Lemma analysis_without_prices_determined `{Sorter} df :
  forall rows1 rows2,
    (forall row, In row rows1 -> describes_ticker df row) ->
    (forall row, In row rows2 -> describes_ticker df row) ->
    map Ticker rows1 = map Ticker rows2 ->
    map without_prices rows1 = map without_prices rows2.
Proof.
  induction rows1 as [|a rows1 IH]; intros [|b rows2] H1 H2 Hmap;
    simpl in *; try discriminate; [reflexivity|].
  injection Hmap as Hab Hmap. f_equal.
  - apply (describes_ticker_determines df); auto.
  - apply IH; auto.
Qed.

(** C3.  The capitalisation reported in a row of
    [analyze_ticker_dashboard], and used for its two scores, is the
    ingested capitalisation of a record of that ticker which no record
    of the ticker post-dates; it is read from the frame, not from the
    market data provider: whatever the provider answers, the rows are
    the same but for their price fields. *)
Theorem market_cap_is_latest_ingested `{Sorter}
    (options_df_for_period : ref) (start_date : Z) (s s' : State)
    (df : DataFrame) (analysis : list TickerSummary) (row : TickerSummary) :
  nth_error (heap s) options_df_for_period = Some df ->
  analyze_ticker_dashboard options_df_for_period start_date s
  = (Ok analysis, s') ->
  In row analysis ->
  (exists latest,
      In latest (rows df)
      /\ underlying_ticker latest = Some (Ticker row)
      /\ (forall rec, In rec (rows df) ->
                      underlying_ticker rec = Some (Ticker row) ->
                      not_later rec latest)
      /\ Market_Cap row = ingested_capitalization df latest)
  /\ Bullish_MCap_Score row
     = mcap_score (Bullish_Prem row) (mcap_val_for_calc (Market_Cap row))
  /\ Bearish_MCap_Score row
     = mcap_score (Bearish_Prem row) (mcap_val_for_calc (Market_Cap row))
  /\ (forall (other : State) (other_start : Z) analysis' other',
        nth_error (heap other) options_df_for_period = Some df ->
        analyze_ticker_dashboard options_df_for_period other_start other
        = (Ok analysis', other') ->
        map without_prices analysis' = map without_prices analysis).
Proof.
  intros Hr Hrun Hrow.
  destruct (analysis_rows_describe _ _ _ _ _ _ Hr Hrun) as [Hall Hmap].
  destruct (analysed_ticker_has_record _ _ _ _ _ _ _ Hr Hrun Hrow)
    as [He [_ [rec [Hrec Hticker]]]].
  destruct (Hall row Hrow) as [Hcap [_ [Hbull Hbear]]].
  split; [|split; [exact Hbull|split; [exact Hbear|]]].
  - unfold latest_market_cap in Hcap.
    assert (Hcols : has_column (ticker_records df (Ticker row)) "market_cap_ingested"
                    = has_column df "market_cap_ingested") by reflexivity.
    rewrite Hcols in Hcap.
    destruct (sort data_date_descending (rows (ticker_records df (Ticker row))))
      as [|latest rest] eqn:Hsort.
    + exfalso.
      assert (Hin : In rec (rows (ticker_records df (Ticker row)))).
      { apply in_ticker_records. split; assumption. }
      apply (in_sort data_date_descending) in Hin. rewrite Hsort in Hin.
      destruct Hin.
    + destruct (sorted_head_is_latest _ _ _ Hsort) as [Hin Hlatest].
      apply in_ticker_records in Hin. destruct Hin as [Hin Ht].
      exists latest. split; [exact Hin|]. split; [exact Ht|]. split.
      * intros rec' Hrec' Ht'. apply Hlatest.
        apply in_ticker_records. split; assumption.
      * unfold ingested_capitalization. exact Hcap.
  - intros other other_start analysis' other' Hr' Hrun'.
    destruct (analysis_rows_describe _ _ _ _ _ _ Hr' Hrun') as [Hall' Hmap'].
    apply (analysis_without_prices_determined df); auto.
    rewrite Hmap, Hmap' by exact He. reflexivity.
Qed.

(** On two records of NVDA dated 1 and 2 the row reports the
    capitalisation of a record that none post-dates, here 1000. *)
Lemma market_cap_is_latest_ingested_witness :
  fst (run_analysis frame_two_dates) = Ok [row_two_dates]
  /\ exists latest,
       In latest (rows frame_two_dates)
       /\ (forall rec, In rec (rows frame_two_dates) ->
                       underlying_ticker rec = Some "NVDA" ->
                       not_later rec latest)
       /\ Some 1000%Q = ingested_capitalization frame_two_dates latest.
Proof.
  split; [vm_compute; reflexivity|].
  destruct (market_cap_is_latest_ingested (H := insertion_sorter)
              0%nat 1 (state_with frame_two_dates)
              (snd (run_analysis frame_two_dates)) frame_two_dates
              [row_two_dates] row_two_dates)
    as [[latest [Hin [_ [Hlate Hcap]]]] _].
  - reflexivity.
  - apply (run_fst (analyze_ticker_dashboard 0%nat 1)).
    vm_compute. reflexivity.
  - left. reflexivity.
  - exists latest. split; [exact Hin|]. split; [exact Hlate|exact Hcap].
Defined.

(* ================================================================= *)
(** ** One row per symbol *)

Lemma existsb_eqb_in {A} (eqb : A -> A -> bool) :
  (forall x y, eqb x y = true <-> x = y) ->
  forall x l, existsb (eqb x) l = true <-> In x l.
Proof.
  intros Heqb x l. rewrite existsb_exists. split.
  - intros [y [Hy Hxy]]. apply Heqb in Hxy. subst y. exact Hy.
  - intros Hx. exists x. split; [exact Hx|]. apply Heqb. reflexivity.
Qed.

Lemma unique_from_spec {A} (eqb : A -> A -> bool) :
  (forall x y, eqb x y = true <-> x = y) ->
  forall l seen,
    NoDup (unique_from eqb seen l)
    /\ forall x, In x (unique_from eqb seen l) <-> In x l /\ ~ In x seen.
Proof.
  intros Heqb. induction l as [|y l IH]; intros seen; simpl.
  - split; [constructor|]. intros x. tauto.
  - destruct (existsb (eqb y) seen) eqn:Hy.
    + apply (existsb_eqb_in eqb Heqb) in Hy.
      destruct (IH seen) as [Hnd Hin]. split; [exact Hnd|].
      intros x. rewrite Hin. split.
      * intros [Hx Hs]. split; [right; exact Hx|exact Hs].
      * intros [[->|Hx] Hs]; [contradiction|]. split; assumption.
    + assert (Hy' : ~ In y seen).
      { intros Hc. apply (existsb_eqb_in eqb Heqb) in Hc. congruence. }
      destruct (IH (y :: seen)) as [Hnd Hin]. split.
      * constructor; [|exact Hnd]. rewrite Hin. simpl. tauto.
      * intros x. simpl. rewrite Hin. simpl. split.
        -- intros [->|[Hx Hs]]; [tauto|]. split; [right; exact Hx|tauto].
        -- intros [[->|Hx] Hs]; [left; reflexivity|].
           destruct (Heqb y x) as [_ Hyx].
           destruct (eqb y x) eqn:E.
           ++ left. apply Heqb. exact E.
           ++ right. split; [exact Hx|]. intros [Hc|Hc]; [|contradiction].
              specialize (Hyx Hc). discriminate.
Qed.

Lemma NoDup_present {A} (l : list (option A)) :
  NoDup l -> NoDup (present l).
Proof.
  induction 1 as [|x l Hx Hnd IH]; simpl; [constructor|].
  destruct x as [a|]; [|exact IH].
  constructor; [|exact IH]. rewrite in_present. exact Hx.
Qed.

(** C2, as the code has it.  [analyze_ticker_dashboard] enumerates the
    distinct, non-empty ticker symbols as they are written, without
    case normalization: every symbol that some record carries and that
    passes the test of line 139 gets exactly one row, and the premium
    sums of a row are those of the records that carry exactly its
    symbol. *)
Theorem rows_follow_exact_symbols `{Sorter}
    (options_df_for_period : ref) (start_date : Z) (s s' : State)
    (df : DataFrame) (analysis : list TickerSummary) :
  nth_error (heap s) options_df_for_period = Some df ->
  analyze_ticker_dashboard options_df_for_period start_date s
  = (Ok analysis, s') ->
  NoDup (map Ticker analysis)
  /\ (forall t,
        In t (map Ticker analysis)
        <-> df_empty df = false
            /\ ticker_skipped t = false
            /\ exists rec, In rec (rows df) /\ underlying_ticker rec = Some t)
  /\ (forall row,
        In row analysis ->
        (Total_Activity_Prem row, Total_Call_Vol_Prem row,
         Total_Put_Vol_Prem row, Bullish_Prem row, Bearish_Prem row)
        = premium_sums (ticker_records df (Ticker row))).
Proof.
  intros Hr Hrun.
  destruct (analysis_rows_describe _ _ _ _ _ _ Hr Hrun) as [Hall Hmap].
  destruct (unique_from_spec (option_eqb String.eqb) string_option_eqb_eq
              (map underlying_ticker (rows df)) []) as [Hnd Hin].
  fold (unique (option_eqb String.eqb) (map underlying_ticker (rows df)))
    in Hnd, Hin.
  destruct (df_empty df) eqn:He.
  { unfold analyze_ticker_dashboard in Hrun.
    rewrite (bind_run _ _ _ _ _ (deref_run s _ df Hr)), He in Hrun.
    injection Hrun as <- _. simpl.
    split; [constructor|]. split; [|intros row []].
    intros t. split; [intros []|intros [Hc _]; discriminate]. }
  specialize (Hmap eq_refl). rewrite Hmap.
  split; [|split].
  - unfold analysed_tickers. apply NoDup_filter, NoDup_present.
    eapply Permutation_NoDup; [apply sort_permutation|exact Hnd].
  - intros t. rewrite in_analysed_tickers, in_sort, Hin, in_map_iff.
    split.
    + intros [[[rec [Ht Hrec]] _] Hskip].
      split; [reflexivity|]. split; [exact Hskip|].
      exists rec. split; assumption.
    + intros [_ [Hskip [rec [Hrec Ht]]]].
      split; [|exact Hskip]. split; [|intros []].
      exists rec. split; assumption.
  - intros row Hrow. destruct (Hall row Hrow) as [_ [Hsums _]]. exact Hsums.
Qed.

(** On two records of NVDA there is one row, and it carries both
    premiums. *)
Lemma rows_follow_exact_symbols_witness :
  fst (run_analysis frame_two_dates) = Ok [row_two_dates]
  /\ NoDup (map Ticker [row_two_dates])
  /\ (150%Q, 100%Q, 50%Q, 100%Q, 50%Q)
     = premium_sums (ticker_records frame_two_dates "NVDA").
Proof.
  split; [vm_compute; reflexivity|].
  destruct (rows_follow_exact_symbols (H := insertion_sorter)
              0%nat 1 (state_with frame_two_dates)
              (snd (run_analysis frame_two_dates)) frame_two_dates
              [row_two_dates])
    as [Hnd [_ Hsums]].
  - reflexivity.
  - apply (run_fst (analyze_ticker_dashboard 0%nat 1)).
    vm_compute. reflexivity.
  - split; [exact Hnd|].
    apply (Hsums row_two_dates). left. reflexivity.
Defined.

(** C2, as the specification states it, fails: "NVDA" with premium 1000
    and "nvda" with premium 500 get a row each, with totals 1000 and
    500, and no row has the total 1500 of both. *)
Lemma case_variants_get_separate_rows :
  fst (run_analysis frame_case_variants) = Ok [row_upper_case; row_lower_case]
  /\ ~ case_normalized_attribution frame_case_variants
         [row_upper_case; row_lower_case].
Proof.
  split; [vm_compute; reflexivity|].
  intros Hclaim.
  destruct (Hclaim (trade 1 "NVDA" 30 "CALL" "Bullish" 1000 None)
                   (trade 1 "nvda" 30 "CALL" "Bullish" 500 None)
                   "NVDA" "nvda")
    as [row [Hrow [_ Htotal]]].
  - left. reflexivity.
  - right. left. reflexivity.
  - reflexivity.
  - reflexivity.
  - reflexivity.
  - destruct Hrow as [<-|[<-|[]]]; vm_compute in Htotal; discriminate.
Qed.

(* ================================================================= *)
(** ** Cleaning and order of the expiration summary *)

Lemma parsed_and_cleaned_rows w df :
  rows (parsed_and_cleaned w df)
  = map (coerce_expiration_date (expiration_reader w df))
      (filter (usable_in w df) (rows df)).
Proof.
  unfold parsed_and_cleaned, to_datetime_expiration_date, dropna, df_assign,
    df_filter.
  simpl rows. rewrite filter_map_commute.
  rewrite (filter_ext _ (usable_in w df))
    by (intros r; apply dropna_keeps_usable).
  reflexivity.
Qed.

(** Two readers that read every text alike read every cell alike. *)
Lemma to_datetime_ext (read1 read2 : string -> option Z) c :
  (forall text, read1 text = read2 text) ->
  to_datetime read1 c = to_datetime read2 c.
Proof.
  intros Hread. destruct c as [|text|t]; simpl; [reflexivity| |reflexivity].
  rewrite Hread. reflexivity.
Qed.

Lemma usable_ext (read1 read2 : string -> option Z) r :
  (forall text, read1 text = read2 text) ->
  usable read1 r = usable read2 r.
Proof.
  intros Hread. unfold usable, expiration_of.
  rewrite (to_datetime_ext read1 read2 _ Hread). reflexivity.
Qed.

(** The frame without its unusable records is cleaned to the same
    working copy, when its expiration column is read as the column of
    the whole frame is. *)
Lemma parsed_and_cleaned_usable w df :
  (forall text,
      expiration_reader w (df_filter (usable_in w df) df) text
      = expiration_reader w df text) ->
  parsed_and_cleaned w (df_filter (usable_in w df) df) = parsed_and_cleaned w df.
Proof.
  intros Hread.
  assert (Hrows : rows (parsed_and_cleaned w (df_filter (usable_in w df) df))
                  = rows (parsed_and_cleaned w df)).
  { rewrite !parsed_and_cleaned_rows. simpl rows. rewrite filter_filter.
    rewrite (filter_ext _ (usable_in w df)).
    - apply map_ext. intros r. unfold coerce_expiration_date.
      rewrite (to_datetime_ext _ _ _ Hread). reflexivity.
    - intros r. unfold usable_in at 2.
      rewrite (usable_ext _ _ r Hread). fold (usable_in w df r).
      destruct (usable_in w df r); reflexivity. }
  unfold parsed_and_cleaned, to_datetime_expiration_date, dropna, df_assign,
    df_filter in *.
  simpl in *. rewrite Hrows. reflexivity.
Qed.

Lemma df_empty_no_rows df : rows df = [] -> df_empty df = true.
Proof.
  unfold df_empty. intros ->. destruct (columns df); reflexivity.
Qed.

Lemma df_empty_filter p df :
  df_empty df = true -> df_empty (df_filter p df) = true.
Proof.
  unfold df_empty, df_filter. simpl.
  destruct (columns df); [reflexivity|].
  destruct (rows df); [reflexivity|discriminate].
Qed.

Lemma days_ascending_total : total_leb days_ascending.
Proof.
  intros a b. unfold days_ascending. rewrite !Z.leb_le. lia.
Qed.

Lemma days_ascending_transitive : transitive_leb days_ascending.
Proof.
  intros a b c. unfold days_ascending. rewrite !Z.leb_le. lia.
Qed.

(** The rows returned for a frame and for the same frame rid of its
    unusable records are the same, when the expiration columns of both
    are read alike. *)
Lemma expiration_summary_ignores_unusable `{Sorter} r r' h c l w df :
  nth_error h r = Some df ->
  nth_error h r' = Some (df_filter (usable_in w df) df) ->
  (forall text,
      expiration_reader w (df_filter (usable_in w df) df) text
      = expiration_reader w df text) ->
  fst (create_expiration_summary_table r' (mkState h c l w))
  = fst (create_expiration_summary_table r (mkState h c l w)).
Proof.
  intros Hr Hr' Hread.
  rewrite (create_expiration_summary_table_run r h c l w df Hr).
  rewrite (create_expiration_summary_table_run r' h c l w _ Hr').
  rewrite (parsed_and_cleaned_usable w df Hread).
  assert (Hcols : forallb (has_column (df_filter (usable_in w df) df))
                    expiration_columns
                  = forallb (has_column df) expiration_columns) by reflexivity.
  unfold expiration_guard. rewrite Hcols.
  destruct (df_empty df) eqn:He.
  { rewrite (df_empty_filter _ _ He). reflexivity. }
  destruct (forallb (has_column df) expiration_columns); simpl;
    [|rewrite orb_true_r; reflexivity].
  rewrite orb_false_r.
  destruct (df_empty (df_filter (usable_in w df) df)) eqn:He'; [|reflexivity].
  assert (Hnone : filter (usable_in w df) (rows df) = []).
  { unfold df_empty, df_filter in He, He'. simpl in He'.
    destruct (columns df); [discriminate|].
    destruct (filter (usable_in w df) (rows df)); [reflexivity|discriminate]. }
  rewrite df_empty_no_rows
    by (rewrite parsed_and_cleaned_rows, Hnone; reflexivity).
  reflexivity.
Qed.

(** C7.  [create_expiration_summary_table] drops every record whose
    expiration date cannot be read in its column or whose premium is
    missing before it groups: each returned row stands for a non-empty
    group of usable records, those that expire at its timestamp, which
    alone it counts and sums.  The dropped records bear on the table
    through the reading of the column only: the frame without them
    gives the same table whenever its expiration column is read as the
    column of the whole frame is.  The rows come out by ascending days
    to expiry. *)
Theorem expiration_table_drops_and_sorts `{Sorter}
    (options_df_for_period : ref) (s s' : State) (df : DataFrame)
    (table : list ExpirationSummary) :
  nth_error (heap s) options_df_for_period = Some df ->
  create_expiration_summary_table options_df_for_period s = (Ok table, s') ->
  (forall e, In e table ->
     let group := expiring (world s) df (Expiration_Date e) in
     group <> []
     /\ (forall rec, In rec group ->
           In rec (rows df)
           /\ premium_usd rec <> None
           /\ to_datetime (expiration_reader (world s) df) (expiration_date rec)
              = Timestamp (Expiration_Date e))
     /\ Days_to_Expiry e = days_from (clock s / 86400) (Expiration_Date e)
     /\ Total_Premium e = series_sum (map premium_usd group)
     /\ Options_Count e = count (map underlying_ticker group))
  /\ (forall cleaned : ref,
        let kept := df_filter (usable_in (world s) df) df in
        nth_error (heap s) cleaned = Some kept ->
        (forall text, expiration_reader (world s) kept text
                      = expiration_reader (world s) df text) ->
        fst (create_expiration_summary_table cleaned s) = Ok table)
  /\ StronglySorted (fun a b => Days_to_Expiry a <= Days_to_Expiry b) table.
Proof.
  intros Hr Hrun. split; [|split].
  - intros e He.
    destruct (expiration_rows_describe _ _ _ _ _ Hr Hrun e He)
      as [Hne [Hdays [Htotal [_ [Hcount _]]]]].
    cbv zeta. split; [exact Hne|]. split; [|repeat split; assumption].
    intros rec Hrec. unfold expiring in Hrec. apply filter_In in Hrec.
    destruct Hrec as [Hin Hrec]. apply andb_true_iff in Hrec.
    destruct Hrec as [Hu Ht]. split; [exact Hin|].
    unfold usable_in, usable, expiration_of in Hu, Ht.
    destruct (to_datetime (expiration_reader (world s) df) (expiration_date rec))
      as [|text|t]; try discriminate.
    simpl in Ht. apply Z.eqb_eq in Ht. subst t.
    split; [|reflexivity].
    destruct (premium_usd rec); [discriminate|discriminate].
  - intros cleaned kept Hcleaned Hread. destruct s as [h c l w]. simpl in *.
    rewrite (expiration_summary_ignores_unusable _ _ h c l w df Hr Hcleaned
               Hread).
    rewrite Hrun. reflexivity.
  - destruct s as [h c l w]. simpl in Hr.
    rewrite (create_expiration_summary_table_run _ h c l w df Hr) in Hrun.
    destruct (expiration_guard df).
    { injection Hrun as <- _. constructor. }
    cbv zeta in Hrun.
    destruct (df_empty (parsed_and_cleaned w df)).
    { injection Hrun as <- _. constructor. }
    injection Hrun as <- _.
    eapply StronglySorted_impl;
      [|apply (sort_sorted _ days_ascending days_ascending_total
                 days_ascending_transitive)].
    intros a b. unfold days_ascending. apply Z.leb_le.
Qed.

(** Of four records, the one dated "soon" and the one without premium
    are dropped; the two others give two rows, day 20 before day 40,
    and so does the frame without the two dropped records, whose
    expiration column is read alike. *)
Lemma expiration_table_drops_and_sorts_witness :
  fst (create_expiration_summary_table (H := insertion_sorter) 0%nat
         state_with_gaps) = Ok [expiry_day_20; expiry_day_40]
  /\ fst (create_expiration_summary_table (H := insertion_sorter) 1%nat
            state_with_gaps) = Ok [expiry_day_20; expiry_day_40]
  /\ StronglySorted (fun a b => Days_to_Expiry a <= Days_to_Expiry b)
       [expiry_day_20; expiry_day_40].
Proof.
  split; [vm_compute; reflexivity|].
  destruct (expiration_table_drops_and_sorts (H := insertion_sorter)
              0%nat state_with_gaps
              (snd (create_expiration_summary_table (H := insertion_sorter)
                      0%nat state_with_gaps))
              frame_with_gaps [expiry_day_20; expiry_day_40])
    as [_ [Hcleaned Hsorted]].
  - reflexivity.
  - apply (run_fst (create_expiration_summary_table 0%nat)).
    vm_compute. reflexivity.
  - split; [apply Hcleaned; [reflexivity|intros text; reflexivity]
           |exact Hsorted].
Defined.

(* ================================================================= *)
(** ** Total premium against call and put premium *)

Lemma filter_none {A} (p : A -> bool) l :
  (forall x, In x l -> p x = false) -> filter p l = [].
Proof.
  induction l as [|x l IH]; intros Hall; simpl; [reflexivity|].
  rewrite (Hall x) by (left; reflexivity).
  apply IH. intros y Hy. apply Hall. right. exact Hy.
Qed.

(** A sum splits three ways along two tests that exclude each other. *)
Lemma series_sum_three_way (p q : Row -> bool) (l : list Row) :
  (forall r, p r = true -> q r = false) ->
  (series_sum (map premium_usd l)
   == series_sum (map premium_usd (filter p l))
      + series_sum (map premium_usd (filter q l))
      + series_sum (map premium_usd (filter (neither p q) l)))%Q.
Proof.
  intros Hpq.
  rewrite (series_sum_split p l).
  rewrite (series_sum_split q (filter (fun r => negb (p r)) l)).
  rewrite !filter_filter.
  rewrite (filter_ext (fun x => negb (p x) && q x) q).
  - unfold neither. ring.
  - intros r. destruct (p r) eqn:Hp; simpl; [|reflexivity].
    rewrite (Hpq r Hp). reflexivity.
Qed.

Lemma upper_call_excludes_put r :
  option_type_upper_is "CALL" r = true -> option_type_upper_is "PUT" r = false.
Proof.
  unfold option_type_upper_is. destruct (option_type r) as [t|]; [|discriminate].
  rewrite String.eqb_eq. intros ->. reflexivity.
Qed.

Lemma exact_call_excludes_put (r : Row) :
  cell_is "CALL" (option_type r) = true -> cell_is "PUT" (option_type r) = false.
Proof.
  unfold cell_is. destruct (option_type r) as [t|]; [|discriminate].
  simpl. rewrite String.eqb_eq. intros ->. reflexivity.
Qed.

Lemma cell_is_exact label cell : cell_is label cell = true <-> cell = Some label.
Proof. unfold cell_is. apply string_option_eqb_eq. Qed.

(* ================================================================= *)
(** ** Sums that binary64 takes exactly *)

Lemma round_half_even_whole q m : (q == inject_Z m)%Q -> round_half_even q = m.
Proof.
  intros Hq. unfold round_half_even.
  assert (Hf : Qfloor q = m) by (rewrite Hq; apply Qfloor_Z).
  rewrite Hf.
  assert (Hc : (q - inject_Z m ?= 1 # 2)%Q = Lt).
  { rewrite Hq. apply Qlt_alt.
    setoid_replace (inject_Z m - inject_Z m)%Q with 0%Q by ring. reflexivity. }
  rewrite Hc. reflexivity.
Qed.

Lemma pow2_nonpositive k :
  k <= 0 -> (pow2 k * inject_Z (2 ^ (- k)) == 1)%Q.
Proof.
  intros Hk. unfold pow2. destruct (Z.leb_spec 0 k) as [H0|H0].
  - assert (k = 0) by lia. subst k. reflexivity.
  - rewrite Qmult_comm. apply Qmult_inv_r.
    intros Hz. assert (H2 : 0 < 2 ^ (- k)) by (apply Z.pow_pos_nonneg; lia).
    unfold Qeq in Hz. simpl in Hz. lia.
Qed.

(** A whole number below [2^53] in magnitude is a binary64 number. *)
Lemma binary64_whole q n :
  (q == inject_Z n)%Q -> Z.abs n < 2 ^ 53 -> (binary64 q == inject_Z n)%Q.
Proof.
  intros Hq Hn. unfold binary64.
  destruct (Qeq_bool q 0) eqn:Hz.
  - apply Qeq_bool_iff in Hz. rewrite <- Hq, Hz. reflexivity.
  - assert (Hn0 : n <> 0).
    { intros ->. rewrite Hq in Hz. discriminate. }
    assert (Habs : (Qabs q == inject_Z (Z.abs n))%Q).
    { rewrite Hq. reflexivity. }
    assert (Hone : Qle_bool 1 (Qabs q) = true).
    { apply Qle_bool_iff. rewrite Habs.
      change 1%Q with (inject_Z 1). rewrite <- Zle_Qle. lia. }
    unfold binade. rewrite Hone.
    assert (Hfloor : Qfloor (Qabs q) = Z.abs n)
      by (rewrite Habs; apply Qfloor_Z).
    rewrite Hfloor.
    assert (He : 0 <= Z.log2 (Z.abs n) < 53).
    { split; [apply Z.log2_nonneg|]. apply Z.log2_lt_pow2; lia. }
    set (e := Z.log2 (Z.abs n)) in *.
    rewrite Z.max_l by lia.
    set (k := e - 52).
    assert (Hk : k <= 0) by (unfold k; lia).
    pose proof (pow2_nonpositive k Hk) as Hp.
    assert (Hulp : ~ (pow2 k == 0)%Q).
    { intros H0. rewrite H0 in Hp. discriminate. }
    assert (Hdiv : (q / pow2 k == inject_Z (n * 2 ^ (- k)))%Q).
    { rewrite inject_Z_mult, Hq.
      apply (Qmult_inj_r _ _ (pow2 k) Hulp).
      unfold Qdiv. rewrite <- !Qmult_assoc.
      rewrite (Qmult_comm (/ pow2 k)), Qmult_inv_r by exact Hulp.
      rewrite (Qmult_comm (inject_Z (2 ^ (- k)))), Hp. ring. }
    rewrite (round_half_even_whole _ _ Hdiv).
    rewrite inject_Z_mult, <- Qmult_assoc.
    rewrite (Qmult_comm (inject_Z (2 ^ (- k)))), Hp. ring.
Qed.

Lemma whole_inject q : whole q <-> exists n, (q == inject_Z n)%Q.
Proof.
  unfold whole. split.
  - intros Hq. exists (Qfloor q). exact Hq.
  - intros [n Hn]. rewrite Hn at 2. rewrite Qfloor_Z. exact Hn.
Qed.

Lemma magnitude_nonneg (s : list (option Q)) :
  (0 <= series_sum (map (option_map Qabs) s))%Q.
Proof.
  induction s as [|[q|] s IH]; simpl; [apply Qle_refl| |exact IH].
  rewrite <- (Qplus_0_r 0). apply Qplus_le_compat; [apply Qabs_nonneg|exact IH].
Qed.

Lemma exactly_summable_tail c s :
  exactly_summable (c :: s) -> exactly_summable s.
Proof.
  intros [Hw Hm]. split.
  - intros q Hq. apply Hw. right. exact Hq.
  - destruct c as [q|]; cbn [map option_map series_sum] in Hm; [|exact Hm].
    eapply Qle_lt_trans; [|exact Hm].
    rewrite <- (Qplus_0_l (series_sum _)) at 1.
    apply Qplus_le_compat; [apply Qabs_nonneg|apply Qle_refl].
Qed.

(** The exact sum of such a column is a whole number below [2^53] in
    magnitude, and stays so when a whole number [n] is added whose
    magnitude the bound has room for. *)
Lemma exact_sum_whole (s : list (option Q)) :
  (forall q, In (Some q) s -> whole q) ->
  exists m, (series_sum s == inject_Z m)%Q
            /\ (inject_Z (Z.abs m) <= series_sum (map (option_map Qabs) s))%Q.
Proof.
  induction s as [|[q|] s IH]; intros Hw.
  - exists 0. split; [reflexivity|apply Qle_refl].
  - destruct IH as [m [Hm Hb]]; [intros x Hx; apply Hw; right; exact Hx|].
    destruct (proj1 (whole_inject q) (Hw q (or_introl eq_refl))) as [n Hn].
    exists (n + m). simpl. split.
    + rewrite Hn, Hm, inject_Z_plus. reflexivity.
    + eapply Qle_trans;
        [|apply Qplus_le_compat; [apply Qle_refl|exact Hb]].
      rewrite Hn. change (Qabs (inject_Z n)) with (inject_Z (Z.abs n)).
      rewrite <- inject_Z_plus, <- Zle_Qle. lia.
  - destruct IH as [m [Hm Hb]]; [intros x Hx; apply Hw; right; exact Hx|].
    exists m. simpl. split; assumption.
Qed.

(** The plain loop from a whole number [acc], over whole numbers the
    bound has room for, returns the exact sum. *)
Lemma left_to_right_from (s : list (option Q)) :
  forall acc n,
    (acc == inject_Z n)%Q ->
    (forall q, In (Some q) s -> whole q) ->
    (inject_Z (Z.abs n) + series_sum (map (option_map Qabs) s)
     < inject_Z (2 ^ 53))%Q ->
    (fold_left float_add (present s) acc == acc + series_sum s)%Q.
Proof.
  induction s as [|[q|] s IH]; intros acc n Hacc Hw Hm.
  - simpl. ring.
  - simpl present. simpl fold_left. simpl series_sum.
    destruct (proj1 (whole_inject q) (Hw q (or_introl eq_refl))) as [m Hq].
    cbn [map option_map series_sum] in Hm. rewrite Hq in Hm.
    change (Qabs (inject_Z m)) with (inject_Z (Z.abs m)) in Hm.
    assert (Hrest := magnitude_nonneg s).
    assert (Hsum : (acc + q == inject_Z (n + m))%Q)
      by (rewrite Hacc, Hq, inject_Z_plus; reflexivity).
    assert (Hbound : (inject_Z (Z.abs (n + m))
                      + series_sum (map (option_map Qabs) s)
                      < inject_Z (2 ^ 53))%Q).
    { eapply Qle_lt_trans; [|exact Hm].
      rewrite Qplus_assoc. apply Qplus_le_compat; [|apply Qle_refl].
      rewrite <- inject_Z_plus, <- Zle_Qle. lia. }
    assert (Hfloat : (float_add acc q == inject_Z (n + m))%Q).
    { unfold float_add. apply binary64_whole; [exact Hsum|].
      rewrite Zlt_Qlt. eapply Qle_lt_trans; [|exact Hbound].
      rewrite <- (Qplus_0_r (inject_Z _)) at 1.
      apply Qplus_le_compat; [apply Qle_refl|exact Hrest]. }
    rewrite (IH (float_add acc q) (n + m) Hfloat
               (fun x Hx => Hw x (or_intror Hx)) Hbound).
    rewrite Hfloat, <- Hsum. ring.
  - simpl. apply (IH acc n Hacc (fun x Hx => Hw x (or_intror Hx))).
    exact Hm.
Qed.

Lemma left_to_right_exact (s : list (option Q)) :
  exactly_summable s -> (left_to_right s == series_sum s)%Q.
Proof.
  intros [Hw Hm]. unfold left_to_right.
  rewrite (left_to_right_from s 0%Q 0).
  - ring.
  - reflexivity.
  - exact Hw.
  - change (inject_Z (Z.abs 0)) with 0%Q. rewrite Qplus_0_l. exact Hm.
Qed.

#[export] Instance left_to_right_summation : Summation := {
  float_sum := left_to_right;
  float_sum_exact := left_to_right_exact
}.

(** The sums taken through [sum] are the sums of the aggregations when
    [sum] is the exact sum. *)
Lemma premium_sums_with_exact ticker_df :
  premium_sums_with series_sum ticker_df = premium_sums ticker_df.
Proof. reflexivity. Qed.

Lemma aggregate_with_exact key group :
  aggregate_with series_sum key group = aggregate key group.
Proof. reflexivity. Qed.

Lemma magnitude_filter (p : Row -> bool) (l : list Row) :
  (series_sum (map (option_map Qabs) (map premium_usd (filter p l)))
   <= series_sum (map (option_map Qabs) (map premium_usd l)))%Q.
Proof.
  induction l as [|r l IH]; simpl; [apply Qle_refl|].
  destruct (p r); simpl; destruct (premium_usd r); simpl; try exact IH.
  - apply Qplus_le_compat; [apply Qle_refl|exact IH].
  - eapply Qle_trans; [exact IH|].
    rewrite <- (Qplus_0_l (series_sum _)) at 1.
    apply Qplus_le_compat; [apply Qabs_nonneg|apply Qle_refl].
Qed.

Lemma magnitude_where (p : Row -> bool) (l : list Row) :
  (series_sum (map (option_map Qabs)
                 (map (fun r => if p r then premium_usd r else Some 0%Q) l))
   <= series_sum (map (option_map Qabs) (map premium_usd l)))%Q.
Proof.
  induction l as [|r l IH]; simpl; [apply Qle_refl|].
  destruct (p r); simpl; destruct (premium_usd r); simpl.
  - apply Qplus_le_compat; [apply Qle_refl|exact IH].
  - exact IH.
  - apply Qplus_le_compat; [apply Qabs_nonneg|exact IH].
  - rewrite Qplus_0_l. exact IH.
Qed.

Lemma exactly_summable_filter (p : Row -> bool) (l : list Row) :
  exactly_summable (map premium_usd l) ->
  exactly_summable (map premium_usd (filter p l)).
Proof.
  intros [Hw Hm]. split.
  - intros q Hq. apply Hw. apply in_map_iff in Hq.
    destruct Hq as [r [Hr Hin]]. apply filter_In in Hin.
    apply in_map_iff. exists r. split; [exact Hr|apply Hin].
  - eapply Qle_lt_trans; [apply magnitude_filter|exact Hm].
Qed.

Lemma exactly_summable_where (p : Row -> bool) (l : list Row) :
  exactly_summable (map premium_usd l) ->
  exactly_summable (map (fun r => if p r then premium_usd r else Some 0%Q) l).
Proof.
  intros [Hw Hm]. split.
  - intros q Hq. apply in_map_iff in Hq. destruct Hq as [r [Hr Hin]].
    destruct (p r).
    + apply Hw. apply in_map_iff. exists r. split; assumption.
    + injection Hr as <-. unfold whole. reflexivity.
  - eapply Qle_lt_trans; [apply magnitude_where|exact Hm].
Qed.

(** The exact sum of such a column is itself a binary64 number. *)
Lemma exact_sum_is_binary64 (s : list (option Q)) (q : Q) :
  exactly_summable s -> (q == series_sum s)%Q -> (binary64 q == q)%Q.
Proof.
  intros [Hw Hm] Hq. destruct (exact_sum_whole s Hw) as [m [Hs Hb]].
  rewrite Hs in Hq. rewrite Hq at 2. apply binary64_whole; [exact Hq|].
  rewrite Zlt_Qlt. eapply Qle_lt_trans; [exact Hb|exact Hm].
Qed.

(** Three sums over one exactly summable column of premiums: all
    records, the records that pass one of two tests that exclude each
    other, and those that pass the other.  Whatever the summation
    procedure, the first is the two others and the exact premium of the
    records that pass neither test; without such records it is the two
    others, added exactly or as floats. *)
Lemma exact_sums_split `{Summation} (p q : Row -> bool) (l : list Row)
    (total call put : Q) :
  (forall r, p r = true -> q r = false) ->
  exactly_summable (map premium_usd l) ->
  (total == series_sum (map premium_usd l))%Q ->
  (call == series_sum (map premium_usd (filter p l)))%Q ->
  (put == series_sum (map premium_usd (filter q l)))%Q ->
  (total == call + put
            + series_sum (map premium_usd (filter (neither p q) l)))%Q
  /\ ((forall r, In r l -> p r = true \/ q r = true) ->
      (total == call + put)%Q /\ (total == float_add call put)%Q).
Proof.
  intros Hpq Hs Htotal Hcall Hput.
  assert (Hsplit := series_sum_three_way p q l Hpq).
  split.
  - rewrite Htotal, Hcall, Hput. exact Hsplit.
  - intros Hall.
    assert (Hsum : (total == call + put)%Q).
    { rewrite Htotal, Hcall, Hput, Hsplit.
      rewrite (filter_none (neither p q)); [simpl; ring|].
      intros r Hr. unfold neither.
      destruct (Hall r Hr) as [-> | ->]; [reflexivity|].
      apply andb_false_r. }
    split; [exact Hsum|].
    unfold float_add.
    rewrite (exact_sum_is_binary64 (map premium_usd l) (call + put) Hs);
      [exact Hsum|].
    rewrite <- Hsum. exact Htotal.
Qed.

Lemma groupby_agg_rows `{Sorter} w today_date df e :
  In e (groupby_agg (with_derived_columns today_date (parsed_and_cleaned w df))) ->
  e = aggregate (Expiration_Date e, Days_to_Expiry e)
        (working_rows w today_date df (Expiration_Date e)).
Proof.
  unfold groupby_agg. intros He.
  apply in_map_iff in He. destruct He as [key [<- Hkey]].
  apply in_sort in Hkey. apply in_unique in Hkey.
  apply in_present in Hkey. apply in_map_iff in Hkey.
  destruct Hkey as [x [Hx Hin]].
  rewrite rows_of_working_copy in Hin. apply in_map_iff in Hin.
  destruct Hin as [r [<- Hr]].
  rewrite group_key_of_working_row in Hx.
  destruct (expiration_of (expiration_reader w df) r) as [t|]; [|discriminate].
  injection Hx as <-.
  rewrite group_of_working_copy. reflexivity.
Qed.

Lemma expiration_rows_are_aggregates `{Sorter} r s df table s' :
  nth_error (heap s) r = Some df ->
  create_expiration_summary_table r s = (Ok table, s') ->
  forall e, In e table ->
    e = aggregate (Expiration_Date e, Days_to_Expiry e)
          (working_rows (world s) (clock s / 86400) df (Expiration_Date e)).
Proof.
  destruct s as [h c l w]. simpl. intros Hr Hrun e He.
  rewrite (create_expiration_summary_table_run r h c l w df Hr) in Hrun.
  destruct (expiration_guard df).
  { injection Hrun as <- _. destruct He. }
  cbv zeta in Hrun.
  destruct (df_empty (parsed_and_cleaned w df)).
  { injection Hrun as <- _. destruct He. }
  injection Hrun as <- _.
  apply in_sort in He.
  apply groupby_agg_rows. exact He.
Qed.

Lemma premium_column_of_working_rows w today_date df t :
  map premium_usd (working_rows w today_date df t)
  = map premium_usd (expiring w df t).
Proof. unfold working_rows. rewrite map_map. reflexivity. Qed.

Lemma call_column_of_working_rows w today_date df t :
  map call_premium_exp (working_rows w today_date df t)
  = map (fun r => if cell_is "CALL" (option_type r)
                  then premium_usd r else Some 0%Q)
      (expiring w df t).
Proof. unfold working_rows. rewrite map_map. reflexivity. Qed.

Lemma put_column_of_working_rows w today_date df t :
  map put_premium_exp (working_rows w today_date df t)
  = map (fun r => if cell_is "PUT" (option_type r)
                  then premium_usd r else Some 0%Q)
      (expiring w df t).
Proof. unfold working_rows. rewrite map_map. reflexivity. Qed.

(** C4.  The total premium of a row is the sum over all its records,
    its call premium and its put premium the sums over the records the
    routine recognises as calls and as puts: after upper-casing for a
    row per ticker, as written for a row per expiration.  The row of
    the exact embedding and the row of binary64 sums are the same
    computation, at the exact sum and at the library's.  When the
    premiums of the frame are whole numbers whose magnitudes add up to
    less than 2^53, whatever the summation procedure: the binary64
    total is the call premium plus the put premium plus the premium of
    the records recognised as neither; and when every record of the
    row is recognised, it is the call premium plus the put premium,
    added exactly or as floats. *)
Theorem total_is_call_plus_put_when_sums_are_exact `{Sorter} `{Summation}
    (options_df_for_period : ref) (start_date : Z) (s : State)
    (df : DataFrame) :
  nth_error (heap s) options_df_for_period = Some df ->
  has_column df "premium_usd" = true ->
  has_column df "option_type" = true ->
  (forall analysis s' row,
      analyze_ticker_dashboard options_df_for_period start_date s
      = (Ok analysis, s') ->
      In row analysis ->
      let ticker_df := ticker_records df (Ticker row) in
      let records := rows (dropna ["premium_usd"] ticker_df) in
      let sums := premium_sums_with float_sum ticker_df in
      (Total_Activity_Prem row, Total_Call_Vol_Prem row, Total_Put_Vol_Prem row,
       Bullish_Prem row, Bearish_Prem row)
      = premium_sums_with series_sum ticker_df
      /\ total_of sums = float_sum (map premium_usd records)
      /\ call_of sums
         = float_sum (map premium_usd
                        (filter (option_type_upper_is "CALL") records))
      /\ put_of sums
         = float_sum (map premium_usd
                        (filter (option_type_upper_is "PUT") records))
      /\ (exactly_summable (map premium_usd (rows df)) ->
          (total_of sums
           == call_of sums + put_of sums
              + unrecognized_ticker_premium df (Ticker row))%Q
          /\ ((forall rec, In rec records -> recognized_by_upper rec) ->
              (total_of sums == call_of sums + put_of sums)%Q
              /\ (total_of sums == float_add (call_of sums) (put_of sums))%Q)))
  /\
  (forall table s' e,
      create_expiration_summary_table options_df_for_period s = (Ok table, s') ->
      In e table ->
      let key := (Expiration_Date e, Days_to_Expiry e) in
      let records := expiring (world s) df (Expiration_Date e) in
      let group :=
        working_rows (world s) (clock s / 86400) df (Expiration_Date e) in
      let sums := aggregate_with float_sum key group in
      e = aggregate_with series_sum key group
      /\ Total_Premium sums = float_sum (map premium_usd records)
      /\ Call_Premium sums
         = float_sum (map (fun rec => if cell_is "CALL" (option_type rec)
                                      then premium_usd rec else Some 0%Q)
                        records)
      /\ Put_Premium sums
         = float_sum (map (fun rec => if cell_is "PUT" (option_type rec)
                                      then premium_usd rec else Some 0%Q)
                        records)
      /\ (exactly_summable (map premium_usd (rows df)) ->
          (Total_Premium sums
           == Call_Premium sums + Put_Premium sums
              + unrecognized_expiring_premium (world s) df (Expiration_Date e))%Q
          /\ ((forall rec, In rec records -> recognized_exactly rec) ->
              (Total_Premium sums == Call_Premium sums + Put_Premium sums)%Q
              /\ (Total_Premium sums
                  == float_add (Call_Premium sums) (Put_Premium sums))%Q))).
Proof.
  intros Hr Hprem Htype. split.
  - intros analysis s' row Hrun Hrow.
    destruct (analysis_rows_describe _ _ _ _ _ _ Hr Hrun) as [Hall _].
    destruct (Hall row Hrow) as [_ [Hsums _]].
    cbv zeta. split; [exact Hsums|].
    set (ticker_df := ticker_records df (Ticker row)).
    set (cleaned := rows (dropna ["premium_usd"] ticker_df)).
    assert (Hsplit :
              exactly_summable (map premium_usd (rows df)) ->
              (float_sum (map premium_usd cleaned)
               == float_sum (map premium_usd
                               (filter (option_type_upper_is "CALL") cleaned))
                  + float_sum (map premium_usd
                                 (filter (option_type_upper_is "PUT") cleaned))
                  + unrecognized_ticker_premium df (Ticker row))%Q
              /\ ((forall rec, In rec cleaned -> recognized_by_upper rec) ->
                  (float_sum (map premium_usd cleaned)
                   == float_sum (map premium_usd
                                   (filter (option_type_upper_is "CALL") cleaned))
                      + float_sum (map premium_usd
                                     (filter (option_type_upper_is "PUT")
                                        cleaned)))%Q
                  /\ (float_sum (map premium_usd cleaned)
                      == float_add
                           (float_sum (map premium_usd
                                         (filter (option_type_upper_is "CALL")
                                            cleaned)))
                           (float_sum (map premium_usd
                                         (filter (option_type_upper_is "PUT")
                                            cleaned))))%Q)).
    { intros Hexact.
      assert (Hcleaned : exactly_summable (map premium_usd cleaned)).
      { unfold cleaned, ticker_df, dropna, ticker_records, df_filter.
        simpl rows.
        apply exactly_summable_filter, exactly_summable_filter. exact Hexact. }
      apply (exact_sums_split (option_type_upper_is "CALL")
               (option_type_upper_is "PUT") cleaned _ _ _
               upper_call_excludes_put Hcleaned
               (float_sum_exact _ Hcleaned)
               (float_sum_exact _ (exactly_summable_filter _ _ Hcleaned))
               (float_sum_exact _ (exactly_summable_filter _ _ Hcleaned))). }
    unfold premium_sums_with.
    change (has_column ticker_df "premium_usd") with (has_column df "premium_usd").
    change (has_column (dropna ["premium_usd"] ticker_df) "option_type")
      with (has_column df "option_type").
    rewrite Hprem, Htype.
    destruct (has_column (dropna ["premium_usd"] ticker_df) "sentiment");
      unfold total_of, call_of, put_of, premium_where_with; fold cleaned;
      (split; [reflexivity|]); (split; [reflexivity|]);
      (split; [reflexivity|exact Hsplit]).
  - intros table s' e Hrun He. cbv zeta.
    split; [apply (expiration_rows_are_aggregates _ _ _ _ _ Hr Hrun e He)|].
    set (t := Expiration_Date e).
    set (group := expiring (world s) df t).
    unfold aggregate_with. simpl Total_Premium. simpl Call_Premium.
    simpl Put_Premium.
    rewrite premium_column_of_working_rows, call_column_of_working_rows,
      put_column_of_working_rows.
    fold group.
    split; [reflexivity|]. split; [reflexivity|]. split; [reflexivity|].
    intros Hexact.
    assert (Hgroup : exactly_summable (map premium_usd group)).
    { unfold group, expiring. apply exactly_summable_filter. exact Hexact. }
    unfold unrecognized_expiring_premium. fold group.
    assert (Hsplit :=
              exact_sums_split (fun rec => cell_is "CALL" (option_type rec))
                (fun rec => cell_is "PUT" (option_type rec)) group
                (float_sum (map premium_usd group))
                (float_sum (map (fun r => if cell_is "CALL" (option_type r)
                                          then premium_usd r else Some 0%Q)
                              group))
                (float_sum (map (fun r => if cell_is "PUT" (option_type r)
                                          then premium_usd r else Some 0%Q)
                              group))
                exact_call_excludes_put Hgroup).
    destruct Hsplit as [Hthree Htwo].
    + apply float_sum_exact. exact Hgroup.
    + rewrite float_sum_exact by (apply exactly_summable_where; exact Hgroup).
      apply (series_sum_where (fun rec => cell_is "CALL" (option_type rec))).
    + rewrite float_sum_exact by (apply exactly_summable_where; exact Hgroup).
      apply (series_sum_where (fun rec => cell_is "PUT" (option_type rec))).
    + split; [exact Hthree|]. intros Hall. apply Htwo.
      intros r Hr'. destruct (Hall r Hr') as [Hc|Hp]; [left|right];
        apply cell_is_exact; assumption.
Qed.

(** On a call of premium 100 and a put of premium 50 of one ticker and
    one expiration, both binary64 totals are 150 = 100 + 50. *)
Lemma total_is_call_plus_put_when_sums_are_exact_witness :
  fst (run_analysis frame_two_dates) = Ok [row_two_dates]
  /\ fst (run_expiration frame_two_dates) = Ok [expiry_two_dates]
  /\ (total_of sums_of_two_dates
      == float_add (call_of sums_of_two_dates) (put_of sums_of_two_dates))%Q
  /\ (Total_Premium binary64_expiry_two_dates
      == float_add (Call_Premium binary64_expiry_two_dates)
           (Put_Premium binary64_expiry_two_dates))%Q
  /\ (total_of sums_of_two_dates == 150)%Q
  /\ (Total_Premium binary64_expiry_two_dates == 150)%Q.
Proof.
  split; [vm_compute; reflexivity|]. split; [vm_compute; reflexivity|].
  assert (Hexact : exactly_summable (map premium_usd (rows frame_two_dates))).
  { split; [|reflexivity].
    intros q [Hq|[Hq|[]]]; injection Hq as <-; reflexivity. }
  destruct (total_is_call_plus_put_when_sums_are_exact
              (H := insertion_sorter) (H0 := left_to_right_summation)
              0%nat 1 (state_with frame_two_dates) frame_two_dates
              eq_refl eq_refl eq_refl) as [Ha He].
  split.
  - destruct (Ha [row_two_dates] (snd (run_analysis frame_two_dates))
                row_two_dates) as [_ [_ [_ [_ Hrow]]]].
    + apply (run_fst (analyze_ticker_dashboard 0%nat 1)).
      vm_compute. reflexivity.
    + left. reflexivity.
    + refine (proj2 (proj2 (Hrow Hexact) _)).
      intros rec [<-|[<-|[]]]; [left|right]; reflexivity.
  - split.
    + destruct (He [expiry_two_dates] (snd (run_expiration frame_two_dates))
                  expiry_two_dates) as [_ [_ [_ [_ Hrow]]]].
      * apply (run_fst (create_expiration_summary_table 0%nat)).
        vm_compute. reflexivity.
      * left. reflexivity.
      * refine (proj2 (proj2 (Hrow Hexact) _)).
        intros rec [<-|[<-|[]]]; [left|right]; reflexivity.
    + split; vm_compute; reflexivity.
Defined.

(** C4, as stated, fails.  Three records of one ticker, a call and two
    puts, with the premiums written 0.1, 0.2 and 0.3: the total is
    0.6000000000000001, the call premium 0.1 and the put premium 0.5,
    whose sum is 0.6, added exactly or as floats.  And a call written
    'call' is a call for the row per ticker, while the row per
    expiration has total 100 and call premium plus put premium 0. *)
Lemma rounded_total_is_not_call_plus_put :
  option_map (map Ticker) (ok_value (fst (run_analysis frame_tenths)))
  = Some ["NVDA"]
  /\ (forall rec, In rec (rows frame_tenths) -> recognized_exactly rec)
  /\ (total_of sums_of_tenths == 5404319552844596 # 9007199254740992)%Q
  /\ (call_of sums_of_tenths == 3602879701896397 # 36028797018963968)%Q
  /\ (put_of sums_of_tenths == 1 # 2)%Q
  /\ (float_add (call_of sums_of_tenths) (put_of sums_of_tenths)
      == 5404319552844595 # 9007199254740992)%Q
  /\ ~ (total_of sums_of_tenths
        == call_of sums_of_tenths + put_of sums_of_tenths)%Q
  /\ ~ (total_of sums_of_tenths
        == float_add (call_of sums_of_tenths) (put_of sums_of_tenths))%Q
  /\ fst (run_expiration frame_lower_call) = Ok [expiry_lower_call]
  /\ fst (run_analysis frame_lower_call) = Ok [row_lower_call]
  /\ ~ (Total_Premium expiry_lower_call
        == Call_Premium expiry_lower_call + Put_Premium expiry_lower_call)%Q.
Proof.
  split; [vm_compute; reflexivity|]. split.
  { intros rec [<-|[<-|[<-|[]]]]; [left|right|right]; reflexivity. }
  repeat (split; [vm_compute; reflexivity|]).
  split; [intros Heq; vm_compute in Heq; discriminate|].
  split; [intros Heq; vm_compute in Heq; discriminate|].
  split; [vm_compute; reflexivity|]. split; [vm_compute; reflexivity|].
  intros Heq. vm_compute in Heq. discriminate.
Qed.

(* ================================================================= *)
(** ** How the splits compare option type and sentiment *)

(** C9, as the code has it.  [create_expiration_summary_table] splits
    the premium of a group by exact comparison of option type with
    'CALL' and 'PUT' and of sentiment with 'Bullish' and 'Bearish',
    while the total takes every record of the group and the count
    every record of the group that carries a symbol.
    [analyze_ticker_dashboard] compares the sentiment after trimming
    and upper-casing, and the option type after upper-casing only. *)
Theorem splits_compare_as_written `{Sorter}
    (options_df_for_period : ref) (start_date : Z) (s : State)
    (df : DataFrame) :
  nth_error (heap s) options_df_for_period = Some df ->
  has_column df "premium_usd" = true ->
  has_column df "sentiment" = true ->
  has_column df "option_type" = true ->
  (forall table s' e,
      create_expiration_summary_table options_df_for_period s = (Ok table, s') ->
      In e table ->
      describes_expiration (world s) (clock s / 86400) df e)
  /\ (forall label cell, cell_is label cell = true <-> cell = Some label)
  /\ (forall analysis s' row,
        analyze_ticker_dashboard options_df_for_period start_date s
        = (Ok analysis, s') ->
        In row analysis ->
        let records := dropna ["premium_usd"] (ticker_records df (Ticker row)) in
        Bullish_Prem row
        = premium_where
            (fun r => String.eqb
                        (Str.upper (Str.strip (match sentiment r with
                                               | Some text => text
                                               | None => "UNKNOWN"
                                               end)))
                        "BULLISH")
            records
        /\ Bearish_Prem row
           = premium_where
               (fun r => String.eqb
                           (Str.upper (Str.strip (match sentiment r with
                                                  | Some text => text
                                                  | None => "UNKNOWN"
                                                  end)))
                           "BEARISH")
               records
        /\ Total_Call_Vol_Prem row
           = premium_where
               (fun r => match option_type r with
                         | Some text => String.eqb (Str.upper text) "CALL"
                         | None => false
                         end)
               records
        /\ Total_Put_Vol_Prem row
           = premium_where
               (fun r => match option_type r with
                         | Some text => String.eqb (Str.upper text) "PUT"
                         | None => false
                         end)
               records).
Proof.
  intros Hr Hprem Hsent Htype. split; [|split].
  - intros table s' e Hrun He.
    apply (expiration_rows_describe _ _ _ _ _ Hr Hrun e He).
  - apply cell_is_exact.
  - intros analysis s' row Hrun Hrow.
    destruct (analysis_rows_describe _ _ _ _ _ _ Hr Hrun) as [Hall _].
    destruct (Hall row Hrow) as [_ [Hsums _]].
    unfold premium_sums in Hsums.
    change (has_column (ticker_records df (Ticker row)) "premium_usd")
      with (has_column df "premium_usd") in Hsums.
    change (has_column (dropna ["premium_usd"] (ticker_records df (Ticker row)))
              "option_type")
      with (has_column df "option_type") in Hsums.
    change (has_column (dropna ["premium_usd"] (ticker_records df (Ticker row)))
              "sentiment")
      with (has_column df "sentiment") in Hsums.
    rewrite Hprem, Hsent, Htype in Hsums.
    injection Hsums as _ Hcall Hput Hbull Hbear.
    cbv zeta. rewrite Hcall, Hput, Hbull, Hbear.
    repeat split; reflexivity.
Qed.

(** A record with sentiment 'BULLISH': the expiration row counts it in
    total and count and in neither sentiment split; the ticker row
    counts it as bullish. *)
Lemma splits_compare_as_written_witness :
  fst (run_expiration frame_capital_sentiment) = Ok [expiry_capital_sentiment]
  /\ fst (run_analysis frame_capital_sentiment) = Ok [row_capital_sentiment]
  /\ Total_Premium expiry_capital_sentiment = 1000%Q
  /\ Options_Count expiry_capital_sentiment = 1%nat
  /\ Bullish_Premium expiry_capital_sentiment = 0%Q
  /\ Bearish_Premium expiry_capital_sentiment = 0%Q
  /\ Bullish_Prem row_capital_sentiment = 1000%Q
  /\ describes_expiration silent_world 0 frame_capital_sentiment
       expiry_capital_sentiment.
Proof.
  split; [vm_compute; reflexivity|]. split; [vm_compute; reflexivity|].
  repeat (split; [reflexivity|]).
  destruct (splits_compare_as_written (H := insertion_sorter)
              0%nat 1 (state_with frame_capital_sentiment)
              frame_capital_sentiment eq_refl eq_refl eq_refl eq_refl)
    as [He _].
  apply (He [expiry_capital_sentiment]
            (snd (run_expiration frame_capital_sentiment))).
  - apply (run_fst (create_expiration_summary_table 0%nat)).
    vm_compute. reflexivity.
  - left. reflexivity.
Defined.

(** C9, as stated, fails for the option type: a call written 'CALL '
    with a trailing blank has premium 1000, and the ticker row reports
    call premium 0. *)
Lemma padded_option_type_is_not_matched :
  fst (run_analysis frame_padded_type) = Ok [row_padded_type]
  /\ Total_Call_Vol_Prem row_padded_type = 0%Q
  /\ ~ splits_trimmed_caseless frame_padded_type [row_padded_type].
Proof.
  split; [vm_compute; reflexivity|]. split; [reflexivity|].
  intros Hclaim.
  destruct (Hclaim row_padded_type) as [_ [_ [Hcall _]]];
    [left; reflexivity|].
  vm_compute in Hcall. discriminate.
Qed.

(* ================================================================= *)
(** ** The retry of [get_current_price] *)

Lemma price_attempt_run ticker attempt h c l w :
  price_attempt ticker attempt (mkState h c l w) =
    let asked := (l ++ attempt_events w l ticker)%list in
    match attempt_meets w l ticker with
    | Priced price => (Ok (Return price), mkState h c asked w)
    | first =>
        if Nat.eqb attempt 0
        then (Ok Next,
              mkState h (c + retry_delay first)
                      (asked ++ [Sleep (retry_delay first)]) w)
        else (Ok Next, mkState h c asked w)
    end.
Proof.
  unfold price_attempt, try_except, fast_info_get, history_2d, attempt_meets,
    attempt_events, bind, get_state, emit, lift_outcome, ret, raise, sleep.
  simpl.
  destruct (fast_info_last_price w l ticker) as [price|e]; simpl.
  - destruct (truthy price); simpl; [reflexivity|].
    destruct (history_period_2d w (l ++ [FastInfo ticker]) ticker)
      as [[|close tod]|e]; simpl;
      rewrite <- ?app_assoc; simpl;
      destruct (Nat.eqb attempt 0); simpl; rewrite <- ?app_assoc; reflexivity.
  - destruct (Nat.eqb attempt 0); simpl; rewrite <- ?app_assoc; reflexivity.
Qed.

(** C5.  [get_current_price] never raises.  When the first attempt
    gives a price, that price is returned and nothing more is asked.
    When the first attempt is empty or raises, the function sleeps
    once (5 seconds after an empty result, 15 after an exception) and
    makes exactly one more attempt; it returns the price of that
    attempt, and [None] when that attempt is empty or raises too. *)
Theorem get_current_price_retries_once (ticker_symbol : string) (s : State) :
  let w := world s in
  let first := attempt_meets w (log s) ticker_symbol in
  let asked1 := (log s ++ attempt_events w (log s) ticker_symbol)%list in
  let asked2 := (asked1 ++ [Sleep (retry_delay first)])%list in
  let second := attempt_meets w asked2 ticker_symbol in
  (exists price s', get_current_price ticker_symbol s = (Ok price, s'))
  /\ (forall price,
        first = Priced price ->
        get_current_price ticker_symbol s
        = (Ok price, mkState (heap s) (clock s) asked1 w))
  /\ (first = Empty \/ (exists e, first = Failed e) ->
      get_current_price ticker_symbol s
      = (Ok (price_of second),
         mkState (heap s) (clock s + retry_delay first)
                 (asked2 ++ attempt_events w asked2 ticker_symbol) w)
      /\ (retry_delay first = 5 \/ retry_delay first = 15)
      /\ (second = Empty \/ (exists e, second = Failed e) ->
          fst (get_current_price ticker_symbol s) = Ok None)).
Proof.
  destruct s as [h c l w]. cbv zeta. simpl heap. simpl clock. simpl log.
  simpl world.
  assert (Hrun : get_current_price ticker_symbol (mkState h c l w) =
    match attempt_meets w l ticker_symbol with
    | Priced price =>
        (Ok price, mkState h c (l ++ attempt_events w l ticker_symbol) w)
    | first =>
        let asked2 := ((l ++ attempt_events w l ticker_symbol)
                         ++ [Sleep (retry_delay first)])%list in
        (Ok (price_of (attempt_meets w asked2 ticker_symbol)),
         mkState h (c + retry_delay first)
                 (asked2 ++ attempt_events w asked2 ticker_symbol) w)
    end).
  { unfold get_current_price. simpl seq. simpl price_attempts.
    unfold bind at 1. rewrite price_attempt_run. cbv zeta.
    destruct (attempt_meets w l ticker_symbol) as [price| |e] eqn:Hfirst;
      simpl; try reflexivity.
    all: unfold bind at 1; rewrite price_attempt_run; cbv zeta.
    all: simpl retry_delay; clear Hfirst.
    all: destruct (attempt_meets w _ ticker_symbol) as [price2| |e2];
      simpl; reflexivity. }
  rewrite Hrun. split; [|split].
  - destruct (attempt_meets w l ticker_symbol); eexists; eexists; reflexivity.
  - intros price ->. reflexivity.
  - intros Hfirst. split; [|split].
    + destruct Hfirst as [->|[e ->]]; reflexivity.
    + destruct Hfirst as [->|[e ->]]; [left|right]; reflexivity.
    + destruct Hfirst as [->|[e ->]]; cbv zeta; simpl retry_delay; simpl fst;
        intros [->|[e2 ->]]; reflexivity.
Qed.

(** With a provider whose quote is empty and whose history raises, the
    first attempt fails, the function sleeps 15 seconds, asks once
    more and returns [None]. *)
Lemma get_current_price_retries_once_witness :
  get_current_price "NVDA" (mkState [] 0 [] failing_world)
  = (Ok None,
     mkState [] 15
       [FastInfo "NVDA"; HistoryPeriod "NVDA"; Sleep 15;
        FastInfo "NVDA"; HistoryPeriod "NVDA"]
       failing_world).
Proof.
  destruct (get_current_price_retries_once "NVDA"
              (mkState [] 0 [] failing_world)) as [_ [_ Hretry]].
  destruct Hretry as [Hrun _].
  - right. exists (ProviderError "timeout"). reflexivity.
  - exact Hrun.
Defined.

(* ================================================================= *)
(** ** The range query *)

(** A successful query: the connection answers with the table, the
    table carries the three columns the function coerces, and some
    record is in range. *)
Lemma fetch_options_activity_for_range_run `{Sorter}
    start_date end_date h c l w table :
  options_activity w l = Ok table ->
  has_column table "expiration_date" = true ->
  has_column table "data_date" = true ->
  has_column table "premium_usd" = true ->
  filter (where_in_range start_date end_date) (rows table) <> [] ->
  exists df,
    fetch_options_activity_for_range start_date end_date (mkState h c l w)
    = (Ok (List.length h),
       mkState (h ++ [df]) c (l ++ [Query start_date end_date]) w)
    /\ rows df
       = map (normalized
                (expiration_reader w (queried start_date end_date table)))
           (rows (queried start_date end_date table)).
Proof.
  intros Htable Hexp Hdate Hprem Hsome.
  set (frame := queried start_date end_date table).
  assert (Hquery : conn_query start_date end_date (mkState h c l w)
                   = (Ok (List.length h),
                      mkState (h ++ [frame]) c (l ++ [Query start_date end_date]) w)).
  { unfold conn_query, bind, get_state, emit, lift_outcome, alloc, ret.
    simpl. rewrite Htable. reflexivity. }
  assert (Hne : df_empty frame = false).
  { unfold df_empty, frame, queried. simpl.
    destruct (columns table) eqn:Hc; [unfold has_column in Hexp;
                                      rewrite Hc in Hexp; discriminate|].
    destruct (sort order_by_date_ticker _) eqn:Hs; [|reflexivity].
    exfalso. apply Hsome. eapply Permutation_nil.
    rewrite <- Hs. apply Permutation_sym, sort_permutation. }
  exists (df_assign "premium_usd" coerce_premium_usd
            (df_assign "data_date" coerce_data_date
               (to_datetime_expiration_date w frame))).
  split.
  - unfold fetch_options_activity_for_range, try_except.
    rewrite (bind_run _ _ _ _ _ Hquery).
    rewrite (bind_run _ _ _ _ _ (deref_last h c _ w frame)).
    rewrite Hne. simpl negb. cbv iota.
    unfold get_state at 1. unfold bind at 2. cbv beta iota. simpl world.
    assert (Hreq : forall col st, has_column table col = true ->
                                  require_column frame col st = (Ok tt, st)).
    { intros col st Hcol. unfold require_column.
      change (has_column frame col) with (has_column table col).
      rewrite Hcol. reflexivity. }
    unfold bind at 1.
    rewrite (bind_run _ _ _ _ _ (Hreq _ _ Hexp)).
    rewrite (bind_run _ _ _ _ _ (update_last h c _ w _ _)).
    rewrite (bind_run _ _ _ _ _ (Hreq _ _ Hdate)).
    rewrite (bind_run _ _ _ _ _ (update_last h c _ w _ _)).
    rewrite (bind_run _ _ _ _ _ (Hreq _ _ Hprem)).
    rewrite (update_last h c _ w _ _).
    reflexivity.
  - unfold to_datetime_expiration_date, df_assign, normalized. simpl rows.
    rewrite !map_map. reflexivity.
Qed.

(** C8.  The range query is inclusive on both ends: when the
    connection answers and the table carries the columns the function
    coerces, every stored record dated exactly at the start or exactly
    at the end of a range is in the returned frame, in its normalized
    form. *)
Theorem range_query_includes_both_ends `{Sorter}
    (start_date end_date : Z) (s : State) (table : DataFrame) (rec : Row) :
  options_activity (world s) (log s) = Ok table ->
  has_column table "expiration_date" = true ->
  has_column table "data_date" = true ->
  has_column table "premium_usd" = true ->
  start_date <= end_date ->
  In rec (rows table) ->
  data_date rec = Some start_date \/ data_date rec = Some end_date ->
  exists returned df,
    fst (fetch_options_activity_for_range start_date end_date s) = Ok returned
    /\ nth_error
         (heap (snd (fetch_options_activity_for_range start_date end_date s)))
         returned = Some df
    /\ In (normalized
             (expiration_reader (world s) (queried start_date end_date table))
             rec)
          (rows df).
Proof.
  intros Htable Hexp Hdate Hprem Hle Hrec Hbound.
  destruct s as [h c l w]. simpl in *.
  assert (Hin : In rec (filter (where_in_range start_date end_date) (rows table))).
  { apply filter_In. split; [exact Hrec|].
    unfold where_in_range.
    destruct Hbound as [-> | ->]; apply andb_true_iff;
      rewrite Z.geb_le, Z.leb_le; lia. }
  destruct (fetch_options_activity_for_range_run start_date end_date
              h c l w table Htable Hexp Hdate Hprem) as [df [Hrun Hrows]].
  { intros Hnil. rewrite Hnil in Hin. destruct Hin. }
  exists (List.length h), df. rewrite Hrun. simpl.
  split; [reflexivity|]. split; [apply nth_error_last|].
  rewrite Hrows. apply in_map. apply in_sort. exact Hin.
Qed.

(** Of three records dated 5, 7 and 9, the query for the range 5..7
    returns the record dated 5 and the record dated 7. *)
Lemma range_query_includes_both_ends_witness :
  exists returned df,
    fst (fetch_options_activity_for_range (H := insertion_sorter) 5 7
           (mkState [] 0 [] world_with_table)) = Ok returned
    /\ nth_error
         (heap (snd (fetch_options_activity_for_range (H := insertion_sorter)
                       5 7 (mkState [] 0 [] world_with_table))))
         returned = Some df
    /\ In (normalized reads_nothing
             (trade 7 "AAPL" 30 "PUT" "Bearish" 50 None)) (rows df).
Proof.
  apply (range_query_includes_both_ends (H := insertion_sorter) 5 7
           (mkState [] 0 [] world_with_table) stored_table
           (trade 7 "AAPL" 30 "PUT" "Bearish" 50 None)).
  - reflexivity.
  - reflexivity.
  - reflexivity.
  - reflexivity.
  - lia.
  - right. left. reflexivity.
  - right. reflexivity.
Defined.

(* ================================================================= *)
(** ** Worked examples *)

(** Two calls in a row, and a call at another hour of the same day
    with another provider, return the same row. *)
Lemma expiration_grouping_idempotent_witness :
  fst (run_expiration frame_two_dates) = Ok [expiry_two_dates]
  /\ fst (create_expiration_summary_table (H := insertion_sorter) 0%nat
            (snd (run_expiration frame_two_dates)))
     = Ok [expiry_two_dates]
  /\ fst (create_expiration_summary_table (H := insertion_sorter) 0%nat
            (mkState [frame_two_dates] 3600 [FastInfo "NVDA"] failing_world))
     = Ok [expiry_two_dates].
Proof.
  pose proof (expiration_grouping_idempotent (H := insertion_sorter)
                0%nat (state_with frame_two_dates)) as T.
  cbv zeta in T. destruct T as [Hsecond [_ Hother]].
  assert (Hfirst : fst (run_expiration frame_two_dates) = Ok [expiry_two_dates])
    by (vm_compute; reflexivity).
  split; [exact Hfirst|]. split.
  - rewrite <- Hfirst. exact Hsecond.
  - rewrite <- Hfirst. apply (Hother _ frame_two_dates); reflexivity.
Defined.

(** Both routines leave the sample frame where it was; the expiration
    summary has added its working copy to the heap. *)
Example heap_after_aggregation :
  heap (snd (run_analysis frame_two_dates)) = [frame_two_dates]
  /\ nth_error (heap (snd (run_expiration frame_two_dates))) 0
     = Some frame_two_dates
  /\ List.length (heap (snd (run_expiration frame_two_dates))) = 2%nat.
Proof. repeat split; vm_compute; reflexivity. Qed.

(** The scenario of the specification: NVDA, premium 1000, call,
    bullish, capitalisation 1e9.  The bullish score is 1/10 in exact
    arithmetic; on floats the division and the multiplication round,
    and the score is 0.09999999999999999, one step below the float
    written 0.1. *)
Example nvda_scenario :
  exists row,
    fst (run_analysis
           (mkDataFrame table_columns
              [trade 1 "NVDA" 30 "CALL" "Bullish" 1000 (Some 1000000000%Q)]))
    = Ok [row]
    /\ Total_Activity_Prem row = 1000%Q
    /\ Total_Call_Vol_Prem row = 1000%Q
    /\ Total_Put_Vol_Prem row = 0%Q
    /\ (Bullish_MCap_Score row == 1 # 10)%Q
    /\ (Bearish_MCap_Score row == 0)%Q
    /\ (mcap_score_binary64 (Bullish_Prem row) 1000000000
        == 7205759403792793 # 72057594037927936)%Q
    /\ (binary64 (1 # 10) == 7205759403792794 # 72057594037927936)%Q.
Proof.
  eexists. split; [vm_compute; reflexivity|].
  repeat split; vm_compute; reflexivity.
Qed.

(** The scenario of the specification: no record, no row. *)
Example empty_input_scenario :
  fst (run_analysis (mkDataFrame table_columns [])) = Ok []
  /\ fst (run_expiration (mkDataFrame table_columns [])) = Ok [].
Proof. split; vm_compute; reflexivity. Qed.

(** What the column holds bears on how its texts are read.  With
    "soon" first no format is inferred and both dates are read; without
    the record dated "soon", which is dropped anyway, the format is
    that of the first date and the other date is not read. *)
Example dropped_record_bears_on_reading :
  fst (create_expiration_summary_table (H := insertion_sorter) 0%nat
         state_mixed_formats)
  = Ok [mkExpirationSummary (midnight 20790) 20790 10 1 10 0 10 0 1;
        mkExpirationSummary (midnight 20791) 20791 5 1 5 0 5 0 1]
  /\ fst (create_expiration_summary_table (H := insertion_sorter) 1%nat
            state_mixed_formats)
     = Ok [mkExpirationSummary (midnight 20790) 20790 10 1 10 0 10 0 1].
Proof. split; vm_compute; reflexivity. Qed.

(** A record without symbol is in the total of its group and not in
    its count. *)
Example missing_symbol_is_not_counted :
  fst (run_expiration frame_missing_symbol)
  = Ok [mkExpirationSummary (midnight 30) 30 1000 0 1000 0 1000 0 0].
Proof. vm_compute. reflexivity. Qed.

(** A missing symbol next to a symbol cannot be ordered. *)
Example missing_symbol_cannot_be_sorted :
  fst (run_analysis
         (mkDataFrame table_columns
            [trade 1 "NVDA" 30 "CALL" "Bullish" 10 None;
             mkRow (Some 1) None (Timestamp (midnight 30)) (Some "CALL")
                   (Some "Bullish") (Some 5%Q) None None None None None None]))
  = Raise TypeError.
Proof. vm_compute. reflexivity. Qed.

Example upper_and_strip :
  Str.upper "nvda" = "NVDA"
  /\ Str.strip "  Bullish " = "Bullish"
  /\ Str.strip "   " = ""
  /\ sentiment_series (trade 1 "NVDA" 30 "CALL" " bullish " 1 None) = "BULLISH".
Proof. repeat split; reflexivity. Qed.

(* ================================================================= *)
(** ** The capitalisation cache of [get_market_cap_st] *)

Lemma dict_get_set_same {V} key (v : V) d :
  dict_get key (dict_set key v d) = Some v.
Proof. unfold dict_set. simpl. rewrite String.eqb_refl. reflexivity. Qed.

Lemma dict_get_filter_other {V} key key' (d : dict V) :
  key <> key' ->
  dict_get key' (filter (fun kv => negb (String.eqb key (fst kv))) d)
  = dict_get key' d.
Proof.
  intros Hne. induction d as [|[k v] d IH]; simpl; [reflexivity|].
  destruct (String.eqb_spec key k) as [->|Hk]; simpl.
  - destruct (String.eqb_spec key' k) as [->|_]; [congruence|exact IH].
  - rewrite IH. reflexivity.
Qed.

Lemma dict_get_set_other {V} key key' (v : V) d :
  key <> key' -> dict_get key' (dict_set key v d) = dict_get key' d.
Proof.
  intros Hne. unfold dict_set. simpl.
  destruct (String.eqb_spec key' key) as [->|_]; [congruence|].
  apply dict_get_filter_other. exact Hne.
Qed.

Lemma Qpositive_lt m : Qpositive m = true -> (0 < m)%Q.
Proof.
  unfold Qpositive. rewrite negb_true_iff. intros Hm.
  apply Qnot_le_lt. intros Hle. apply Qle_bool_iff in Hle. congruence.
Qed.

Lemma cache_sound_set key value cache :
  cache_sound cache ->
  (forall m, value = Some m -> (0 < m)%Q) ->
  cache_sound (dict_set key value cache).
Proof.
  intros Hc Hv k m. destruct (String.eqb_spec key k) as [->|Hne].
  - rewrite dict_get_set_same. intros Hm. injection Hm as ->.
    apply Hv. reflexivity.
  - rewrite dict_get_set_other by exact Hne. apply Hc.
Qed.

(** What a call that misses the cache stores is what it returns, and it
    is absent or positive. *)
Lemma get_market_cap_st_miss yf_info text st :
  Str.truthy text = true ->
  dict_get (Str.upper text) (market_cap_cache st) = None ->
  exists value,
    get_market_cap_st yf_info (Some text) st
    = cache_and_return (Str.upper text) value st
    /\ forall m, value = Some m -> (0 < m)%Q.
Proof.
  intros Ht Hmiss. unfold get_market_cap_st. rewrite Ht, Hmiss. simpl.
  destruct (yf_info (info_asked st) (Str.upper text)) as [[[|entry info]|]|e].
  - exists None. split; [reflexivity|discriminate].
  - destruct (match dict_get "marketCap" (entry :: info) with
              | Some value => value
              | None => None
              end) as [m|].
    + destruct (Qpositive m) eqn:Hm.
      * exists (Some m). split; [reflexivity|].
        intros m' Hm'. injection Hm' as <-. apply Qpositive_lt. exact Hm.
      * exists None. split; [reflexivity|discriminate].
    + exists None. split; [reflexivity|discriminate].
  - exists None. split; [reflexivity|discriminate].
  - exists None. split; [reflexivity|discriminate].
Qed.

(** X1.  [get_market_cap_st] returns a positive capitalisation or
    [None], and keeps its cache free of anything else: when every
    cached capitalisation is positive before a call, the same holds
    after it and of the value returned, whatever the provider answers
    (a capitalisation of zero or below, no capitalisation, an empty or
    missing [.info], an exception). *)
Theorem market_cap_is_positive_or_absent (yf_info : info_provider)
    (ticker_symbol : option string) (st : CapState) :
  cache_sound (market_cap_cache st) ->
  let result := get_market_cap_st yf_info ticker_symbol st in
  cache_sound (market_cap_cache (snd result))
  /\ forall m, fst result = Some m -> (0 < m)%Q.
Proof.
  intros Hc. cbv zeta.
  destruct ticker_symbol as [text|]; [|split; [exact Hc|discriminate]].
  destruct (Str.truthy text) eqn:Ht.
  - destruct (dict_get (Str.upper text) (market_cap_cache st))
      as [cached|] eqn:Hget.
    + unfold get_market_cap_st. rewrite Ht, Hget. simpl.
      split; [exact Hc|]. intros m ->. apply (Hc _ _ Hget).
    + destruct (get_market_cap_st_miss yf_info text st Ht Hget)
        as [value [-> Hv]].
      simpl. split; [|exact Hv].
      apply cache_sound_set; assumption.
  - unfold get_market_cap_st. rewrite Ht. simpl.
    split; [exact Hc|discriminate].
Qed.

(** A provider that reports a capitalisation of 500: the first call
    returns it and caches it under the upper-cased symbol. *)
Lemma market_cap_is_positive_or_absent_witness :
  get_market_cap_st steady_info (Some "nvda") (mkCapState [] [])
  = (Some 500%Q, mkCapState [("NVDA", Some 500%Q)] ["NVDA"])
  /\ cache_sound [("NVDA", Some 500%Q)]
  /\ (0 < 500)%Q.
Proof.
  split; [reflexivity|].
  destruct (market_cap_is_positive_or_absent steady_info (Some "nvda")
              (mkCapState [] [])) as [Hcache Hvalue].
  - intros key m Hget. discriminate.
  - split; [exact Hcache|]. apply Hvalue. reflexivity.
Defined.

Lemma upper_truthy text : Str.truthy (Str.upper text) = Str.truthy text.
Proof. destruct text; reflexivity. Qed.

(** X2.  [get_market_cap_st] asks the provider at most once per symbol,
    letter case apart: after a call for a non-empty symbol, a call for
    any spelling of it returns the same value and asks nothing, whatever
    the provider would answer now.  This holds of a failed lookup too:
    the absence it cached is what later calls return. *)
Theorem market_cap_lookup_is_memoized (yf_info later_info : info_provider)
    (text text' : string) (st : CapState) :
  Str.truthy text = true ->
  Str.upper text' = Str.upper text ->
  let first := get_market_cap_st yf_info (Some text) st in
  get_market_cap_st later_info (Some text') (snd first)
  = (fst first, snd first).
Proof.
  intros Ht Hsame. cbv zeta.
  assert (Ht' : Str.truthy text' = true).
  { rewrite <- upper_truthy, Hsame, upper_truthy. exact Ht. }
  assert (Hcached :
            dict_get (Str.upper text)
              (market_cap_cache (snd (get_market_cap_st yf_info (Some text) st)))
            = Some (fst (get_market_cap_st yf_info (Some text) st))).
  { destruct (dict_get (Str.upper text) (market_cap_cache st))
      as [cached|] eqn:Hget.
    - unfold get_market_cap_st. rewrite Ht, Hget. simpl. exact Hget.
    - destruct (get_market_cap_st_miss yf_info text st Ht Hget)
        as [value [-> _]].
      simpl. apply dict_get_set_same. }
  unfold get_market_cap_st at 1. rewrite Ht', Hsame, Hcached. reflexivity.
Qed.

(** The first request for "nvda" raises; the call for "NVDA" that
    follows returns [None] from the cache although the provider would
    now report 500, and it asks nothing. *)
Lemma market_cap_lookup_is_memoized_witness :
  get_market_cap_st flaky_info (Some "nvda") (mkCapState [] [])
  = (None, mkCapState [("NVDA", None)] ["NVDA"])
  /\ get_market_cap_st flaky_info (Some "NVDA")
       (mkCapState [("NVDA", None)] ["NVDA"])
     = (None, mkCapState [("NVDA", None)] ["NVDA"])
  /\ flaky_info ["NVDA"] "NVDA" = Ok (Some [("marketCap", Some 500%Q)]).
Proof.
  split; [reflexivity|]. split; [|reflexivity].
  apply (market_cap_lookup_is_memoized flaky_info flaky_info "nvda" "NVDA"
           (mkCapState [] [])); reflexivity.
Defined.

(* ================================================================= *)
(** ** The date range of the store and the range query *)

Lemma list_min_spec l m :
  list_min l = Some m -> In m l /\ forall x, In x l -> m <= x.
Proof.
  revert m. induction l as [|y l IH]; intros m; simpl; [discriminate|].
  destruct (list_min l) as [m'|] eqn:Hl.
  - intros Hm. injection Hm as <-. destruct (IH m' eq_refl) as [Hin Hle].
    split.
    + destruct (Z.min_spec y m') as [[_ ->]|[_ ->]]; [left|right]; auto.
    + intros x [<-|Hx]; [lia|]. specialize (Hle x Hx). lia.
  - intros Hm. injection Hm as <-. destruct l; [|simpl in Hl;
      destruct (list_min l); discriminate].
    split; [left; reflexivity|]. intros x [<-|[]]. lia.
Qed.

Lemma list_max_spec l m :
  list_max l = Some m -> In m l /\ forall x, In x l -> x <= m.
Proof.
  revert m. induction l as [|y l IH]; intros m; simpl; [discriminate|].
  destruct (list_max l) as [m'|] eqn:Hl.
  - intros Hm. injection Hm as <-. destruct (IH m' eq_refl) as [Hin Hle].
    split.
    + destruct (Z.max_spec y m') as [[_ ->]|[_ ->]]; [right|left]; auto.
    + intros x [<-|Hx]; [lia|]. specialize (Hle x Hx). lia.
  - intros Hm. injection Hm as <-. destruct l; [|simpl in Hl;
      destruct (list_max l); discriminate].
    split; [left; reflexivity|]. intros x [<-|[]]. lia.
Qed.

Lemma list_min_none l : list_min l = None <-> l = [].
Proof.
  destruct l as [|x l]; simpl; [tauto|].
  destruct (list_min l); split; discriminate.
Qed.

Lemma list_max_none l : list_max l = None <-> l = [].
Proof.
  destruct l as [|x l]; simpl; [tauto|].
  destruct (list_max l); split; discriminate.
Qed.

(** What [get_db_date_range] returns, by what the connection answers. *)
Lemma get_db_date_range_run s :
  get_db_date_range s =
    (Ok (match options_activity (world s) (log s) with
         | Ok table =>
             if has_column table "data_date"
             then (list_min (present (map data_date (rows table))),
                   list_max (present (map data_date (rows table))))
             else (None, None)
         | Raise _ => (None, None)
         end), s).
Proof.
  unfold get_db_date_range, try_except, query_min_max, bind, get_state,
    lift_outcome, ret, raise.
  destruct (options_activity (world s) (log s)) as [table|e]; [|reflexivity].
  destruct (has_column table "data_date"); reflexivity.
Qed.

(** X3.  [get_db_date_range] never raises and changes nothing.  When
    the connection answers, the two dates it returns are data dates of
    stored records and enclose the data date of every stored record;
    they are both [None] when no record is dated.  When the connection
    raises, both are [None]. *)
Theorem db_date_range_encloses_the_store (s : State) :
  exists min_db_date max_db_date,
    get_db_date_range s = (Ok (min_db_date, max_db_date), s)
    /\ (min_db_date = None <-> max_db_date = None)
    /\ (forall table,
          options_activity (world s) (log s) = Ok table ->
          has_column table "data_date" = true ->
          (forall rec d,
              In rec (rows table) -> data_date rec = Some d ->
              exists a b,
                min_db_date = Some a /\ max_db_date = Some b /\ a <= d <= b)
          /\ (forall a, min_db_date = Some a ->
                exists rec, In rec (rows table) /\ data_date rec = Some a)
          /\ (forall b, max_db_date = Some b ->
                exists rec, In rec (rows table) /\ data_date rec = Some b))
    /\ ((exists e, options_activity (world s) (log s) = Raise e) ->
        min_db_date = None /\ max_db_date = None).
Proof.
  rewrite get_db_date_range_run.
  destruct (options_activity (world s) (log s)) as [table|e] eqn:Htable.
  - destruct (has_column table "data_date") eqn:Hcol.
    + set (dates := present (map data_date (rows table))).
      exists (list_min dates), (list_max dates).
      split; [reflexivity|]. split; [|split].
      * rewrite list_min_none, list_max_none. tauto.
      * intros table' Heq _. injection Heq as <-. split; [|split].
        -- intros rec d Hrec Hd.
           assert (Hin : In d dates).
           { apply in_present. rewrite <- Hd. apply in_map. exact Hrec. }
           destruct (list_min dates) as [a|] eqn:Ha;
             [|apply list_min_none in Ha; rewrite Ha in Hin; destruct Hin].
           destruct (list_max dates) as [b|] eqn:Hb;
             [|apply list_max_none in Hb; rewrite Hb in Hin; destruct Hin].
           exists a, b. split; [reflexivity|]. split; [reflexivity|].
           destruct (list_min_spec _ _ Ha) as [_ Hlo].
           destruct (list_max_spec _ _ Hb) as [_ Hhi].
           split; [apply Hlo|apply Hhi]; exact Hin.
        -- intros a Ha. destruct (list_min_spec _ _ Ha) as [Hin _].
           apply in_present, in_map_iff in Hin.
           destruct Hin as [rec [Hd Hrec]]. exists rec. split; assumption.
        -- intros b Hb. destruct (list_max_spec _ _ Hb) as [Hin _].
           apply in_present, in_map_iff in Hin.
           destruct Hin as [rec [Hd Hrec]]. exists rec. split; assumption.
      * intros [e He]. discriminate.
    + exists None, None. split; [reflexivity|]. split; [tauto|]. split.
      * intros table' Heq Hcol'. injection Heq as <-. congruence.
      * intros _. split; reflexivity.
  - exists None, None. split; [reflexivity|]. split; [tauto|]. split.
    + intros table Heq. discriminate.
    + intros _. split; reflexivity.
Qed.

Lemma require_column_run df col st :
  require_column df col st
  = if has_column df col then (Ok tt, st) else (Raise (KeyError col), st).
Proof. unfold require_column. destruct (has_column df col); reflexivity. Qed.

Lemma alloc_after h c l w x df :
  alloc df (mkState (h ++ [x]) c l w)
  = (Ok (S (List.length h)), mkState (h ++ [x; df]) c l w).
Proof.
  unfold alloc. simpl. rewrite length_app, <- app_assoc. simpl.
  rewrite Nat.add_1_r. reflexivity.
Qed.

(** Every way a call of [fetch_options_activity_for_range] can go: the
    connection raises; the result of the query is empty; one of the
    three coerced columns is missing, which the [except] clause turns
    into an empty frame; all three are coerced. *)
Lemma fetch_options_activity_for_range_cases `{Sorter}
    start_date end_date h c l w :
  fetch_options_activity_for_range start_date end_date (mkState h c l w) =
    let asked := (l ++ [Query start_date end_date])%list in
    match options_activity w l with
    | Raise _ => (Ok (List.length h), mkState (h ++ [empty_frame]) c asked w)
    | Ok table =>
        let frame := queried start_date end_date table in
        let frame1 := to_datetime_expiration_date w frame in
        let frame2 := df_assign "data_date" coerce_data_date frame1 in
        let frame3 := df_assign "premium_usd" coerce_premium_usd frame2 in
        if df_empty frame
        then (Ok (List.length h), mkState (h ++ [frame]) c asked w)
        else if negb (has_column table "expiration_date")
        then (Ok (S (List.length h)),
              mkState (h ++ [frame; empty_frame]) c asked w)
        else if negb (has_column table "data_date")
        then (Ok (S (List.length h)),
              mkState (h ++ [frame1; empty_frame]) c asked w)
        else if negb (has_column table "premium_usd")
        then (Ok (S (List.length h)),
              mkState (h ++ [frame2; empty_frame]) c asked w)
        else (Ok (List.length h), mkState (h ++ [frame3]) c asked w)
    end.
Proof.
  cbv zeta.
  destruct (options_activity w l) as [table|e] eqn:Htable.
  - set (frame := queried start_date end_date table).
    assert (Hquery : conn_query start_date end_date (mkState h c l w)
                     = (Ok (List.length h),
                        mkState (h ++ [frame]) c
                                (l ++ [Query start_date end_date]) w)).
    { unfold conn_query, bind, get_state, emit, lift_outcome, alloc, ret.
      simpl. rewrite Htable. reflexivity. }
    unfold fetch_options_activity_for_range, try_except.
    rewrite (bind_run _ _ _ _ _ Hquery).
    rewrite (bind_run _ _ _ _ _ (deref_last h c _ w frame)).
    destruct (df_empty frame); [reflexivity|].
    simpl negb. cbv iota.
    unfold get_state at 1. unfold bind at 2. cbv beta iota. simpl world.
    unfold bind at 1.
    change (has_column table "expiration_date")
      with (has_column frame "expiration_date").
    change (has_column table "data_date") with (has_column frame "data_date").
    change (has_column table "premium_usd")
      with (has_column frame "premium_usd").
    unfold bind at 1. rewrite require_column_run.
    destruct (has_column frame "expiration_date"); simpl negb; cbv iota;
      [|apply alloc_after].
    rewrite (bind_run _ _ _ _ _ (update_last h c _ w _ _)).
    unfold bind at 1. rewrite require_column_run.
    destruct (has_column frame "data_date"); simpl negb; cbv iota;
      [|apply alloc_after].
    rewrite (bind_run _ _ _ _ _ (update_last h c _ w _ _)).
    unfold bind at 1. rewrite require_column_run.
    destruct (has_column frame "premium_usd"); simpl negb; cbv iota;
      [|apply alloc_after].
    rewrite (update_last h c _ w _ _). reflexivity.
  - unfold fetch_options_activity_for_range, try_except, conn_query, bind,
      get_state, emit, lift_outcome, alloc, ret, raise.
    simpl. rewrite Htable. reflexivity.
Qed.

Lemma nth_error_extend2 {A} (h : list A) x y r a :
  nth_error h r = Some a -> nth_error (h ++ [x; y]) r = Some a.
Proof.
  intros Hr. rewrite nth_error_app1; [exact Hr|].
  apply nth_error_Some. congruence.
Qed.

Lemma nth_error_second_last {A} (h : list A) x y :
  nth_error (h ++ [x; y]) (S (List.length h)) = Some y.
Proof. induction h as [|z h IH]; simpl; [reflexivity|exact IH]. Qed.

(** X4.  [fetch_options_activity_for_range] never raises: it returns a
    new frame and leaves the frames that exist as they are.  When the
    connection raises, and when the table lacks one of the three
    columns the function coerces, the frame returned is empty. *)
Theorem fetch_degrades_to_an_empty_frame `{Sorter}
    (start_date end_date : Z) (s : State) :
  let run := fetch_options_activity_for_range start_date end_date s in
  exists returned df,
    fst run = Ok returned
    /\ nth_error (heap (snd run)) returned = Some df
    /\ (List.length (heap s) <= returned)%nat
    /\ (forall r old, nth_error (heap s) r = Some old ->
                      nth_error (heap (snd run)) r = Some old)
    /\ ((exists e, options_activity (world s) (log s) = Raise e) ->
        df = empty_frame)
    /\ (forall table col,
          options_activity (world s) (log s) = Ok table ->
          In col ["expiration_date"; "data_date"; "premium_usd"] ->
          has_column table col = false ->
          df_empty df = true).
Proof.
  destruct s as [h c l w]. cbv zeta.
  rewrite fetch_options_activity_for_range_cases. cbv zeta. simpl heap.
  simpl world. simpl log.
  destruct (options_activity w l) as [table|e].
  - set (frame := queried start_date end_date table).
    destruct (df_empty frame) eqn:He.
    { exists (List.length h), frame. simpl.
      split; [reflexivity|]. split; [apply nth_error_last|].
      split; [lia|]. split; [intros r old; apply nth_error_some_extend|].
      split; [intros [e He']; discriminate|].
      intros table' col Heq _ _. exact He. }
    destruct (has_column table "expiration_date") eqn:H1; simpl negb; cbv iota.
    2:{ exists (S (List.length h)), empty_frame. simpl fst. simpl snd. simpl heap.
        split; [reflexivity|]. split; [apply nth_error_second_last|].
        split; [lia|]. split; [intros r old; apply nth_error_extend2|].
        split; [reflexivity|]. intros; reflexivity. }
    destruct (has_column table "data_date") eqn:H2; simpl negb; cbv iota.
    2:{ exists (S (List.length h)), empty_frame. simpl fst. simpl snd. simpl heap.
        split; [reflexivity|]. split; [apply nth_error_second_last|].
        split; [lia|]. split; [intros r old; apply nth_error_extend2|].
        split; [reflexivity|]. intros; reflexivity. }
    destruct (has_column table "premium_usd") eqn:H3; simpl negb; cbv iota.
    2:{ exists (S (List.length h)), empty_frame. simpl fst. simpl snd. simpl heap.
        split; [reflexivity|]. split; [apply nth_error_second_last|].
        split; [lia|]. split; [intros r old; apply nth_error_extend2|].
        split; [reflexivity|]. intros; reflexivity. }
    eexists (List.length h), _. simpl fst. simpl snd. simpl heap.
    split; [reflexivity|]. split; [apply nth_error_last|].
    split; [lia|]. split; [intros r old; apply nth_error_some_extend|].
    split; [intros [e He']; discriminate|].
    intros table' col Heq Hcol Hmissing. injection Heq as <-.
    destruct Hcol as [<-|[<-|[<-|[]]]]; congruence.
  - exists (List.length h), empty_frame. simpl.
    split; [reflexivity|]. split; [apply nth_error_last|].
    split; [lia|]. split; [intros r old; apply nth_error_some_extend|].
    split; [reflexivity|]. intros table col Heq. discriminate.
Qed.

Lemma normalized_cells read rec :
  data_date (normalized read rec) = data_date rec
  /\ premium_usd (normalized read rec) <> None
  /\ forall text, expiration_date (normalized read rec) <> RawDate text.
Proof.
  unfold normalized, coerce_premium_usd, coerce_data_date,
    coerce_expiration_date, to_numeric_fillna0, to_datetime.
  simpl. split; [reflexivity|]. split.
  - destruct (premium_usd rec); discriminate.
  - intros text. destruct (expiration_date rec) as [|raw|t];
      [discriminate| |discriminate].
    destruct (read raw); discriminate.
Qed.

Lemma in_range_iff start_date end_date rec :
  where_in_range start_date end_date rec = true
  <-> exists d, data_date rec = Some d /\ start_date <= d <= end_date.
Proof.
  unfold where_in_range. destruct (data_date rec) as [d|].
  - rewrite andb_true_iff, Z.geb_le, Z.leb_le. split.
    + intros [Ha Hb]. exists d. split; [reflexivity|lia].
    + intros [d' [Hd Hr]]. injection Hd as <-. lia.
  - split; [discriminate|]. intros [d [Hd _]]. discriminate.
Qed.

(** X5.  The frame [fetch_options_activity_for_range] returns holds
    stored records only, each dated within the range asked; when the
    frame has columns, every record in it has a premium (a missing one
    became 0) and an expiration date that is a date or missing, never
    text. *)
Theorem fetched_records_are_in_range_and_coerced `{Sorter}
    (start_date end_date : Z) (s : State) :
  let run := fetch_options_activity_for_range start_date end_date s in
  exists returned df,
    fst run = Ok returned
    /\ nth_error (heap (snd run)) returned = Some df
    /\ forall row, In row (rows df) ->
         (exists d, data_date row = Some d /\ start_date <= d <= end_date)
         /\ (exists table rec,
               options_activity (world s) (log s) = Ok table
               /\ In rec (rows table)
               /\ (row = rec
                   \/ row = normalized
                              (expiration_reader (world s)
                                 (queried start_date end_date table))
                              rec))
         /\ (columns df <> [] ->
             premium_usd row <> None
             /\ forall text, expiration_date row <> RawDate text).
Proof.
  destruct s as [h c l w]. cbv zeta.
  rewrite fetch_options_activity_for_range_cases. cbv zeta.
  simpl world. simpl log.
  assert (Hempty : forall (P : Row -> Prop) row, In row (rows empty_frame) -> P row)
    by (intros P row []).
  destruct (options_activity w l) as [table|e].
  - set (frame := queried start_date end_date table).
    assert (Hframe : forall rec, In rec (rows frame) ->
                       In rec (rows table)
                       /\ where_in_range start_date end_date rec = true).
    { intros rec Hrec. unfold frame in Hrec. simpl in Hrec.
      apply in_sort in Hrec. apply filter_In in Hrec. exact Hrec. }
    destruct (df_empty frame) eqn:He.
    { exists (List.length h), frame. simpl fst. simpl snd. simpl heap.
      split; [reflexivity|]. split; [apply nth_error_last|].
      intros row Hrow. destruct (Hframe row Hrow) as [Hin Hrange].
      split; [apply in_range_iff; exact Hrange|]. split.
      - exists table, row. split; [reflexivity|]. split; [exact Hin|].
        left. reflexivity.
      - intros Hcols. exfalso. unfold df_empty in He.
        destruct (columns frame); [congruence|].
        destruct (rows frame); [destruct Hrow|discriminate]. }
    destruct (has_column table "expiration_date"); simpl negb; cbv iota.
    2:{ exists (S (List.length h)), empty_frame. simpl fst. simpl snd. simpl heap.
        split; [reflexivity|]. split; [apply nth_error_second_last|].
        apply Hempty. }
    destruct (has_column table "data_date"); simpl negb; cbv iota.
    2:{ exists (S (List.length h)), empty_frame. simpl fst. simpl snd. simpl heap.
        split; [reflexivity|]. split; [apply nth_error_second_last|].
        apply Hempty. }
    destruct (has_column table "premium_usd"); simpl negb; cbv iota.
    2:{ exists (S (List.length h)), empty_frame. simpl fst. simpl snd. simpl heap.
        split; [reflexivity|]. split; [apply nth_error_second_last|].
        apply Hempty. }
    eexists (List.length h), _. simpl fst. simpl snd. simpl heap.
    split; [reflexivity|]. split; [apply nth_error_last|].
    intros row Hrow. unfold to_datetime_expiration_date, df_assign in Hrow.
    simpl rows in Hrow.
    rewrite !map_map in Hrow. apply in_map_iff in Hrow.
    destruct Hrow as [rec [<- Hrec]].
    destruct (Hframe rec Hrec) as [Hin Hrange].
    fold (normalized (expiration_reader w frame) rec).
    destruct (normalized_cells (expiration_reader w frame) rec)
      as [Hd [Hp Ht]].
    split; [rewrite Hd; apply in_range_iff; exact Hrange|]. split.
    + exists table, rec. split; [reflexivity|]. split; [exact Hin|].
      right. reflexivity.
    + intros _. split; assumption.
  - exists (List.length h), empty_frame. simpl fst. simpl snd. simpl heap.
    split; [reflexivity|]. split; [apply nth_error_last|]. apply Hempty.
Qed.

(** X6.  The range [get_db_date_range] reports is wide enough: when the
    table carries the coerced columns, querying from the minimum to the
    maximum date it returned gives back every stored record that has a
    data date. *)
Theorem full_range_returns_every_dated_record `{Sorter}
    (s : State) (table : DataFrame) (min_db_date max_db_date : Z) (rec : Row) :
  options_activity (world s) (log s) = Ok table ->
  has_column table "expiration_date" = true ->
  has_column table "data_date" = true ->
  has_column table "premium_usd" = true ->
  get_db_date_range s = (Ok (Some min_db_date, Some max_db_date), s) ->
  In rec (rows table) ->
  data_date rec <> None ->
  let run := fetch_options_activity_for_range min_db_date max_db_date s in
  exists returned df,
    fst run = Ok returned
    /\ nth_error (heap (snd run)) returned = Some df
    /\ In (normalized
             (expiration_reader (world s)
                (queried min_db_date max_db_date table))
             rec)
          (rows df).
Proof.
  intros Htable Hexp Hdate Hprem Hrange Hrec Hdated. cbv zeta.
  rewrite get_db_date_range_run, Htable, Hdate in Hrange.
  injection Hrange as Hmin Hmax.
  destruct (data_date rec) as [d|] eqn:Hd; [|congruence].
  assert (Hin : In d (present (map data_date (rows table)))).
  { apply in_present. rewrite <- Hd. apply in_map. exact Hrec. }
  destruct (list_min_spec _ _ Hmin) as [_ Hlo].
  destruct (list_max_spec _ _ Hmax) as [_ Hhi].
  assert (Hkeep : In rec (filter (where_in_range min_db_date max_db_date)
                            (rows table))).
  { apply filter_In. split; [exact Hrec|]. apply in_range_iff.
    exists d. split; [exact Hd|]. split; [apply Hlo|apply Hhi]; exact Hin. }
  destruct s as [h c l w]. simpl in *.
  destruct (fetch_options_activity_for_range_run min_db_date max_db_date
              h c l w table Htable Hexp Hdate Hprem) as [df [Hrun Hrows]].
  { intros Hnil. rewrite Hnil in Hkeep. destruct Hkeep. }
  exists (List.length h), df. rewrite Hrun. simpl.
  split; [reflexivity|]. split; [apply nth_error_last|].
  rewrite Hrows. apply in_map. apply in_sort. exact Hkeep.
Qed.

(** The store of three records dated 5, 7 and 9: the range is 5..9 and
    the query over it returns the record dated 7. *)
Lemma full_range_returns_every_dated_record_witness :
  get_db_date_range (mkState [] 0 [] world_with_table)
  = (Ok (Some 5, Some 9), mkState [] 0 [] world_with_table)
  /\ exists returned df,
       fst (fetch_options_activity_for_range (H := insertion_sorter) 5 9
              (mkState [] 0 [] world_with_table)) = Ok returned
       /\ nth_error
            (heap (snd (fetch_options_activity_for_range
                          (H := insertion_sorter) 5 9
                          (mkState [] 0 [] world_with_table))))
            returned = Some df
       /\ In (normalized reads_nothing
                (trade 7 "AAPL" 30 "PUT" "Bearish" 50 None)) (rows df).
Proof.
  split; [reflexivity|].
  apply (full_range_returns_every_dated_record (H := insertion_sorter)
           (mkState [] 0 [] world_with_table) stored_table 5 9
           (trade 7 "AAPL" 30 "PUT" "Bearish" 50 None)).
  - reflexivity.
  - reflexivity.
  - reflexivity.
  - reflexivity.
  - reflexivity.
  - right. left. reflexivity.
  - discriminate.
Defined.

(* ================================================================= *)
(** ** The page *)

(** Case analysis on the integer comparisons of a goal, innermost
    first. *)
Ltac split_comparisons :=
  repeat match goal with
    | |- context [if ?c then _ else _] =>
        lazymatch c with
        | context [if _ then _ else _] => fail
        | _ => idtac
        end;
        let E := fresh "E" in
        destruct c eqn:E
    end;
  rewrite ?Z.gtb_ltb in *;
  repeat match goal with
    | H : (_ <? _) = true |- _ => apply Z.ltb_lt in H
    | H : (_ <? _) = false |- _ => apply Z.ltb_ge in H
    end.

(** X7.  The two date pickers are always given consistent arguments,
    whatever the store reports and whatever day it is: the lower bound
    is not above the upper bound, the initial date lies between them,
    and for every start date chosen between the bounds the value of the
    end picker lies between that start and the upper bound.  When the
    store's range is sound and not in the future, the pickers start at
    the most recent data date and reach back to the earliest. *)
Theorem date_pickers_stay_within_bounds
    (min_overall_db_date max_overall_db_date : option Z) (today : Z) :
  let upper := calendar_max_boundary today in
  let lower := calendar_min_boundary min_overall_db_date today in
  let initial := initial_default_date max_overall_db_date lower upper in
  lower <= upper
  /\ lower <= initial <= upper
  /\ (forall selected_start_date,
        lower <= selected_start_date <= upper ->
        selected_start_date
        <= final_default_end_val initial selected_start_date upper
        <= upper)
  /\ (forall a b,
        min_overall_db_date = Some a -> max_overall_db_date = Some b ->
        a <= b <= today ->
        lower = a /\ initial = b).
Proof.
  cbv zeta.
  unfold calendar_min_boundary, calendar_max_boundary, initial_default_date,
    final_default_end_val.
  destruct min_overall_db_date as [a|], max_overall_db_date as [b|].
  all: repeat split; intros; split_comparisons;
    repeat match goal with
      | H : Some _ = Some _ |- _ => injection H as ?
      | H : None = Some _ |- _ => discriminate H
      end; subst; lia.
Qed.

Lemma select_view_run searched h c l w r df :
  nth_error h r = Some df ->
  select_view r searched (mkState h c l w) =
    if (Str.truthy searched && has_column df "underlying_ticker")%bool
    then (Ok (S (List.length h)),
          mkState (h ++ [df; df_filter (ticker_upper_is searched) df]) c l w)
    else (Ok (List.length h), mkState (h ++ [df]) c l w).
Proof.
  intros Hr. unfold select_view.
  rewrite (bind_run _ _ _ _ _ (copy_run h c l w r df Hr)).
  destruct (Str.truthy searched); [|reflexivity].
  rewrite (bind_run _ _ _ _ _ (deref_last h c l w df)).
  simpl andb. destruct (has_column df "underlying_ticker"); [|reflexivity].
  apply alloc_after.
Qed.

(** X8.  Searching a symbol narrows the view, not the fetched frame:
    the view is a new frame with the records whose symbol is the
    searched one up to letter case, the fetched frame stays as it was,
    and every row [analyze_ticker_dashboard] then makes of the view
    carries a symbol that upper-cases to the searched one. *)
Theorem search_narrows_the_view `{Sorter}
    (options_data : ref) (searched : string) (start_date : Z) (s : State)
    (df : DataFrame) :
  nth_error (heap s) options_data = Some df ->
  Str.truthy searched = true ->
  has_column df "underlying_ticker" = true ->
  let selection := select_view options_data searched s in
  exists view_data,
    fst selection = Ok view_data
    /\ view_data <> options_data
    /\ nth_error (heap (snd selection)) options_data = Some df
    /\ nth_error (heap (snd selection)) view_data
       = Some (df_filter (ticker_upper_is searched) df)
    /\ forall analysis s' row,
         analyze_ticker_dashboard view_data start_date (snd selection)
         = (Ok analysis, s') ->
         In row analysis ->
         Str.upper (Ticker row) = searched.
Proof.
  intros Hr Hq Hcol. destruct s as [h c l w]. simpl in Hr. cbv zeta.
  rewrite (select_view_run searched h c l w _ df Hr), Hq, Hcol. simpl.
  exists (S (List.length h)).
  assert (Hlt : (options_data < List.length h)%nat)
    by (apply nth_error_Some; congruence).
  split; [reflexivity|]. split; [lia|].
  split; [apply nth_error_extend2; exact Hr|].
  split; [apply nth_error_second_last|].
  intros analysis s' row Hrun Hrow.
  assert (Hview :
            nth_error
              (heap (mkState (h ++ [df; df_filter (ticker_upper_is searched) df])
                             c l w))
              (S (List.length h))
            = Some (df_filter (ticker_upper_is searched) df))
    by apply nth_error_second_last.
  destruct (analysed_ticker_has_record _ _ _ _ _ _ _ Hview Hrun Hrow)
    as [_ [_ [rec [Hrec Ht]]]].
  unfold df_filter in Hrec. simpl in Hrec.
  apply filter_In in Hrec. destruct Hrec as [_ Hmatch].
  unfold ticker_upper_is in Hmatch. rewrite Ht in Hmatch.
  apply String.eqb_eq. exact Hmatch.
Qed.

(** Searching "NVDA" in the frame with "NVDA" and "nvda" keeps both
    records in the view and leaves the frame where it was. *)
Lemma search_narrows_the_view_witness :
  exists view_data,
    fst (select_view 0%nat "NVDA" (state_with frame_case_variants))
    = Ok view_data
    /\ view_data <> 0%nat
    /\ nth_error
         (heap (snd (select_view 0%nat "NVDA" (state_with frame_case_variants))))
         0 = Some frame_case_variants
    /\ nth_error
         (heap (snd (select_view 0%nat "NVDA" (state_with frame_case_variants))))
         view_data
       = Some (df_filter (ticker_upper_is "NVDA") frame_case_variants).
Proof.
  destruct (search_narrows_the_view (H := insertion_sorter) 0%nat "NVDA" 1
              (state_with frame_case_variants) frame_case_variants
              eq_refl eq_refl eq_refl)
    as [view_data [Hview [Hne [Hkept [Hnarrow _]]]]].
  exists view_data. repeat split; assumption.
Defined.

Lemma score_descending_total : total_leb score_descending.
Proof.
  intros a b. unfold score_descending. rewrite !Qle_bool_iff.
  destruct (Qlt_le_dec (Bullish_MCap_Score a) (Bullish_MCap_Score b)) as [Hlt|Hle].
  - right. apply Qlt_le_weak. exact Hlt.
  - left. exact Hle.
Qed.

Lemma score_descending_transitive : transitive_leb score_descending.
Proof.
  intros a b c. unfold score_descending. rewrite !Qle_bool_iff.
  intros Hab Hbc. eapply Qle_trans; eassumption.
Qed.

Lemma StronglySorted_app_inv {A} (R : A -> A -> Prop) l1 l2 :
  StronglySorted R (l1 ++ l2) ->
  StronglySorted R l1 /\ forall a b, In a l1 -> In b l2 -> R a b.
Proof.
  induction l1 as [|x l1 IH]; simpl; intros Hs.
  - split; [constructor|]. intros a b [].
  - apply StronglySorted_inv in Hs. destruct Hs as [Hs Hall].
    destruct (IH Hs) as [Hs1 Hcross]. split.
    + constructor; [exact Hs1|].
      apply Forall_forall. intros y Hy. rewrite Forall_forall in Hall.
      apply Hall. apply in_or_app. left. exact Hy.
    + intros a b [<-|Ha] Hb.
      * rewrite Forall_forall in Hall. apply Hall.
        apply in_or_app. right. exact Hb.
      * apply Hcross; assumption.
Qed.

(** X9.  The bar chart shows the tickers with the highest bullish
    scores: it has [top_n_Score] rows, or all rows when there are fewer;
    its rows are in descending order of score; and the rows of the
    analysis are the rows shown together with rows left out, none of
    which scores above a row shown. *)
Theorem chart_shows_the_highest_scores `{Sorter}
    (top_n_Score : nat) (ticker_analysis_df : list TickerSummary) :
  let shown := top_tickers_chart top_n_Score ticker_analysis_df in
  List.length shown = Nat.min top_n_Score (List.length ticker_analysis_df)
  /\ StronglySorted
       (fun a b => (Bullish_MCap_Score b <= Bullish_MCap_Score a)%Q) shown
  /\ exists left_out,
       Permutation ticker_analysis_df (shown ++ left_out)
       /\ forall a b,
            In a shown -> In b left_out ->
            (Bullish_MCap_Score b <= Bullish_MCap_Score a)%Q.
Proof.
  cbv zeta. unfold top_tickers_chart.
  set (sorted := sort score_descending ticker_analysis_df).
  assert (Hperm : Permutation ticker_analysis_df sorted)
    by apply sort_permutation.
  assert (Hsorted : StronglySorted
                      (fun a b => (Bullish_MCap_Score b <= Bullish_MCap_Score a)%Q)
                      sorted).
  { eapply StronglySorted_impl;
      [|apply (sort_sorted _ score_descending score_descending_total
                 score_descending_transitive)].
    intros a b. unfold score_descending. apply Qle_bool_iff. }
  rewrite <- (firstn_skipn top_n_Score sorted) in Hsorted.
  destruct (StronglySorted_app_inv _ _ _ Hsorted) as [Hshown Hcross].
  split; [|split].
  - rewrite length_firstn. rewrite (Permutation_length Hperm). reflexivity.
  - exact Hshown.
  - exists (skipn top_n_Score sorted). split; [|exact Hcross].
    rewrite firstn_skipn. exact Hperm.
Qed.

(* ================================================================= *)
(** ** Nothing is lost and nothing is counted twice *)

Lemma filter_all {A} (p : A -> bool) l :
  (forall x, In x l -> p x = true) -> filter p l = l.
Proof.
  induction l as [|x l IH]; intros Hall; simpl; [reflexivity|].
  rewrite (Hall x) by (left; reflexivity). f_equal.
  apply IH. intros y Hy. apply Hall. right. exact Hy.
Qed.

(** A count splits along any test. *)
Lemma count_split (p : Row -> bool) (l : list Row) :
  count (map underlying_ticker l)
  = (count (map underlying_ticker (filter p l))
     + count (map underlying_ticker (filter (fun r => negb (p r)) l)))%nat.
Proof.
  unfold count. induction l as [|r l IH]; simpl; [reflexivity|].
  destruct (p r); simpl; destruct (underlying_ticker r); simpl; lia.
Qed.

(** The records whose key is among distinct keys are counted once by
    the counts taken key by key. *)
Lemma count_by_groups {K} (eqb : K -> K -> bool) (keyof : Row -> option K)
    (l : list Row) :
  (forall x y, eqb x y = true <-> x = y) ->
  forall keys,
    NoDup keys ->
    list_sum (map (fun k => count
                              (map underlying_ticker
                                 (filter (fun r => option_eqb eqb (keyof r) (Some k))
                                    l)))
                keys)
    = count (map underlying_ticker
               (filter (fun r => match keyof r with
                                 | Some k => existsb (eqb k) keys
                                 | None => false
                                 end) l)).
Proof.
  intros Heqb. induction keys as [|k keys IH]; intros Hnd.
  - simpl. rewrite filter_none; [reflexivity|].
    intros r _. destruct (keyof r); reflexivity.
  - inversion Hnd as [|k' keys' Hk Hnd']; subst.
    change (list_sum (map ?f (k :: keys)))
      with (f k + list_sum (map f keys))%nat.
    rewrite (IH Hnd').
    rewrite (count_split (fun r => option_eqb eqb (keyof r) (Some k))
               (filter (fun r => match keyof r with
                                 | Some k0 => existsb (eqb k0) (k :: keys)
                                 | None => false
                                 end) l)).
    rewrite !filter_filter.
    rewrite (filter_ext
               (fun x => match keyof x with
                         | Some k0 => existsb (eqb k0) (k :: keys)
                         | None => false
                         end && option_eqb eqb (keyof x) (Some k))
               (fun r => option_eqb eqb (keyof r) (Some k))).
    2:{ intros r. destruct (keyof r) as [k0|]; simpl; [|reflexivity].
        destruct (eqb k0 k); simpl; rewrite ?andb_false_r; reflexivity. }
    rewrite (filter_ext
               (fun x => match keyof x with
                         | Some k0 => existsb (eqb k0) (k :: keys)
                         | None => false
                         end && negb (option_eqb eqb (keyof x) (Some k)))
               (fun r => match keyof r with
                         | Some k0 => existsb (eqb k0) keys
                         | None => false
                         end)).
    2:{ intros r. destruct (keyof r) as [k0|]; simpl; [|reflexivity].
        destruct (eqb k0 k) eqn:E; simpl.
        - apply Heqb in E. subst k0. symmetry.
          destruct (existsb (eqb k) keys) eqn:Hex; [|reflexivity].
          exfalso. apply Hk. apply (existsb_eqb_in eqb Heqb). exact Hex.
        - rewrite andb_true_r. reflexivity. }
    reflexivity.
Qed.

Lemma key_eqb_eq k1 k2 : key_eqb k1 k2 = true <-> k1 = k2.
Proof.
  destruct k1 as [a b], k2 as [c d]. unfold key_eqb. simpl.
  rewrite andb_true_iff, !Z.eqb_eq. split.
  - intros [-> ->]. reflexivity.
  - intros Heq. injection Heq as -> ->. split; reflexivity.
Qed.

Lemma NoDup_map_injective_on {A B} (f : A -> B) l :
  (forall x y, In x l -> In y l -> f x = f y -> x = y) ->
  NoDup l -> NoDup (map f l).
Proof.
  intros Hinj Hnd. induction Hnd as [|x l Hx Hnd IH]; simpl; constructor.
  - intros Hin. apply in_map_iff in Hin. destruct Hin as [y [Hy Hin]].
    assert (y = x) by (apply Hinj; [right; exact Hin|left; reflexivity|exact Hy]).
    subst y. contradiction.
  - apply IH. intros a b Ha Hb. apply Hinj; right; assumption.
Qed.

(** The keys of the groups of the working copy: distinct, each made of
    the expiration timestamp of a usable record and its whole days
    from today, and every usable record has its key among them. *)
Lemma group_keys_of_working_copy `{Sorter} w today_date df :
  let working := rows (with_derived_columns today_date (parsed_and_cleaned w df)) in
  let keys := sort key_leb (unique key_eqb (present (map group_key working))) in
  NoDup keys
  /\ (forall key, In key keys ->
        exists rec, In rec (rows df) /\ usable_in w df rec = true
                    /\ expiration_of (expiration_reader w df) rec = Some (fst key)
                    /\ snd key = days_from today_date (fst key))
  /\ (forall rec t, In rec (rows df) -> usable_in w df rec = true ->
                    expiration_of (expiration_reader w df) rec = Some t ->
                    In (t, days_from today_date t) keys).
Proof.
  cbv zeta.
  destruct (unique_from_spec key_eqb key_eqb_eq
              (present (map group_key
                          (rows (with_derived_columns today_date
                                   (parsed_and_cleaned w df))))) [])
    as [Hnd Hin].
  fold (unique key_eqb
          (present (map group_key
                      (rows (with_derived_columns today_date
                               (parsed_and_cleaned w df)))))) in Hnd, Hin.
  split; [|split].
  - eapply Permutation_NoDup; [apply sort_permutation|exact Hnd].
  - intros key Hkey. apply in_sort in Hkey. apply Hin in Hkey.
    destruct Hkey as [Hkey _]. apply in_present, in_map_iff in Hkey.
    destruct Hkey as [x [Hx Hxin]].
    rewrite rows_of_working_copy in Hxin. apply in_map_iff in Hxin.
    destruct Hxin as [rec [<- Hrec]]. apply filter_In in Hrec.
    destruct Hrec as [Hrec Hu].
    rewrite group_key_of_working_row in Hx.
    destruct (expiration_of (expiration_reader w df) rec) as [t|] eqn:Ht;
      [|discriminate].
    injection Hx as <-. exists rec. simpl. repeat split; assumption.
  - intros rec t Hrec Hu Ht. apply in_sort. apply Hin. split; [|intros []].
    apply in_present. apply in_map_iff.
    exists (derived_columns today_date
              (coerce_expiration_date (expiration_reader w df) rec)).
    split.
    + rewrite group_key_of_working_row, Ht. reflexivity.
    + rewrite rows_of_working_copy.
      apply (in_map (fun r => derived_columns today_date
                                (coerce_expiration_date
                                   (expiration_reader w df) r))).
      apply filter_In. split; assumption.
Qed.

Lemma usable_has_expiration read rec :
  usable read rec = true -> exists t, expiration_of read rec = Some t.
Proof.
  unfold usable. destruct (expiration_of read rec) as [t|]; [|discriminate].
  intros _. exists t. reflexivity.
Qed.

Lemma groupby_agg_accounts `{Sorter} w today_date df :
  let groups :=
    groupby_agg (with_derived_columns today_date (parsed_and_cleaned w df)) in
  NoDup (map Expiration_Date groups)
  /\ (forall rec, In rec (rows df) -> usable_in w df rec = true ->
        exists e, In e groups
                  /\ expiration_of (expiration_reader w df) rec
                     = Some (Expiration_Date e))
  /\ list_sum (map Options_Count groups)
     = count (map underlying_ticker (filter (usable_in w df) (rows df))).
Proof.
  cbv zeta. unfold groupby_agg.
  destruct (group_keys_of_working_copy w today_date df)
    as [Hnd [Hkeys Hcover]].
  cbv zeta in Hnd, Hkeys, Hcover.
  set (working := rows (with_derived_columns today_date
                          (parsed_and_cleaned w df))) in *.
  set (keys := sort key_leb (unique key_eqb (present (map group_key working))))
    in *.
  split; [|split].
  - rewrite map_map. simpl. apply NoDup_map_injective_on; [|exact Hnd].
    intros [a b] [a' b'] Hk Hk' Heq. simpl in Heq. subst a'.
    destruct (Hkeys _ Hk) as [_ [_ [_ [_ Hb]]]].
    destruct (Hkeys _ Hk') as [_ [_ [_ [_ Hb']]]].
    simpl in Hb, Hb'. congruence.
  - intros rec Hrec Hu. destruct (usable_has_expiration _ rec Hu) as [t Ht].
    exists (aggregate (t, days_from today_date t)
              (filter (in_group (t, days_from today_date t)) working)).
    split; [|exact Ht].
    apply (in_map (fun key => aggregate key (filter (in_group key) working))).
    apply (Hcover rec t Hrec Hu Ht).
  - rewrite map_map.
    rewrite (map_ext _ (fun k => count
                                   (map underlying_ticker
                                      (filter (fun r => option_eqb key_eqb
                                                          (group_key r) (Some k))
                                         working))))
      by reflexivity.
    rewrite (count_by_groups key_eqb group_key working key_eqb_eq keys Hnd).
    rewrite filter_all.
    + unfold working. rewrite rows_of_working_copy, map_map. reflexivity.
    + intros x Hx. unfold working in Hx. rewrite rows_of_working_copy in Hx.
      apply in_map_iff in Hx. destruct Hx as [rec [<- Hrec]].
      apply filter_In in Hrec. destruct Hrec as [Hrec Hu].
      destruct (usable_has_expiration _ rec Hu) as [t Ht].
      rewrite group_key_of_working_row, Ht.
      apply (existsb_eqb_in key_eqb key_eqb_eq).
      apply (Hcover rec t Hrec Hu Ht).
Qed.

(** X10.  For a frame that carries the five columns, the expiration
    summary accounts for every usable record exactly once: no
    expiration timestamp has two rows, every usable record has the row
    of its expiration timestamp, and the record counts of the rows add
    up to the number of usable records that carry a symbol. *)
Theorem expiration_table_accounts_for_usable_records `{Sorter}
    (options_df_for_period : ref) (s s' : State) (df : DataFrame)
    (table : list ExpirationSummary) :
  nth_error (heap s) options_df_for_period = Some df ->
  forallb (has_column df) expiration_columns = true ->
  create_expiration_summary_table options_df_for_period s = (Ok table, s') ->
  NoDup (map Expiration_Date table)
  /\ (forall rec, In rec (rows df) -> usable_in (world s) df rec = true ->
        exists e, In e table
                  /\ expiration_of (expiration_reader (world s) df) rec
                     = Some (Expiration_Date e))
  /\ list_sum (map Options_Count table)
     = count (map underlying_ticker (filter (usable_in (world s) df) (rows df))).
Proof.
  intros Hr Hcols Hrun. destruct s as [h c l w]. simpl heap in Hr.
  simpl world.
  rewrite (create_expiration_summary_table_run _ h c l w df Hr) in Hrun.
  assert (Hnone : filter (usable_in w df) (rows df) = [] ->
                  NoDup (map Expiration_Date (@nil ExpirationSummary))
                  /\ (forall rec, In rec (rows df) -> usable_in w df rec = true ->
                        exists e, In e []
                                  /\ expiration_of (expiration_reader w df) rec
                                     = Some (Expiration_Date e))
                  /\ list_sum (map Options_Count [])
                     = count (map underlying_ticker
                                (filter (usable_in w df) (rows df)))).
  { intros Hnil. split; [constructor|]. split.
    - intros rec Hrec Hu. exfalso.
      assert (Hin : In rec (filter (usable_in w df) (rows df)))
        by (apply filter_In; split; assumption).
      rewrite Hnil in Hin. destruct Hin.
    - rewrite Hnil. reflexivity. }
  assert (Hcolumns : columns df <> []).
  { intros Hc. unfold expiration_columns, has_column in Hcols.
    rewrite Hc in Hcols. discriminate. }
  unfold expiration_guard in Hrun. rewrite Hcols in Hrun. simpl negb in Hrun.
  rewrite orb_false_r in Hrun.
  destruct (df_empty df) eqn:He.
  { injection Hrun as <- _. apply Hnone.
    unfold df_empty in He. destruct (columns df); [congruence|].
    destruct (rows df); [reflexivity|discriminate]. }
  cbv zeta in Hrun.
  destruct (df_empty (parsed_and_cleaned w df)) eqn:He'.
  { injection Hrun as <- _. apply Hnone.
    assert (Hrows := parsed_and_cleaned_rows w df).
    unfold df_empty in He'.
    assert (Hc : columns (parsed_and_cleaned w df) <> []).
    { unfold parsed_and_cleaned, to_datetime_expiration_date, dropna,
        df_filter, df_assign. simpl.
      destruct (has_column df "expiration_date"); [exact Hcolumns|].
      destruct (columns df); discriminate. }
    destruct (columns (parsed_and_cleaned w df)); [congruence|].
    destruct (rows (parsed_and_cleaned w df)); [|discriminate].
    destruct (filter (usable_in w df) (rows df)); [reflexivity|discriminate]. }
  injection Hrun as <- _.
  destruct (groupby_agg_accounts w (c / 86400) df) as [Hnd [Hcover Hsum]].
  cbv zeta in Hnd, Hcover, Hsum.
  split; [|split].
  - eapply Permutation_NoDup; [|exact Hnd].
    apply Permutation_map. apply sort_permutation.
  - intros rec Hrec Hu. destruct (Hcover rec Hrec Hu) as [e [He1 He2]].
    exists e. split; [apply in_sort; exact He1|exact He2].
  - rewrite <- Hsum. apply Permutation_list_sum. apply Permutation_map.
    apply Permutation_sym. apply sort_permutation.
Qed.

(** Three records that expire on day 30, two at midnight and one at
    16:00: the timestamps differ, so there are two rows, both 30 days
    away, and their counts add up to three. *)
Lemma expiration_table_accounts_for_usable_records_witness :
  fst (run_expiration frame_same_day) = Ok [expiry_midnight; expiry_afternoon]
  /\ NoDup (map Expiration_Date [expiry_midnight; expiry_afternoon])
  /\ list_sum (map Options_Count [expiry_midnight; expiry_afternoon]) = 3%nat
  /\ map Days_to_Expiry [expiry_midnight; expiry_afternoon] = [30; 30].
Proof.
  split; [vm_compute; reflexivity|].
  destruct (expiration_table_accounts_for_usable_records
              (H := insertion_sorter) 0%nat (state_with frame_same_day)
              (snd (run_expiration frame_same_day)) frame_same_day
              [expiry_midnight; expiry_afternoon])
    as [Hnd [_ Hsum]].
  - reflexivity.
  - reflexivity.
  - apply (run_fst (create_expiration_summary_table 0%nat)).
    vm_compute. reflexivity.
  - split; [exact Hnd|]. split; [rewrite Hsum|]; reflexivity.
Defined.

(* ================================================================= *)
(** ** The analysis under a failing provider *)

Lemma get_current_price_shape ticker h c l w :
  exists price c' l',
    get_current_price ticker (mkState h c l w)
    = (Ok price, mkState h c' l' w)
    /\ c <= c' <= c + 15.
Proof.
  unfold get_current_price. simpl seq. simpl price_attempts.
  unfold bind at 1. rewrite price_attempt_run. cbv zeta.
  destruct (attempt_meets w l ticker) as [price| |e]; simpl.
  - eexists. eexists. eexists. split; [reflexivity|lia].
  - unfold bind at 1. rewrite price_attempt_run. cbv zeta.
    destruct (attempt_meets w _ ticker) as [price2| |e2]; simpl;
      eexists; eexists; eexists; (split; [reflexivity|lia]).
  - unfold bind at 1. rewrite price_attempt_run. cbv zeta.
    destruct (attempt_meets w _ ticker) as [price2| |e2]; simpl;
      eexists; eexists; eexists; (split; [reflexivity|lia]).
Qed.

Lemma sort_not_nil `{Sorter} {A} (leb : A -> A -> bool) l :
  l <> [] -> sort leb l <> [].
Proof.
  intros Hne Hnil. apply Hne. apply Permutation_nil.
  rewrite <- Hnil. apply Permutation_sym, sort_permutation.
Qed.

Lemma market_cap_to_use_total `{Sorter} ticker_df st :
  has_column ticker_df "data_date" = true ->
  exists cap, market_cap_to_use ticker_df st = (Ok cap, st).
Proof.
  intros Hdate. unfold market_cap_to_use.
  destruct (df_empty ticker_df) eqn:He; simpl.
  { exists None. reflexivity. }
  destruct (has_column ticker_df "market_cap_ingested").
  2:{ exists None. reflexivity. }
  unfold bind. rewrite require_column_run, Hdate.
  destruct (sort data_date_descending (rows ticker_df)) as [|latest rest] eqn:Hs.
  { exfalso. apply (sort_not_nil data_date_descending (rows ticker_df));
      [|exact Hs].
    unfold df_empty in He. destruct (columns ticker_df); [discriminate|].
    destruct (rows ticker_df); [discriminate|]. discriminate. }
  destruct (market_cap_ingested latest) as [m|]; eexists; reflexivity.
Qed.

Lemma period_start_prices_shape ticker d current_price h c l w :
  exists prices l',
    period_start_prices ticker d current_price (mkState h c l w)
    = (Ok prices, mkState h c l' w)
    /\ (current_price = None -> snd prices = NaN).
Proof.
  unfold period_start_prices, try_except, history_range, bind, get_state,
    emit, lift_outcome, ret, raise.
  simpl.
  destruct (history_start_end w l ticker d (d + 4)) as [[|p0 rest]|e]; simpl.
  - eexists. eexists. split; [reflexivity|]. reflexivity.
  - eexists. eexists. split; [reflexivity|]. intros ->. reflexivity.
  - eexists. eexists. split; [reflexivity|]. reflexivity.
Qed.

(** A row made under the two column conditions: the call returns, takes
    at most 15 seconds of sleep, and a row without live price has no
    price change. *)
Lemma ticker_row_shape `{Sorter} r d ticker h c l w df :
  nth_error h r = Some df ->
  has_column df "underlying_ticker" = true ->
  has_column df "data_date" = true ->
  exists row c' l',
    ticker_row r d ticker (mkState h c l w) = (Ok row, mkState h c' l' w)
    /\ c <= c' <= c + 15
    /\ (Current_Price row = None -> Price_Change_pct row = NaN).
Proof.
  intros Hr Hticker Hdate. unfold ticker_row.
  destruct (get_current_price_shape ticker h c l w)
    as [price [c1 [l1 [Hprice Hc1]]]].
  rewrite (bind_run _ _ _ _ _ Hprice).
  rewrite (bind_run _ _ _ df (mkState h c1 l1 w))
    by (apply deref_run; exact Hr).
  unfold bind at 1. rewrite require_column_run, Hticker.
  destruct (market_cap_to_use_total
              (df_filter (fun r0 => option_eqb String.eqb (underlying_ticker r0)
                                      (Some ticker)) df)
              (mkState h c1 l1 w) Hdate) as [cap Hcap].
  rewrite (bind_run _ _ _ _ _ Hcap).
  destruct (premium_sums _) as [[[[total call] put] bullish] bearish].
  destruct (period_start_prices_shape ticker d price h c1 l1 w)
    as [prices [l2 [Hprices Hchange]]].
  rewrite (bind_run _ _ _ _ _ Hprices).
  eexists. eexists. eexists. split; [reflexivity|]. split; [exact Hc1|].
  simpl. exact Hchange.
Qed.

Lemma for_tickers_shape `{Sorter} r d df h w :
  nth_error h r = Some df ->
  has_column df "underlying_ticker" = true ->
  has_column df "data_date" = true ->
  forall tickers acc c l,
    (forall row, In row acc ->
                 Current_Price row = None -> Price_Change_pct row = NaN) ->
    exists analysis c' l',
      for_tickers r d tickers acc (mkState h c l w)
      = (Ok analysis, mkState h c' l' w)
      /\ c <= c' <= c + 15 * Z.of_nat (List.length tickers)
      /\ (forall row, In row analysis ->
                      Current_Price row = None -> Price_Change_pct row = NaN).
Proof.
  intros Hr Hticker Hdate.
  induction tickers as [|t tickers IH]; intros acc c l Hacc.
  - exists acc, c, l. simpl. split; [reflexivity|]. split; [lia|exact Hacc].
  - assert (Hskip : exists analysis c' l',
               for_tickers r d tickers acc (mkState h c l w)
               = (Ok analysis, mkState h c' l' w)
               /\ c <= c' <= c + 15 * Z.of_nat (List.length (t :: tickers))
               /\ (forall row, In row analysis ->
                     Current_Price row = None -> Price_Change_pct row = NaN)).
    { destruct (IH acc c l Hacc) as [analysis [c' [l' [Hrun [Hc Hrows]]]]].
      exists analysis, c', l'. split; [exact Hrun|]. split; [|exact Hrows].
      simpl List.length. lia. }
    destruct t as [t|]; [|exact Hskip]. simpl for_tickers.
    destruct (ticker_skipped t); [exact Hskip|].
    destruct (ticker_row_shape r d t h c l w df Hr Hticker Hdate)
      as [row [c1 [l1 [Hrow [Hc1 Hchange]]]]].
    rewrite (bind_run _ _ _ _ _ Hrow).
    destruct (IH (acc ++ [row])%list c1 l1) as [analysis [c' [l' [Hrun [Hc Hrows]]]]].
    { intros row' Hin. apply in_app_or in Hin.
      destruct Hin as [Hin|[<-|[]]]; [apply Hacc; exact Hin|exact Hchange]. }
    exists analysis, c', l'. split; [exact Hrun|]. split; [|exact Hrows].
    simpl List.length. lia.
Qed.

Lemma no_missing_ticker_after_unique (l : list (option string)) :
  (forall x, In x l -> x <> None) ->
  existsb is_none (unique (option_eqb String.eqb) l) = false.
Proof.
  intros Hall. destruct (existsb is_none _) eqn:He; [|reflexivity].
  apply existsb_exists in He. destruct He as [x [Hx Hnone]].
  apply in_unique in Hx. destruct x; [discriminate|].
  exfalso. apply (Hall None Hx). reflexivity.
Qed.

(** The analysis of a frame that carries symbols and data dates and has
    no missing symbol: it returns, within 15 seconds of sleep per
    distinct symbol, and its rows without live price have no price
    change. *)
Lemma analysis_shape `{Sorter} r d h c l w df :
  nth_error h r = Some df ->
  has_column df "underlying_ticker" = true ->
  has_column df "data_date" = true ->
  (forall rec, In rec (rows df) -> underlying_ticker rec <> None) ->
  exists analysis c' l',
    analyze_ticker_dashboard r d (mkState h c l w)
    = (Ok analysis, mkState h c' l' w)
    /\ c <= c'
       <= c + 15 * Z.of_nat (List.length
                               (unique (option_eqb String.eqb)
                                  (map underlying_ticker (rows df))))
    /\ (forall row, In row analysis ->
                    Current_Price row = None -> Price_Change_pct row = NaN).
Proof.
  intros Hr Hticker Hdate Hpresent. unfold analyze_ticker_dashboard.
  rewrite (bind_run _ _ _ df (mkState h c l w)) by (apply deref_run; exact Hr).
  destruct (df_empty df).
  { exists [], c, l. split; [reflexivity|]. split; [lia|intros row []]. }
  unfold bind at 1. rewrite require_column_run, Hticker.
  unfold sorted_tickers.
  rewrite no_missing_ticker_after_unique.
  2:{ intros x Hx. apply in_map_iff in Hx. destruct Hx as [rec [<- Hrec]].
      apply Hpresent. exact Hrec. }
  simpl andb. cbv iota. unfold bind at 1. unfold ret at 1.
  destruct (for_tickers_shape r d df h w Hr Hticker Hdate
              (sort (nulls_last_leb String.leb)
                 (unique (option_eqb String.eqb)
                    (map underlying_ticker (rows df))))
              [] c l) as [analysis [c' [l' [Hrun [Hc Hrows]]]]].
  { intros row []. }
  exists analysis, c', l'. split; [exact Hrun|]. split; [|exact Hrows].
  rewrite (Permutation_length
             (sort_permutation _ (nulls_last_leb String.leb)
                (unique (option_eqb String.eqb)
                   (map underlying_ticker (rows df))))).
  exact Hc.
Qed.

(** X12.  A frame that carries symbols and data dates and has no
    missing symbol is analysed whatever the price provider does: the
    call raises nothing, leaves the heap as it was, and every row whose
    live price is absent has no price change (NaN). *)
Theorem analysis_survives_provider_failures `{Sorter}
    (options_df_for_period : ref) (start_date : Z) (s : State)
    (df : DataFrame) :
  nth_error (heap s) options_df_for_period = Some df ->
  has_column df "underlying_ticker" = true ->
  has_column df "data_date" = true ->
  (forall rec, In rec (rows df) -> underlying_ticker rec <> None) ->
  exists analysis,
    fst (analyze_ticker_dashboard options_df_for_period start_date s)
    = Ok analysis
    /\ heap (snd (analyze_ticker_dashboard options_df_for_period start_date s))
       = heap s
    /\ (forall row, In row analysis ->
                    Current_Price row = None -> Price_Change_pct row = NaN).
Proof.
  destruct s as [h c l w]. simpl heap. intros Hr Hticker Hdate Hpresent.
  destruct (analysis_shape options_df_for_period start_date h c l w df
              Hr Hticker Hdate Hpresent)
    as [analysis [c' [l' [Hrun [_ Hrows]]]]].
  exists analysis. rewrite Hrun. simpl.
  split; [reflexivity|]. split; [reflexivity|exact Hrows].
Qed.

(** Two records of "NVDA" under a provider whose quote is empty and
    whose history raises: one row comes back. *)
Lemma analysis_survives_provider_failures_witness :
  exists analysis,
    fst (analyze_ticker_dashboard (H := insertion_sorter) 0%nat 1
           (mkState [frame_two_dates] 0 [] failing_world))
    = Ok analysis
    /\ heap (snd (analyze_ticker_dashboard (H := insertion_sorter) 0%nat 1
                    (mkState [frame_two_dates] 0 [] failing_world)))
       = [frame_two_dates]
    /\ (forall row, In row analysis ->
                    Current_Price row = None -> Price_Change_pct row = NaN).
Proof.
  apply (analysis_survives_provider_failures (H := insertion_sorter) 0%nat 1
           (mkState [frame_two_dates] 0 [] failing_world) frame_two_dates).
  - reflexivity.
  - reflexivity.
  - reflexivity.
  - intros rec [<-|[<-|[]]]; discriminate.
Defined.

(** X13.  On such a frame the analysis sleeps at most 15 seconds for
    each distinct symbol: the clock never runs back and advances by at
    most 15 times the number of symbols that [unique()] of line 136
    returns. *)
Theorem analysis_sleeps_at_most_15s_per_symbol `{Sorter}
    (options_df_for_period : ref) (start_date : Z) (s : State)
    (df : DataFrame) :
  nth_error (heap s) options_df_for_period = Some df ->
  has_column df "underlying_ticker" = true ->
  has_column df "data_date" = true ->
  (forall rec, In rec (rows df) -> underlying_ticker rec <> None) ->
  clock s
  <= clock (snd (analyze_ticker_dashboard options_df_for_period start_date s))
  <= clock s
     + 15 * Z.of_nat (List.length
                        (unique (option_eqb String.eqb)
                           (map underlying_ticker (rows df)))).
Proof.
  destruct s as [h c l w]. simpl heap. simpl clock at 1 3.
  intros Hr Hticker Hdate Hpresent.
  destruct (analysis_shape options_df_for_period start_date h c l w df
              Hr Hticker Hdate Hpresent)
    as [analysis [c' [l' [Hrun [Hc _]]]]].
  rewrite Hrun. simpl. exact Hc.
Qed.

(** Two records of the one symbol "NVDA" under the failing provider:
    the clock stays within 0 and 15. *)
Lemma analysis_sleeps_at_most_15s_per_symbol_witness :
  0 <= clock (snd (analyze_ticker_dashboard (H := insertion_sorter) 0%nat 1
                     (mkState [frame_two_dates] 0 [] failing_world)))
  <= 0 + 15 * Z.of_nat (List.length
                           (unique (option_eqb String.eqb)
                              (map underlying_ticker (rows frame_two_dates)))).
Proof.
  apply (analysis_sleeps_at_most_15s_per_symbol (H := insertion_sorter) 0%nat 1
           (mkState [frame_two_dates] 0 [] failing_world) frame_two_dates).
  - reflexivity.
  - reflexivity.
  - reflexivity.
  - intros rec [<-|[<-|[]]]; discriminate.
Defined.
